(** * oamap.source.parquet: a shallow embedding of [ParquetFile]

    The development follows [src/oamap/source/parquet.py]: the framing and
    footer handling of [ParquetFile.__init__], the schema walk [recurse],
    the column reader [ParquetFile.column] with its page generator
    [pagereader] and its codec dispatch, and the value decoder [_plain].

    Python exceptions are values of [exn]; a call that may raise returns a
    [result].  Python integers are unbounded and are modelled in [Z].  The
    Thrift compact protocol (thriftpy), snappy and the file-like object are
    collaborators outside the module: the code is written over an
    [Environment] that supplies them.  The statements come after all the
    definitions, sample files included. *)

From Stdlib Require Import ZArith Lia Strings.String Strings.Byte.
From stdpp Require Import base tactics option list numbers strings.

Local Open Scope Z_scope.

(** ** Exceptions and results *)

Inductive exn : Type :=
  | ImportError
  | TypeError
  | ValueError
  | IOError
  | NotImplementedError
  | AssertionError
  | NameError
  | AttributeError
  | IndexError
  | StructError                 (* struct.error *)
  | ExternalError (what : string). (* raised inside a collaborator *)

Inductive result (A : Type) : Type :=
  | Ok (a : A)
  | Raise (e : exn).
Arguments Ok {A} a.
Arguments Raise {A} e.

#[global] Instance result_ret : MRet result := fun A a => Ok a.
#[global] Instance result_fmap : FMap result := fun A B f m =>
  match m with
  | Ok a => Ok (f a)
  | Raise e => Raise e
  end.
#[global] Instance result_bind : MBind result := fun A B f m =>
  match m with
  | Ok a => f a
  | Raise e => Raise e
  end.

(** ** Python sequences *)

(** [l[start:stop]] on a sequence of length [len]: a negative bound counts
    from the end, and both bounds are clipped to [0, len]. *)
Definition clip_index (len i : Z) : Z :=
  if i <? 0 then Z.max (i + len) 0 else Z.min i len.

Definition py_slice {A} (l : list A) (start stop : Z) : list A :=
  let len := Z.of_nat (length l) in
  let a := clip_index len start in
  let b := clip_index len stop in
  take (Z.to_nat (b - a)) (drop (Z.to_nat a) l).

(** [l[start:]] *)
Definition py_slice_from {A} (l : list A) (start : Z) : list A :=
  py_slice l start (Z.of_nat (length l)).

(** [l[i]] with Python's negative indexing. *)
Definition py_index {A} (l : list A) (i : Z) : result A :=
  let len := Z.of_nat (length l) in
  let j := if i <? 0 then i + len else i in
  if (0 <=? j) && (j <? len)
  then match l !! Z.to_nat j with
       | Some x => Ok x
       | None => Raise IndexError
       end
  else Raise IndexError.

(** ** Bytes and little-endian numbers *)

#[global] Instance byte_eq_dec : EqDecision byte := Byte.byte_eq_dec.

Definition byte_val (b : byte) : Z := Z.of_N (Byte.to_N b).

Definition byte_of (z : Z) : byte :=
  match Byte.of_N (Z.to_N (z mod 256)) with
  | Some b => b
  | None => x00
  end.

Fixpoint le_unsigned (bs : list byte) : Z :=
  match bs with
  | [] => 0
  | b :: bs' => byte_val b + 256 * le_unsigned bs'
  end.

(** two's complement reading of an unsigned [8 * n]-bit number *)
Definition to_signed (n : nat) (u : Z) : Z :=
  if u <? 2 ^ (8 * Z.of_nat n - 1) then u else u - 2 ^ (8 * Z.of_nat n).

Fixpoint le_bytes (n : nat) (z : Z) : list byte :=
  match n with
  | O => []
  | S n' => byte_of z :: le_bytes n' (z / 256)
  end.

(** ** The numpy arrays the module builds

    A buffer is a [list byte] (a flat array of item size 1).  The typed
    arrays are the ones [data.view(...)] can produce in [_plain].  An item
    of an integer array is its value; an item of a floating-point array is
    kept as its IEEE-754 bit pattern, and an item of an ["S12"] array as the
    96-bit number its twelve bytes spell, since [view] only reinterprets
    memory. *)

Inductive dtype : Type :=
  | lt_i4   (* "<i4" *)
  | lt_i8   (* "<i8" *)
  | S12     (* "S12" *)
  | lt_f4   (* "<f4" *)
  | lt_f8.  (* "<f8" *)

#[global] Instance dtype_eq_dec : EqDecision dtype.
Proof. solve_decision. Defined.

Definition itemsize (d : dtype) : nat :=
  match d with
  | lt_i4 => 4
  | lt_i8 => 8
  | S12 => 12
  | lt_f4 => 4
  | lt_f8 => 8
  end%nat.

Definition decode_item (d : dtype) (bs : list byte) : Z :=
  match d with
  | lt_i4 | lt_i8 => to_signed (itemsize d) (le_unsigned bs)
  | S12 | lt_f4 | lt_f8 => le_unsigned bs
  end.

Definition encode_item (d : dtype) (z : Z) : list byte :=
  le_bytes (itemsize d) z.

Record ndarray : Type := mk_ndarray {
  nd_dtype : dtype;
  nd_items : list Z
}.

#[global] Instance ndarray_eq_dec : EqDecision ndarray.
Proof. solve_decision. Defined.

(** [data.view(d)] on a flat byte array: the length must be a multiple of
    the item size, otherwise numpy raises ValueError. *)
Definition view (d : dtype) (data : list byte) : result ndarray :=
  let w := itemsize d in
  if (length data mod w =? 0)%nat
  then Ok (mk_ndarray d
             (decode_item d <$> reshape (replicate (length data / w) w) data))
  else Raise ValueError.

(** [a.tostring()]: the memory of the array. *)
Definition tobytes (a : ndarray) : list byte :=
  mjoin (encode_item (nd_dtype a) <$> nd_items a).

(** [numpy.concatenate(segs)]: an empty list is refused with ValueError.
    The segments [column] passes all come from [_plain] at one column type,
    so they share the dtype of the first one (numpy's promotion of mixed
    dtypes is never exercised). *)
Definition concatenate (segs : list ndarray) : result ndarray :=
  match segs with
  | [] => Raise ValueError
  | a :: _ => Ok (mk_ndarray (nd_dtype a) (mjoin (nd_items <$> segs)))
  end.

(** ** The structures of parquet.thrift that the module reads

    Only the fields the code touches are kept.  An enumeration carries one
    extra constructor for every tag the code does not name.  A field that
    Thrift declares optional, or that the code tests against [None], is an
    [option].  A field that Thrift declares required is taken to be there:
    thriftpy leaves a missing one [None], and the code raises TypeError
    where it first uses it (for [schema], at the [len] of line 144). *)

Module parquet_thrift.

Inductive FieldRepetitionType : Type := REQUIRED | OPTIONAL | REPEATED.

Inductive CompressionCodec : Type :=
  | UNCOMPRESSED | SNAPPY | GZIP | LZO | BROTLI | LZ4 | ZSTD
  | OtherCodec (tag : Z).

Inductive Encoding : Type :=
  | PLAIN | PLAIN_DICTIONARY
  | OtherEncoding (tag : Z).

Inductive Type_ : Type :=
  | BOOLEAN | INT32 | INT64 | INT96 | FLOAT | DOUBLE
  | BYTE_ARRAY | FIXED_LEN_BYTE_ARRAY
  | OtherType (tag : Z).

#[global] Instance FieldRepetitionType_eq_dec : EqDecision FieldRepetitionType.
Proof. solve_decision. Defined.

(** A schema element.  The last five fields are the attributes that
    [recurse] attaches to the parsed object; [None] is an attribute that
    has not been set.  [children] holds references into [footer.schema],
    that is, positions of that list. *)
Module SchemaElement.
Record t : Type := mk {
  name : string;
  repetition_type : option FieldRepetitionType;
  num_children : option Z;
  children : option (list nat);
  path : option (list string);
  required : option bool;
  maxdef : option Z;
  maxrep : option Z
}.
End SchemaElement.

Module ColumnMetaData.
Record t : Type := mk {
  type : Type_;
  path_in_schema : list string;
  codec : CompressionCodec;
  num_values : Z
}.
End ColumnMetaData.

Module ColumnChunk.
Record t : Type := mk {
  file_offset : Z;
  meta_data : option ColumnMetaData.t
}.
End ColumnChunk.

Module RowGroup.
Record t : Type := mk { columns : list ColumnChunk.t }.
End RowGroup.

Module FileMetaData.
Record t : Type := mk {
  schema : list SchemaElement.t;
  row_groups : list RowGroup.t
}.
End FileMetaData.

Module DataPageHeader.
Record t : Type := mk {
  num_values : Z;
  encoding : Encoding
}.
End DataPageHeader.

Module PageHeader.
Record t : Type := mk {
  uncompressed_page_size : option Z;
  compressed_page_size : option Z;
  data_page_header : option DataPageHeader.t
}.
End PageHeader.

End parquet_thrift.
Import parquet_thrift.

(** ** The Thrift reader as a client of a transport

    [X().read(pin)] is code of thriftpy.  All it does to the outside is
    call the transport's [_read(bytes)]; it ends with the parsed structure
    or with an exception.  A reader is therefore a tree of such calls. *)
Inductive Decoder (A : Type) : Type :=
  | Done (a : A)
  | Fail (e : exn)
  | Read (bytes : Z) (k : list byte -> Decoder A).
Arguments Done {A} a.
Arguments Fail {A} e.
Arguments Read {A} bytes k.

Inductive whence : Type := SEEK_SET | SEEK_END.

(** The magic marker [b"PAR1"]. *)
Definition PAR1 : list byte := [x50; x41; x52; x31].

(** ** [_bitwidth] and [_plain] (static methods) *)

(** lines 271-273: the body is a bare [raise NotImplementedError]. *)
Definition _bitwidth (maxvalue : Z) : result Z := Raise NotImplementedError.

(** lines 275-302 *)
Definition _plain (data : list byte) (metadata : ColumnMetaData.t)
  : result ndarray :=
  match ColumnMetaData.type metadata with
  | BOOLEAN => Raise NotImplementedError
  | INT32 => view lt_i4 data
  | INT64 => view lt_i8 data
  | INT96 => view S12 data
  | FLOAT => view lt_f4 data
  | DOUBLE => view lt_f8 data
  | BYTE_ARRAY => Raise NotImplementedError
  | FIXED_LEN_BYTE_ARRAY => Raise NotImplementedError
  | OtherType _ => Raise AssertionError
  end.

(** ** The schema walk of [__init__] (lines 126-147)

    [self.footer.schema] is a Python list of mutable objects.  The walk
    updates the object at a position in place, so the list is threaded
    through as a store, and a reference to an element is its position.
    Positions only grow from 1, hence are natural numbers: the negative
    indexing of Python cannot be reached.  Python gives up a recursion
    deeper than the interpreter's limit with RecursionError; the limit is
    not part of the model, which is the walk of a schema nested less
    deeply than that. *)

(** lines 132-134, for the element [e] and the bounds of its parent *)
Definition is_required (e : SchemaElement.t) : bool :=
  bool_decide (SchemaElement.repetition_type e = Some REQUIRED).

Definition node_maxdef (e : SchemaElement.t) (maxdef : Z) : Z :=
  maxdef + (if is_required e then 0 else 1).

Definition node_maxrep (e : SchemaElement.t) (maxrep : Z) : Z :=
  maxrep + (if is_required e then 1 else 0).

(** lines 128-134: the attributes written onto the element *)
Definition enrich (e : SchemaElement.t) (path : list string) (maxdef maxrep : Z)
  : SchemaElement.t :=
  SchemaElement.mk
    (SchemaElement.name e)
    (SchemaElement.repetition_type e)
    (Some (default 0 (SchemaElement.num_children e)))
    (Some [])
    (Some (path ++ [SchemaElement.name e]))
    (Some (is_required e))
    (Some (node_maxdef e maxdef))
    (Some (node_maxrep e maxrep)).

(** [schema.children.append(child)] *)
Definition add_child (child : nat) (e : SchemaElement.t) : SchemaElement.t :=
  SchemaElement.mk
    (SchemaElement.name e)
    (SchemaElement.repetition_type e)
    (SchemaElement.num_children e)
    ((λ cs, cs ++ [child]) <$> SchemaElement.children e)
    (SchemaElement.path e)
    (SchemaElement.required e)
    (SchemaElement.maxdef e)
    (SchemaElement.maxrep e).

Abbreviation store := (list SchemaElement.t).

(** The [for i in range(schema.num_children)] loop of [recurse], for the
    node at position [own]; [rec] is the recursive call with the node's
    path and level bounds already supplied. *)
Fixpoint children_loop (rec : store → nat → option (result (store * nat)))
    (own : nat) (n : nat) (sch : store) (index : nat)
  : option (result (store * nat)) :=
  match n with
  | O => Some (Ok (sch, index))
  | S n' =>
      let index := S index in
      match sch !! index with
      | None => Some (Raise IndexError)
      | Some _ =>
          match rec (alter (add_child index) own sch) index with
          | Some (Ok (sch', index')) => children_loop rec own n' sch' index'
          | Some (Raise e) => Some (Raise e)
          | None => None
          end
      end
  end.

(** [recurse(index, path, maxdef, maxrep)]; [None] is fuel running out. *)
Fixpoint recurse (fuel : nat) (sch : store) (index : nat) (path : list string)
    (maxdef maxrep : Z) : option (result (store * nat)) :=
  match fuel with
  | O => None
  | S fuel' =>
      match sch !! index with
      | None => Some (Raise IndexError)
      | Some schema =>
          children_loop
            (λ s i, recurse fuel' s i
                      (path ++ [SchemaElement.name schema])
                      (node_maxdef schema maxdef)
                      (node_maxrep schema maxrep))
            index
            (Z.to_nat (default 0 (SchemaElement.num_children schema)))
            (<[index := enrich schema path maxdef maxrep]> sch)
            index
      end
  end.

(** The [while index + 1 < len(self.footer.schema)] loop (lines 142-147). *)
Fixpoint fields_loop (fuel : nat) (sch : store) (index : nat)
    (fields : list nat)
  : option (result (store * list nat)) :=
  match fuel with
  | O => None
  | S fuel' =>
      if (index + 1 <? length sch)%nat
      then
        let index := S index in
        match sch !! index with
        | None => Some (Raise IndexError)
        | Some _ =>
            match recurse (length sch) sch index [] 0 0 with
            | Some (Ok (sch', index')) =>
                fields_loop fuel' sch' index' (fields ++ [index])
            | Some (Raise e) => Some (Raise e)
            | None => None
            end
        end
      else Some (Ok (sch, fields))
  end.

(** ** The reader *)

(** What [__init__] goes on with once lines 64-71 have let the argument
    through: a flat, contiguous numpy array of item size 1, given by its
    bytes, or an object with [read] and [seek], whose state is an [F].
    Whatever else may be passed is an [argument], below, and [construct]
    says what becomes of it. *)
Inductive Handle (F : Type) : Type :=
  | Memmap (memmap : list byte)
  | File (file : F).
Arguments Memmap {F} memmap.
Arguments File {F} file.

(** What a caller may pass to [ParquetFile(file)]: a numpy array, with
    its item size, its number of dimensions, whether its memory is
    contiguous and, when it is flat and of item size 1, its bytes in the
    order of the index; an object with [read] and [seek]; anything else. *)
Inductive argument (F : Type) : Type :=
  | Ndarray (itemsize ndim : nat) (contiguous : bool) (bytes : list byte)
  | FileLike (file : F)
  | Other.
Arguments Ndarray {F} itemsize ndim contiguous bytes.
Arguments FileLike {F} file.
Arguments Other {F}.

(** the argument that a handle was *)
Definition as_argument {F} (h : Handle F) : argument F :=
  match h with
  | Memmap memmap => Ndarray 1 1 true memmap
  | File file => FileLike file
  end.

(** The attributes of a [ParquetFile] object. *)
Record ParquetFile (F : Type) : Type := mk_ParquetFile {
  handle : Handle F;             (* self.memmap or self.file *)
  footer : FileMetaData.t;       (* self.footer *)
  fields : list nat              (* self.fields, as references *)
}.
Arguments mk_ParquetFile {F} handle footer fields.
Arguments handle {F} p.
Arguments footer {F} p.
Arguments fields {F} p.

(** The collaborators of the module.  [FileObject] is the state of a
    file-like object with its [read] and [seek] methods ([read(None)] reads
    to the end); a call gives its outcome and the state it leaves.
    [thriftpy_imported] is [thriftpy is not None], and [snappy] is the
    [decompress] of the snappy module when that import succeeded.  The two
    readers are [parquet_thrift.FileMetaData().read] and
    [parquet_thrift.PageHeader().read] over the compact protocol. *)
Class Environment : Type := {
  FileObject : Type;
  file_read : FileObject → option Z → result (list byte) * FileObject;
  file_seek : FileObject → Z → whence → result unit * FileObject;
  thriftpy_imported : bool;
  snappy : option (list byte → result (list byte));
  FileMetaData_read : Decoder FileMetaData.t;
  PageHeader_read : Decoder PageHeader.t
}.

Section ParquetFile.

Context `{Env : Environment}.

(** *** The two [TFileTransport] classes *)

(** lines 83-91: [_read] of the transport over the array; the result is
    the bytes and the new [_index]. *)
Definition _read (memmap : list byte) (index : Z) (bytes : Z)
  : result (list byte * Z) :=
  if negb ((0 <=? index) && (index <? Z.of_nat (length memmap)))
  then Raise IOError
  else
    let out := py_slice memmap index (index + bytes) in
    let index := index + bytes in
    if (length out =? 0)%nat then Ok ([], index) else Ok (out, index).

(** A reader run over the array transport created at [index]: the parsed
    structure and the final [tin._index]. *)
Fixpoint read_memmap {A} (d : Decoder A) (memmap : list byte) (index : Z)
  : result (A * Z) :=
  match d with
  | Done a => Ok (a, index)
  | Fail e => Raise e
  | Read bytes k =>
      match _read memmap index bytes with
      | Ok (out, index') => read_memmap (k out) memmap index'
      | Raise e => Raise e
      end
  end.

(** lines 111-112: [_read] of the transport over the file object is
    [self._file.read(bytes)]. *)
Fixpoint read_file {A} (d : Decoder A) (file : FileObject)
  : result A * FileObject :=
  match d with
  | Done a => (Ok a, file)
  | Fail e => (Raise e, file)
  | Read bytes k =>
      match file_read file (Some bytes) with
      | (Ok out, file') => read_file (k out) file'
      | (Raise e, file') => (Raise e, file')
      end
  end.

(** *** [__init__] *)

(** lines 73-77 and 116-124 for an array: magic, footer length, footer. *)
Definition init_memmap (memmap : list byte) : result FileMetaData.t :=
  let headermagic := py_slice memmap 0 4 in
  let footermagic := py_slice_from memmap (-4) in
  v ← view lt_i4 (py_slice memmap (-8) (-4));
  footerbytes ← match nd_items v with
                | [x] => Ok x
                | _ => Raise ValueError
                end;
  let index := Z.of_nat (length memmap) - (footerbytes + 8) in
  if negb (bool_decide (headermagic = PAR1)) then Raise ValueError
  else if negb (bool_decide (footermagic = PAR1)) then Raise ValueError
  else '(footer, _) ← read_memmap FileMetaData_read memmap index; Ok footer.

(** lines 96-106 and 116-124 for a file object; [struct.unpack] needs
    exactly four bytes. *)
Definition init_file (file : FileObject)
  : result FileMetaData.t * FileObject :=
  match file_seek file 0 SEEK_SET with
  | (Raise e, file) => (Raise e, file)
  | (Ok _, file) =>
  match file_read file (Some 4) with
  | (Raise e, file) => (Raise e, file)
  | (Ok headermagic, file) =>
  match file_seek file (-4) SEEK_END with
  | (Raise e, file) => (Raise e, file)
  | (Ok _, file) =>
  match file_read file (Some 4) with
  | (Raise e, file) => (Raise e, file)
  | (Ok footermagic, file) =>
  match file_seek file (-8) SEEK_END with
  | (Raise e, file) => (Raise e, file)
  | (Ok _, file) =>
  match file_read file (Some 4) with
  | (Raise e, file) => (Raise e, file)
  | (Ok packed, file) =>
      if negb (length packed =? 4)%nat then (Raise StructError, file)
      else
        let footerbytes := to_signed 4 (le_unsigned packed) in
        match file_seek file (- (footerbytes + 8)) SEEK_END with
        | (Raise e, file) => (Raise e, file)
        | (Ok _, file) =>
            if negb (bool_decide (headermagic = PAR1))
            then (Raise ValueError, file)
            else if negb (bool_decide (footermagic = PAR1))
            then (Raise ValueError, file)
            else read_file FileMetaData_read file
        end
  end end end end end end.

(** [ParquetFile.__init__(self, file)]: the outcome and the state the
    handle is left in.  The schema walk runs on fuel [S (length schema)],
    which is always enough (see [init_terminates]). *)
Definition __init__ (file : Handle FileObject)
  : option (result (ParquetFile FileObject) * Handle FileObject) :=
  if negb thriftpy_imported then Some (Raise ImportError, file)
  else
    let '(parsed, file) :=
      match file with
      | Memmap memmap => (init_memmap memmap, file)
      | File f => let '(r, f') := init_file f in (r, File f')
      end in
    match parsed with
    | Raise e => Some (Raise e, file)
    | Ok footer =>
        let sch := FileMetaData.schema footer in
        match fields_loop (S (length sch)) sch 0%nat [] with
        | None => None
        | Some (Raise e) => Some (Raise e, file)
        | Some (Ok (sch', fields)) =>
            Some (Ok (mk_ParquetFile file
                        (FileMetaData.mk sch' (FileMetaData.row_groups footer))
                        fields),
                  file)
        end
    end.

(** [ParquetFile(file)] for whatever [file] is.  Lines 61-71 refuse what
    is neither a flat array of item size 1 nor file-like.  An array that
    is not contiguous gets through them and is sliced in lines 74-76, but
    numpy cannot view the bytes of such a slice as a number: line 76
    raises ValueError.  Everything else is [__init__]. *)
Definition construct (file : argument FileObject)
  : option (result (ParquetFile FileObject) * argument FileObject) :=
  if negb thriftpy_imported then Some (Raise ImportError, file)
  else
    match file with
    | Ndarray itemsize ndim contiguous bytes =>
        if negb (itemsize =? 1)%nat || negb (ndim =? 1)%nat
        then Some (Raise TypeError, file)
        else if negb contiguous then Some (Raise ValueError, file)
        else prod_map id as_argument <$> __init__ (Memmap bytes)
    | FileLike f => prod_map id as_argument <$> __init__ (File f)
    | Other => Some (Raise TypeError, file)
    end.

(** *** [ParquetFile.column] *)

(** lines 153-157: the first chunk whose [path_in_schema] equals
    [schema.path]; an unset [meta_data] or an unset [path] attribute is an
    AttributeError at the comparison. *)
Fixpoint find_column (columns : list ColumnChunk.t) (schema : SchemaElement.t)
  : result (option ColumnChunk.t) :=
  match columns with
  | [] => Ok None
  | column :: rest =>
      match ColumnChunk.meta_data column with
      | None => Raise AttributeError
      | Some meta_data =>
          match SchemaElement.path schema with
          | None => Raise AttributeError
          | Some path =>
              if bool_decide (ColumnMetaData.path_in_schema meta_data = path)
              then Ok (Some column)
              else find_column rest schema
          end
      end
  end.

(** lines 193-213: the [decompress] function chosen for a codec.  Each
    one takes [compressed, compressedbytes, uncompressedbytes] and looks at
    the first only, so the two sizes are left out.  In the GZIP branch the
    body names [compresseddata], which is bound nowhere (the parameter is
    [compressed]): calling it is a NameError. *)
Definition select_decompress (codec : CompressionCodec)
  : result (list byte → result (list byte)) :=
  match codec with
  | UNCOMPRESSED => Ok (λ compressed, Ok compressed)
  | SNAPPY =>
      match snappy with
      | None => Raise ImportError
      | Some snappy_decompress =>
          Ok (λ compressed, snappy_decompress compressed)
      end
  | GZIP => Ok (λ compressed, Raise NameError)
  | LZO => Raise NotImplementedError
  | BROTLI => Raise NotImplementedError
  | LZ4 => Raise NotImplementedError
  | ZSTD => Raise NotImplementedError
  | OtherCodec _ => Raise AssertionError
  end.

(** What the generator yields: [header, compressed, start, stop]. *)
Record page : Type := mk_page {
  pg_header : PageHeader.t;
  pg_compressed : list byte;
  pg_start : Z;
  pg_stop : Z
}.

(** The first thing [pagereader] does when it is started: nothing for an
    array, [file.seek(index, os.SEEK_SET)] for a file object (line 181). *)
Definition pagereader_start (h : Handle FileObject) (index : Z)
  : result unit * Handle FileObject :=
  match h with
  | Memmap _ => (Ok (), h)
  | File file =>
      let '(r, file') := file_seek file index SEEK_SET in (r, File file')
  end.

(** One turn of the [while] loop of [pagereader], entered with
    [start < num_values]: the page yielded and the generator's [index]
    when it is resumed (lines 166-174 and 184-190).  For an array,
    [index + header.compressed_page_size] in the slice is a TypeError when
    the size is [None]; [header.data_page_header.num_values] is an
    AttributeError when there is no data page header. *)
Definition pagereader_step (h : Handle FileObject) (index start : Z)
  : result (page * Z) * Handle FileObject :=
  match h with
  | Memmap memmap =>
      ('(header, index) ← read_memmap PageHeader_read memmap index;
       match PageHeader.compressed_page_size header with
       | None => Raise TypeError
       | Some size =>
           let compressed := py_slice memmap index (index + size) in
           let index := index + size in
           match PageHeader.data_page_header header with
           | None => Raise AttributeError
           | Some dph =>
               let stop := start + DataPageHeader.num_values dph in
               Ok (mk_page header compressed start stop, index)
           end
       end, h)
  | File file =>
      match read_file PageHeader_read file with
      | (Raise e, file) => (Raise e, File file)
      | (Ok header, file) =>
          match file_read file (PageHeader.compressed_page_size header) with
          | (Raise e, file) => (Raise e, File file)
          | (Ok compressed, file) =>
              match PageHeader.data_page_header header with
              | None => (Raise AttributeError, File file)
              | Some dph =>
                  let stop := start + DataPageHeader.num_values dph in
                  (Ok (mk_page header compressed start stop, index), File file)
              end
          end
      end
  end.

(** The three lists the page loop fills. *)
Record segments : Type := mk_segments {
  deflevelsegs : list ndarray;
  replevelsegs : list ndarray;
  datasegs : list ndarray
}.

(** lines 220-251: the body of the [for] loop, for one page. *)
Definition page_body (decompress : list byte → result (list byte))
    (schema : SchemaElement.t) (meta_data : ColumnMetaData.t)
    (deflevels replevels data : bool) (pg : page) (segs : segments)
  : result segments :=
  uncompressed ← decompress (pg_compressed pg);
  let index := 0 in
  let deflevelseg : option ndarray := None in
  let replevelseg : option ndarray := None in
  required ← from_option Ok (Raise AttributeError)
               (SchemaElement.required schema);
  _ ← (if negb required
       then
         maxdef ← from_option Ok (Raise AttributeError)
                    (SchemaElement.maxdef schema);
         bitwidth ← _bitwidth maxdef;
         if bitwidth >? 0 then Raise NotImplementedError else Ok ()
       else Ok ());
  path ← from_option Ok (Raise AttributeError) (SchemaElement.path schema);
  _ ← (if (1 <? length path)%nat
       then
         maxrep ← from_option Ok (Raise AttributeError)
                    (SchemaElement.maxrep schema);
         bitwidth ← _bitwidth maxrep;
         (Raise NotImplementedError : result unit)
       else Ok ());
  dph ← from_option Ok (Raise AttributeError)
          (PageHeader.data_page_header (pg_header pg));
  dataseg ← match DataPageHeader.encoding dph with
            | PLAIN =>
                Some <$> _plain (py_slice_from uncompressed index) meta_data
            | PLAIN_DICTIONARY => Raise NotImplementedError
            | OtherEncoding _ => Raise AssertionError
            end;
  Ok (mk_segments
        (if deflevels then deflevelsegs segs ++ option_list deflevelseg
         else deflevelsegs segs)
        (if replevels then replevelsegs segs ++ option_list replevelseg
         else replevelsegs segs)
        (if data then datasegs segs ++ option_list dataseg
         else datasegs segs)).

(** lines 219-251: the [for] loop drawing from the generator.  Each turn
    resumes the generator (which stops once [start >= num_values]) and
    then runs the body on what it yields.  The pages consumed are kept in
    the order they were read; [None] is fuel running out. *)
Fixpoint page_loop (fuel : nat) (decompress : list byte → result (list byte))
    (schema : SchemaElement.t) (meta_data : ColumnMetaData.t)
    (deflevels replevels data : bool)
    (h : Handle FileObject) (index start : Z) (pages : list page)
    (segs : segments)
  : option (result (list page * segments) * Handle FileObject) :=
  match fuel with
  | O => None
  | S fuel' =>
      if start <? ColumnMetaData.num_values meta_data
      then
        match pagereader_step h index start with
        | (Raise e, h) => Some (Raise e, h)
        | (Ok (pg, index), h) =>
            match page_body decompress schema meta_data
                    deflevels replevels data pg segs with
            | Raise e => Some (Raise e, h)
            | Ok segs =>
                page_loop fuel' decompress schema meta_data
                  deflevels replevels data h index (pg_stop pg)
                  (pages ++ [pg]) segs
            end
        end
      else Some (Ok (pages, segs), h)
  end.

(** lines 253-269: one slot of the returned tuple *)
Definition slot (segs : list ndarray) : result (option ndarray) :=
  if (length segs =? 0)%nat then Ok None else Some <$> concatenate segs.

Definition build_out (deflevels replevels data : bool) (segs : segments)
  : result (list (option ndarray)) :=
  let out := [] in
  out ← (if deflevels
         then s ← slot (deflevelsegs segs); Ok (out ++ [s])
         else Ok out);
  out ← (if replevels
         then s ← slot (replevelsegs segs); Ok (out ++ [s])
         else Ok out);
  out ← (if data
         then s ← slot (datasegs segs); Ok (out ++ [s])
         else Ok out);
  Ok out.

(** [column(self, rowgroupid, schema, deflevels, replevels, data,
    parallel)], run in detail: the pages it read and the tuple it returns,
    or the exception it raises, and the state the handle is left in.  The
    tuple is a list of slots, [None] being Python's [None].  In line 159
    the message names [columnpath], which is bound nowhere: building the
    message is a NameError. *)
Definition column_run (fuel : nat) (self : ParquetFile FileObject)
    (rowgroupid : Z)
    (schema : SchemaElement.t) (deflevels replevels data parallel : bool)
  : option (result (list page * list (option ndarray)) * Handle FileObject) :=
  let h := handle self in
  if parallel then Some (Raise NotImplementedError, h)
  else
    match py_index (FileMetaData.row_groups (footer self)) rowgroupid with
    | Raise e => Some (Raise e, h)
    | Ok rowgroup =>
    match find_column (RowGroup.columns rowgroup) schema with
    | Raise e => Some (Raise e, h)
    | Ok None => Some (Raise NameError, h)
    | Ok (Some footercolumn) =>
    match ColumnChunk.meta_data footercolumn with
    | None => Some (Raise AttributeError, h)
    | Some meta_data =>
    match select_decompress (ColumnMetaData.codec meta_data) with
    | Raise e => Some (Raise e, h)
    | Ok decompress =>
    match pagereader_start h (ColumnChunk.file_offset footercolumn) with
    | (Raise e, h) => Some (Raise e, h)
    | (Ok _, h) =>
    match page_loop fuel decompress schema meta_data deflevels replevels data
            h (ColumnChunk.file_offset footercolumn) 0 []
            (mk_segments [] [] []) with
    | None => None
    | Some (Raise e, h) => Some (Raise e, h)
    | Some (Ok (pages, segs), h) =>
        match build_out deflevels replevels data segs with
        | Raise e => Some (Raise e, h)
        | Ok out => Some (Ok (pages, out), h)
        end
    end end end end end end.

(** The pages [pagereader] yielded during a call. *)
Definition pages_read (fuel : nat) (self : ParquetFile FileObject)
    (rowgroupid : Z)
    (schema : SchemaElement.t) (deflevels replevels data parallel : bool)
  : option (result (list page)) :=
  match column_run fuel self rowgroupid schema deflevels replevels data
          parallel with
  | None => None
  | Some (Ok (pages, _), _) => Some (Ok pages)
  | Some (Raise e, _) => Some (Raise e)
  end.

(** What the caller of [column] observes: the returned tuple or the
    exception, and the object afterwards (its handle may have moved). *)
Definition column (fuel : nat) (self : ParquetFile FileObject)
    (rowgroupid : Z)
    (schema : SchemaElement.t) (deflevels replevels data parallel : bool)
  : option (result (list (option ndarray)) * ParquetFile FileObject) :=
  match column_run fuel self rowgroupid schema deflevels replevels data
          parallel with
  | None => None
  | Some (r, h) =>
      Some (match r with Ok (_, out) => Ok out | Raise e => Raise e end,
            mk_ParquetFile h (footer self) (fields self))
  end.

End ParquetFile.

(** ** The reader on Python's objects

    Above, a call is a function of the values it reads.  Here the objects
    themselves are kept: the array, the file object, the footer, the
    [ParquetFile] and the transports live in a store, a reference is a
    position of the store, an object that is created is put at its end,
    and an assignment to an attribute replaces the object in place.  The
    store is what a call of [column] can change.  A slice or a view of an
    array is kept as the bytes it shows (the module writes through none),
    and the footer with all that hangs from it is one object. *)

Abbreviation loc := nat.

Inductive object (F : Type) : Type :=
  | NdArray (buffer : list byte)          (* a flat numpy array, item size 1 *)
  | FileObj (file : F)                    (* a file-like object *)
  | FooterObj (footer : FileMetaData.t)   (* self.footer and what it holds *)
  | ArrayTransport (_memmap : loc) (_index : Z)   (* lines 79-91 *)
  | FileTransport (_file : loc)                   (* lines 108-112 *)
  | ParquetFileObj (memmap file : option loc) (footer : loc)
      (fields : list nat).
Arguments NdArray {F} buffer.
Arguments FileObj {F} file.
Arguments FooterObj {F} footer.
Arguments ArrayTransport {F} _memmap _index.
Arguments FileTransport {F} _file.
Arguments ParquetFileObj {F} memmap file footer fields.

(** A computation on the store: its outcome and the store it leaves. *)
Definition Py (F A : Type) : Type :=
  list (object F) → result A * list (object F).

Definition py_ret {F A} (a : A) : Py F A := λ σ, (Ok a, σ).

Definition py_raise {F A} (e : exn) : Py F A := λ σ, (Raise e, σ).

Definition py_bind {F A B} (m : Py F A) (k : A → Py F B) : Py F B :=
  λ σ, match m σ with
       | (Ok a, σ') => k a σ'
       | (Raise e, σ') => (Raise e, σ')
       end.

#[global] Instance Py_ret {F} : MRet (Py F) := λ A, py_ret.
#[global] Instance Py_bind {F} : MBind (Py F) := λ A B k m, py_bind m k.

(** a new object *)
Definition new {F} (o : object F) : Py F loc :=
  λ σ, (Ok (length σ), σ ++ [o]).

(** the object a reference leads to *)
Definition deref {F} (l : loc) : Py F (object F) :=
  λ σ, match σ !! l with
       | Some o => (Ok o, σ)
       | None => (Raise AttributeError, σ)
       end.

(** an assignment to attributes of the object at [l] *)
Definition assign {F} (l : loc) (o : object F) : Py F unit :=
  λ σ, (Ok (), <[l := o]> σ).

Section Objects.

Context `{Env : Environment}.

(** lines 83-91 and 111-112: [self._read(bytes)] on a transport object.
    For an array it is [_read] on the buffer, and the new index is
    assigned to [self._index]; for a file object it is [file.read(bytes)],
    which moves the file object. *)
Definition TFileTransport_read (self : loc) (bytes : Z)
  : Py FileObject (list byte) :=
  o ← deref self;
  match o with
  | ArrayTransport memmap index =>
      a ← deref memmap;
      match a with
      | NdArray buffer =>
          match _read buffer index bytes with
          | Ok (out, index') =>
              assign self (ArrayTransport memmap index');;
              py_ret out
          | Raise e => py_raise e
          end
      | _ => py_raise TypeError
      end
  | FileTransport file =>
      f ← deref file;
      match f with
      | FileObj st =>
          let '(r, st') := file_read st (Some bytes) in
          assign file (FileObj st');;
          match r with
          | Ok out => py_ret out
          | Raise e => py_raise e
          end
      | _ => py_raise AttributeError
      end
  | _ => py_raise AttributeError
  end.

(** a reader run over the transport object [tin] *)
Fixpoint read_via {A} (d : Decoder A) (tin : loc) : Py FileObject A :=
  match d with
  | Done a => py_ret a
  | Fail e => py_raise e
  | Read bytes k =>
      out ← TFileTransport_read tin bytes;
      read_via (k out) tin
  end.

(** [self.memmap] *)
Definition memmap_of (self : loc) : Py FileObject loc :=
  o ← deref self;
  match o with
  | ParquetFileObj (Some memmap) _ _ _ => mret memmap
  | _ => py_raise AttributeError
  end.

(** lines 166-174: one turn of [pagereader] over the array [self.memmap] *)
Definition pagereader_array (self : loc) (index start : Z)
  : Py FileObject (page * Z) :=
  memmap ← memmap_of self;
  tin ← new (ArrayTransport memmap index);
  header ← read_via PageHeader_read tin;
  t ← deref tin;
  match t with
  | ArrayTransport _ index =>
      memmap ← memmap_of self;
      a ← deref memmap;
      match a with
      | NdArray buffer =>
          match PageHeader.compressed_page_size header with
          | None => py_raise TypeError
          | Some size =>
              let compressed := py_slice buffer index (index + size) in
              let index := index + size in
              match PageHeader.data_page_header header with
              | None => py_raise AttributeError
              | Some dph =>
                  let stop := start + DataPageHeader.num_values dph in
                  py_ret (mk_page header compressed start stop, index)
              end
          end
      | _ => py_raise TypeError
      end
  | _ => py_raise AttributeError
  end.

(** [file.read(size)] and [file.seek(offset, whence)] on a file object *)
Definition read_method (file : loc) (size : option Z)
  : Py FileObject (list byte) :=
  f ← deref file;
  match f with
  | FileObj st =>
      let '(r, st') := file_read st size in
      assign file (FileObj st');;
      match r with
      | Ok out => py_ret out
      | Raise e => py_raise e
      end
  | _ => py_raise AttributeError
  end.

Definition seek_method (file : loc) (offset : Z) (w : whence)
  : Py FileObject unit :=
  f ← deref file;
  match f with
  | FileObj st =>
      let '(r, st') := file_seek st offset w in
      assign file (FileObj st');;
      match r with
      | Ok _ => py_ret ()
      | Raise e => py_raise e
      end
  | _ => py_raise AttributeError
  end.

(** lines 184-190: one turn of [pagereader] over the file object that
    [self.file] was when the generator started (line 180) *)
Definition pagereader_file (file : loc) (index start : Z)
  : Py FileObject (page * Z) :=
  tin ← new (FileTransport file);
  header ← read_via PageHeader_read tin;
  compressed ← read_method file (PageHeader.compressed_page_size header);
  match PageHeader.data_page_header header with
  | None => py_raise AttributeError
  | Some dph =>
      let stop := start + DataPageHeader.num_values dph in
      py_ret (mk_page header compressed start stop, index)
  end.

(** lines 219-251 on the store; [turn] is one turn of the generator *)
Fixpoint page_loop_on (fuel : nat) (turn : Z → Z → Py FileObject (page * Z))
    (decompress : list byte → result (list byte))
    (schema : SchemaElement.t) (meta_data : ColumnMetaData.t)
    (deflevels replevels data : bool) (index start : Z) (segs : segments)
    (σ : list (object FileObject))
  : option (result segments * list (object FileObject)) :=
  match fuel with
  | O => None
  | S fuel' =>
      if start <? ColumnMetaData.num_values meta_data
      then
        match turn index start σ with
        | (Raise e, σ) => Some (Raise e, σ)
        | (Ok (pg, index), σ) =>
            match page_body decompress schema meta_data
                    deflevels replevels data pg segs with
            | Raise e => Some (Raise e, σ)
            | Ok segs =>
                page_loop_on fuel' turn decompress schema meta_data
                  deflevels replevels data index (pg_stop pg) segs σ
            end
        end
      else Some (Ok segs, σ)
  end.

(** [self.column(rowgroupid, schema, deflevels, replevels, data,
    parallel)] on the store, [self] being a reference to the
    [ParquetFile]: the tuple returned or the exception raised, and the
    store afterwards. *)
Definition column_on (fuel : nat) (self : loc) (rowgroupid : Z)
    (schema : SchemaElement.t) (deflevels replevels data parallel : bool)
    (σ : list (object FileObject))
  : option (result (list (option ndarray)) * list (object FileObject)) :=
  if parallel then Some (Raise NotImplementedError, σ)
  else
    match σ !! self with
    | Some (ParquetFileObj memmap file footer _) =>
    match σ !! footer with
    | Some (FooterObj footer) =>
    match py_index (FileMetaData.row_groups footer) rowgroupid with
    | Raise e => Some (Raise e, σ)
    | Ok rowgroup =>
    match find_column (RowGroup.columns rowgroup) schema with
    | Raise e => Some (Raise e, σ)
    | Ok None => Some (Raise NameError, σ)
    | Ok (Some footercolumn) =>
    match ColumnChunk.meta_data footercolumn with
    | None => Some (Raise AttributeError, σ)
    | Some meta_data =>
    match select_decompress (ColumnMetaData.codec meta_data) with
    | Raise e => Some (Raise e, σ)
    | Ok decompress =>
    let offset := ColumnChunk.file_offset footercolumn in
    let started :=
      match memmap, file with
      | Some _, _ => (Ok (pagereader_array self), σ)
      | None, Some file =>
          match seek_method file offset SEEK_SET σ with
          | (Ok _, σ) => (Ok (pagereader_file file), σ)
          | (Raise e, σ) => (Raise e, σ)
          end
      | None, None => (Raise AttributeError, σ)
      end in
    match started with
    | (Raise e, σ) => Some (Raise e, σ)
    | (Ok turn, σ) =>
    match page_loop_on fuel turn decompress schema meta_data
            deflevels replevels data offset 0 (mk_segments [] [] []) σ with
    | None => None
    | Some (Raise e, σ) => Some (Raise e, σ)
    | Some (Ok segs, σ) =>
        Some (build_out deflevels replevels data segs, σ)
    end end end end end end
    | _ => Some (Raise AttributeError, σ)
    end
    | _ => Some (Raise AttributeError, σ)
    end.

End Objects.

(** the objects of a [ParquetFile] that was built: the handle, the footer
    and, last, the [ParquetFile] itself *)
Definition objects_of {F} (self : ParquetFile F) : list (object F) :=
  [match handle self with
   | Memmap memmap => NdArray memmap
   | File file => FileObj file
   end;
   FooterObj (footer self);
   match handle self with
   | Memmap _ => ParquetFileObj (Some 0%nat) None 1%nat (fields self)
   | File _ => ParquetFileObj None (Some 0%nat) 1%nat (fields self)
   end].

(** ** Notions used in the statements *)

(** [numValues] of a page that was yielded *)
Definition page_num_values (pg : page) : Z :=
  from_option DataPageHeader.num_values 0
    (PageHeader.data_page_header (pg_header pg)).

Definition total_values (pages : list page) : Z :=
  foldr (λ pg acc, page_num_values pg + acc) 0 pages.

(** lines 220 and 237 for one page: the value array it decodes to *)
Definition page_values (decompress : list byte → result (list byte))
    (meta_data : ColumnMetaData.t) (pg : page) : result ndarray :=
  uncompressed ← decompress (pg_compressed pg);
  _plain (py_slice_from uncompressed 0) meta_data.

(** the slot that holds what [numpy.concatenate] makes of the arrays *)
Definition joined (arrays : list ndarray) : option ndarray :=
  match arrays with
  | [] => None
  | a :: _ => Some (mk_ndarray (nd_dtype a) (mjoin (nd_items <$> arrays)))
  end.

(** *** The schema walk *)

(** the bookkeeping of an element, computed from the bounds of its parent *)
Definition levels_from (e : SchemaElement.t) (path : list string)
    (maxdef maxrep : Z) : Prop :=
  SchemaElement.path e = Some (path ++ [SchemaElement.name e])
  ∧ SchemaElement.required e = Some (is_required e)
  ∧ SchemaElement.maxdef e = Some (node_maxdef e maxdef)
  ∧ SchemaElement.maxrep e = Some (node_maxrep e maxrep).

Definition node_ok (s : store) (i : nat) (path : list string)
    (maxdef maxrep : Z) : Prop :=
  ∃ e, s !! i = Some e ∧ levels_from e path maxdef maxrep.

(** every child of [p] lies in [(p, hi]] and was computed from [p] *)
Definition parent_ok (s : store) (hi p : nat) : Prop :=
  ∃ e cs pp d r,
    s !! p = Some e
    ∧ SchemaElement.children e = Some cs
    ∧ SchemaElement.path e = Some pp
    ∧ SchemaElement.maxdef e = Some d
    ∧ SchemaElement.maxrep e = Some r
    ∧ ∀ c, c ∈ cs → (p < c ≤ hi)%nat ∧ node_ok s c pp d r.

Definition is_child (s : store) (p k : nat) : Prop :=
  ∃ e cs, s !! p = Some e ∧ SchemaElement.children e = Some cs ∧ k ∈ cs.

(** the walk leaves what was parsed alone *)
Definition same_parsed (s s' : store) : Prop :=
  ∀ k e, s !! k = Some e →
    ∃ e', s' !! k = Some e'
          ∧ SchemaElement.name e' = SchemaElement.name e
          ∧ SchemaElement.repetition_type e'
            = SchemaElement.repetition_type e.

Record recurse_post (s : store) (i : nat) (path : list string) (d r : Z)
    (s' : store) (j : nat) : Prop := {
  rp_length : length s' = length s;
  rp_range : (i ≤ j < length s)%nat;
  rp_frame : ∀ k, (k < i ∨ j < k)%nat → s' !! k = s !! k;
  rp_parsed : same_parsed s s';
  rp_node : node_ok s' i path d r;
  rp_parents : ∀ p, (i ≤ p ≤ j)%nat → parent_ok s' j p;
  rp_covered : ∀ k, (i < k ≤ j)%nat →
                 ∃ p, (i ≤ p < k)%nat ∧ is_child s' p k
}.

(** the invariant of the loop over the children of [own] *)
Record loop_inv (s0 : store) (own : nat) (path : list string) (d r : Z)
    (path' : list string) (d' r' : Z) (s : store) (idx : nat) : Prop := {
  li_length : length s = length s0;
  li_range : (own ≤ idx < length s0)%nat;
  li_frame : ∀ k, (k < own ∨ idx < k)%nat → s !! k = s0 !! k;
  li_parsed : same_parsed s0 s;
  li_node : node_ok s own path d r;
  li_own : ∃ e cs, s !! own = Some e
             ∧ SchemaElement.children e = Some cs
             ∧ SchemaElement.path e = Some path'
             ∧ SchemaElement.maxdef e = Some d'
             ∧ SchemaElement.maxrep e = Some r'
             ∧ ∀ c, c ∈ cs →
                    (own < c ≤ idx)%nat ∧ node_ok s c path' d' r';
  li_parents : ∀ p, (own < p ≤ idx)%nat → parent_ok s idx p;
  li_covered : ∀ k, (own < k ≤ idx)%nat →
                 ∃ p, (own ≤ p < k)%nat ∧ is_child s p k
}.

(** The nodes the traversal visits, each with the path and the bounds
    handed down by its parent.  [recurse] is called on an element exactly
    when the element has just been appended to [self.fields], with
    [([], 0, 0)], or to the [children] of the element being walked, with
    that element's own [path], [maxdef] and [maxrep]. *)
Inductive visited (s : store) (fields : list nat)
  : nat → list string → Z → Z → Prop :=
  | visited_field f :
      f ∈ fields → visited s fields f [] 0 0
  | visited_child p pp dp rp e cs path d r c :
      visited s fields p pp dp rp →
      s !! p = Some e →
      SchemaElement.children e = Some cs →
      SchemaElement.path e = Some path →
      SchemaElement.maxdef e = Some d →
      SchemaElement.maxrep e = Some r →
      c ∈ cs →
      visited s fields c path d r.

Record fields_inv (s0 s : store) (index : nat) (fields : list nat) : Prop := {
  fi_length : length s = length s0;
  fi_parsed : same_parsed s0 s;
  fi_fields : ∀ f, f ∈ fields →
                (1 ≤ f ≤ index)%nat ∧ node_ok s f [] 0 0;
  fi_parents : ∀ p, (1 ≤ p ≤ index)%nat → parent_ok s index p;
  fi_covered : ∀ k, (1 ≤ k ≤ index)%nat →
                 k ∈ fields ∨ ∃ p, (1 ≤ p < k)%nat ∧ is_child s p k
}.

(** *** Notions of the further properties *)

(** the element at [p] has its declared number of children, the first of
    them right after it *)
Definition arity_ok (s0 s : store) (p : nat) : Prop :=
  ∃ e0 e cs,
    s0 !! p = Some e0 ∧ s !! p = Some e
    ∧ SchemaElement.num_children e
      = Some (default 0 (SchemaElement.num_children e0))
    ∧ SchemaElement.children e = Some cs
    ∧ length cs = Z.to_nat (default 0 (SchemaElement.num_children e0))
    ∧ (cs = [] ∨ head cs = Some (S p)).

(** the loop over the children of [own], after [m] turns *)
Record arity_inv (s_in : store) (own : nat) (N : Z) (m : nat) (s : store)
    (idx : nat) : Prop := {
  ai_range : (own ≤ idx)%nat;
  ai_frame : ∀ k, (idx < k)%nat → s !! k = s_in !! k;
  ai_own : ∃ e cs, s !! own = Some e
             ∧ SchemaElement.num_children e = Some N
             ∧ SchemaElement.children e = Some cs
             ∧ length cs = m
             ∧ ((cs = [] ∧ idx = own) ∨ head cs = Some (S own));
  ai_below : ∀ p, (own < p ≤ idx)%nat → arity_ok s_in s p
}.

(** the top-level loop: what it has walked, and what it has not touched *)
Record walk_inv (s0 s : store) (index : nat) : Prop := {
  wi_length : length s = length s0;
  wi_range : (index < length s0 ∨ index = 0)%nat;
  wi_root : s !! 0%nat = s0 !! 0%nat;
  wi_frame : ∀ k, (index < k)%nat → s !! k = s0 !! k;
  wi_arity : ∀ p, (1 ≤ p ≤ index)%nat → arity_ok s0 s p
}.

Definition is_leaf (e : SchemaElement.t) : Prop :=
  default 0 (SchemaElement.num_children e) ≤ 0.

(** the values an item of the given type can take *)
Definition item_in_range (d : dtype) (z : Z) : Prop :=
  match d with
  | lt_i4 => - 2 ^ 31 ≤ z < 2 ^ 31
  | lt_i8 => - 2 ^ 63 ≤ z < 2 ^ 63
  | S12 => 0 ≤ z < 2 ^ 96
  | lt_f4 => 0 ≤ z < 2 ^ 32
  | lt_f8 => 0 ≤ z < 2 ^ 64
  end.

(** a chunk the search of [column] passes over *)
Definition passed_over (schema : SchemaElement.t) (column : ColumnChunk.t)
  : Prop :=
  ∃ meta path,
    ColumnChunk.meta_data column = Some meta
    ∧ SchemaElement.path schema = Some path
    ∧ ColumnMetaData.path_in_schema meta ≠ path.

(** a page whose values are PLAIN *)
Definition plain_page (pg : page) : Prop :=
  ∃ dph, PageHeader.data_page_header (pg_header pg) = Some dph
         ∧ DataPageHeader.encoding dph = PLAIN.

(** the tuple [column] returns when no array was collected *)
Definition empty_out (deflevels replevels data : bool)
  : list (option ndarray) :=
  (if deflevels then [None] else []) ++ (if replevels then [None] else [])
  ++ (if data then [None] else []).

(** a reader whose first step is a call of [_read] *)
Definition starts_with_read {A} (d : Decoder A) : Prop :=
  match d with
  | Read _ _ => True
  | _ => False
  end.

(** ** A concrete environment

    To run the reader on actual files, the collaborators are instantiated:
    the Thrift side by a reader of the compact protocol for the structures of
    parquet.thrift, the file object by a buffer with a position, in the
    manner of [io.BytesIO]. *)

Module Compact.

Fixpoint bind {A B} (d : Decoder A) (f : A → Decoder B) : Decoder B :=
  match d with
  | Done a => f a
  | Fail e => Fail e
  | Read bytes k => Read bytes (λ out, bind (k out) f)
  end.

#[global] Instance decoder_bind : MBind Decoder := λ A B f d, bind d f.
#[global] Instance decoder_fmap : FMap Decoder :=
  λ A B f d, bind d (λ a, Done (f a)).

Definition truncated {A} : Decoder A := Fail (ExternalError "end of file").
Definition malformed {A} : Decoder A := Fail (ExternalError "protocol error").

(** [trans.read(sz)], which is thriftpy's [readall(self._read, sz)]: as
    long as bytes are missing it calls [_read] for what is missing, and it
    gives up with TTransportException when a call returns nothing.  Every
    call that does not end the loop adds a byte at least, so [sz] turns
    are enough. *)
Fixpoint readall (fuel : nat) (sz : Z) (buff : list byte)
  : Decoder (list byte) :=
  if Z.of_nat (length buff) <? sz
  then
    match fuel with
    | O => malformed
    | S fuel' =>
        Read (sz - Z.of_nat (length buff))
          (λ chunk, if (length chunk =? 0)%nat then truncated
                    else readall fuel' sz (buff ++ chunk))
    end
  else Done buff.

Definition read_exactly (n : Z) : Decoder (list byte) :=
  readall (Z.to_nat n) n [].

Definition read_ubyte : Decoder Z :=
  out ← read_exactly 1;
  match out with
  | [b] => Done (byte_val b)
  | _ => truncated
  end.

Fixpoint read_varint (fuel : nat) : Decoder Z :=
  match fuel with
  | O => malformed
  | S fuel' =>
      b ← read_ubyte;
      if b <? 128 then Done b
      else rest ← read_varint fuel'; Done (b - 128 + 128 * rest)
  end.

Definition from_zig_zag (n : Z) : Z :=
  if Z.even n then n / 2 else - ((n + 1) / 2).

Definition read_int : Decoder Z := from_zig_zag <$> read_varint 10.

(** what a struct of unknown type reads as *)
#[warnings="-register-all"]
Inductive TValue : Type :=
  | VBool (b : bool)
  | VInt (z : Z)
  | VBinary (bs : list byte)
  | VList (items : list TValue)
  | VStruct (fields : list (Z * TValue)).

(** the wire types of the compact protocol: 1 and 2 the booleans, 3 to 6
    the integers, 7 double, 8 binary, 9 and 10 list and set, 12 struct *)
Fixpoint read_value (fuel : nat) (ttype : Z) : Decoder TValue :=
  match fuel with
  | O => malformed
  | S fuel' =>
      if ttype =? 1 then Done (VBool true)
      else if ttype =? 2 then Done (VBool false)
      else if ttype =? 3 then VInt <$> read_ubyte
      else if (4 <=? ttype) && (ttype <=? 6) then VInt <$> read_int
      else if ttype =? 7 then VBinary <$> read_exactly 8
      else if ttype =? 8 then
        size ← read_varint 10; VBinary <$> read_exactly size
      else if (ttype =? 9) || (ttype =? 10) then
        h ← read_ubyte;
        size ← (if h / 16 =? 15 then read_varint 10 else Done (h / 16));
        VList <$> read_items fuel' (h mod 16) (Z.to_nat size)
      else if ttype =? 12 then VStruct <$> read_fields fuel' 0
      else malformed
  end
with read_items (fuel : nat) (etype : Z) (n : nat) : Decoder (list TValue) :=
  match fuel with
  | O => malformed
  | S fuel' =>
      match n with
      | O => Done []
      | S n' =>
          v ← read_value fuel' etype;
          vs ← read_items fuel' etype n';
          Done (v :: vs)
      end
  end
with read_fields (fuel : nat) (last_fid : Z) : Decoder (list (Z * TValue)) :=
  match fuel with
  | O => malformed
  | S fuel' =>
      h ← read_ubyte;
      if h mod 16 =? 0 then Done []
      else
        fid ← (if h / 16 =? 0 then read_int else Done (last_fid + h / 16));
        v ← read_value fuel' (h mod 16);
        rest ← read_fields fuel' fid;
        Done ((fid, v) :: rest)
  end.

Definition read_struct : Decoder (list (Z * TValue)) := read_fields 200 0.

Fixpoint field (fid : Z) (fields : list (Z * TValue)) : option TValue :=
  match fields with
  | [] => None
  | (fid', v) :: rest => if fid =? fid' then Some v else field fid rest
  end.

Definition int (v : TValue) : option Z :=
  match v with VInt z => Some z | _ => None end.
Definition text (v : TValue) : option string :=
  match v with VBinary bs => Some (string_of_list_byte bs) | _ => None end.
Definition struct (v : TValue) : option (list (Z * TValue)) :=
  match v with VStruct fs => Some fs | _ => None end.
Definition items {A} (f : TValue → option A) (v : TValue) : option (list A) :=
  match v with VList vs => mapM f vs | _ => None end.

(** an optional field: absent, or present and well formed *)
Definition optional {A} (f : TValue → option A) (v : option TValue)
  : option (option A) :=
  match v with
  | None => Some None
  | Some v => Some <$> f v
  end.

(** The tags of the enumerations, and above the numbers of the fields, are
    those of the Parquet format definition.  The file parquet.thrift that
    the module loads is not among the sources; nothing outside the sample
    files depends on these numbers. *)
Definition repetition_of (tag : Z) : option FieldRepetitionType :=
  if tag =? 0 then Some REQUIRED
  else if tag =? 1 then Some OPTIONAL
  else if tag =? 2 then Some REPEATED
  else None.

Definition type_of (tag : Z) : Type_ :=
  if tag =? 0 then BOOLEAN else if tag =? 1 then INT32
  else if tag =? 2 then INT64 else if tag =? 3 then INT96
  else if tag =? 4 then FLOAT else if tag =? 5 then DOUBLE
  else if tag =? 6 then BYTE_ARRAY else if tag =? 7 then FIXED_LEN_BYTE_ARRAY
  else OtherType tag.

Definition codec_of (tag : Z) : CompressionCodec :=
  if tag =? 0 then UNCOMPRESSED else if tag =? 1 then SNAPPY
  else if tag =? 2 then GZIP else if tag =? 3 then LZO
  else if tag =? 4 then BROTLI else if tag =? 5 then LZ4
  else if tag =? 6 then ZSTD
  else OtherCodec tag.

Definition encoding_of (tag : Z) : Encoding :=
  if tag =? 0 then PLAIN else if tag =? 2 then PLAIN_DICTIONARY
  else OtherEncoding tag.

Definition to_SchemaElement (v : TValue) : option SchemaElement.t :=
  fs ← struct v;
  repetition ← optional int (field 3 fs);
  name ← field 4 fs ≫= text;
  num_children ← optional int (field 5 fs);
  Some (SchemaElement.mk name (repetition ≫= repetition_of) num_children
          None None None None None).

Definition to_ColumnMetaData (v : TValue) : option ColumnMetaData.t :=
  fs ← struct v;
  type ← field 1 fs ≫= int;
  path_in_schema ← field 3 fs ≫= items text;
  codec ← field 4 fs ≫= int;
  num_values ← field 5 fs ≫= int;
  Some (ColumnMetaData.mk (type_of type) path_in_schema (codec_of codec)
          num_values).

Definition to_ColumnChunk (v : TValue) : option ColumnChunk.t :=
  fs ← struct v;
  file_offset ← field 2 fs ≫= int;
  meta_data ← optional to_ColumnMetaData (field 3 fs);
  Some (ColumnChunk.mk file_offset meta_data).

Definition to_RowGroup (v : TValue) : option RowGroup.t :=
  fs ← struct v;
  columns ← field 1 fs ≫= items to_ColumnChunk;
  Some (RowGroup.mk columns).

Definition to_FileMetaData (fs : list (Z * TValue)) : option FileMetaData.t :=
  schema ← field 2 fs ≫= items to_SchemaElement;
  row_groups ← field 4 fs ≫= items to_RowGroup;
  Some (FileMetaData.mk schema row_groups).

Definition to_DataPageHeader (v : TValue) : option DataPageHeader.t :=
  fs ← struct v;
  num_values ← field 1 fs ≫= int;
  encoding ← field 2 fs ≫= int;
  Some (DataPageHeader.mk num_values (encoding_of encoding)).

Definition to_PageHeader (fs : list (Z * TValue)) : option PageHeader.t :=
  uncompressed_page_size ← optional int (field 2 fs);
  compressed_page_size ← optional int (field 3 fs);
  data_page_header ← optional to_DataPageHeader (field 5 fs);
  Some (PageHeader.mk uncompressed_page_size compressed_page_size
          data_page_header).

Definition read_as {A} (f : list (Z * TValue) → option A) : Decoder A :=
  fs ← read_struct;
  match f fs with
  | Some a => Done a
  | None => malformed
  end.

End Compact.

Module BytesIO.

Record t : Type := mk { buffer : list byte; pos : Z }.

Definition read (f : t) (size : option Z) : result (list byte) * t :=
  let len := Z.of_nat (length (buffer f)) in
  let stop := match size with
              | None => len
              | Some n => if n <? 0 then len else Z.min len (pos f + n)
              end in
  let out := take (Z.to_nat (stop - pos f))
               (drop (Z.to_nat (pos f)) (buffer f)) in
  (Ok out, mk (buffer f) (pos f + Z.of_nat (length out))).

Definition seek (f : t) (offset : Z) (w : whence) : result unit * t :=
  match w with
  | SEEK_SET =>
      if offset <? 0 then (Raise ValueError, f)
      else (Ok (), mk (buffer f) offset)
  | SEEK_END =>
      (Ok (), mk (buffer f) (Z.max 0 (Z.of_nat (length (buffer f)) + offset)))
  end.

End BytesIO.

Definition sample_env : Environment := {|
  FileObject := BytesIO.t;
  file_read := BytesIO.read;
  file_seek := BytesIO.seek;
  thriftpy_imported := true;
  snappy := None;
  FileMetaData_read := Compact.read_as Compact.to_FileMetaData;
  PageHeader_read := Compact.read_as Compact.to_PageHeader
|}.

(** *** Sample files

    A file is laid out as the magic, the pages, the footer, the length of
    the footer and the magic again. *)
Definition parquet_file (pages footer : list byte) : list byte :=
  PAR1 ++ pages ++ footer ++ le_bytes 4 (Z.of_nat (length footer)) ++ PAR1.

(** The header of a data page: type DATA_PAGE, the two sizes, and a
    DataPageHeader with the count, PLAIN values and RLE levels. *)
Definition page_header_bytes (uncompressed_size compressed_size count : byte)
  : list byte :=
  [x15; x00; x15; uncompressed_size; x15; compressed_size;
   x2c; x15; count; x15; x00; x15; x06; x15; x06; x00; x00].

(** The footer of a file with the schema [schema { <repetition> int32 x }]
    and one row group with one chunk for [x], at offset 4. *)
Definition footer_bytes
    (repetition codec count uncompressed_size compressed_size : byte)
  : list byte :=
  [x15; x02; x19; x2c; x48; x06; x73; x63; x68; x65; x6d; x61; x15; x02;
   x00; x15; x02; x25; repetition; x18; x01; x78; x00; x16; x06; x19; x1c;
   x19; x1c; x26; x08; x1c; x15; x02; x19; x15; x00; x19; x18; x01; x78;
   x15; codec; x16; count; x16; uncompressed_size; x16; compressed_size;
   x26; x08; x00; x00; x16; compressed_size; x16; x06; x00; x00].

Definition values_1_2_3 : list byte :=
  [x01; x00; x00; x00; x02; x00; x00; x00; x03; x00; x00; x00].

(** one REQUIRED INT32 column, three values, one page, uncompressed, plain *)
Definition file_required : list byte :=
  parquet_file (page_header_bytes x18 x18 x06 ++ values_1_2_3)
    (footer_bytes x00 x00 x06 x3a x3a).


Definition levels_all_defined : list byte := [x02; x00; x00; x00; x06; x01].

(** the same file with the column OPTIONAL: the page starts with the
    definition levels (RLE, one run of three 1s) *)
Definition file_optional : list byte :=
  parquet_file
    (page_header_bytes x24 x24 x06 ++ levels_all_defined ++ values_1_2_3)
    (footer_bytes x02 x00 x06 x46 x46).

Definition values_1_to_5 : list byte :=
  [x01; x00; x00; x00; x02; x00; x00; x00; x03; x00; x00; x00; x04; x00;
   x00; x00; x05; x00; x00; x00].

(** the chunk announces three values, its only page holds five *)
Definition file_count_3 : list byte :=
  parquet_file (page_header_bytes x28 x28 x0a ++ values_1_to_5)
    (footer_bytes x00 x00 x06 x4a x4a).

(** a gzip member holding [values_1_2_3] in one stored block *)
Definition gzip_of_values_1_2_3 : list byte :=
  [x1f; x8b; x08; x00; x00; x00; x00; x00; x00; xff; x01; x0c; x00; xf3;
   xff; x01; x00; x00; x00; x02; x00; x00; x00; x03; x00; x00; x00; x93;
   x22; xe0; xb0; x0c; x00; x00; x00].

Definition file_gzip : list byte :=
  parquet_file (page_header_bytes x18 x46 x06 ++ gzip_of_values_1_2_3)
    (footer_bytes x00 x04 x06 x3a x68).

Definition file_lzo : list byte :=
  parquet_file (page_header_bytes x18 x18 x06 ++ values_1_2_3)
    (footer_bytes x00 x06 x06 x3a x3a).

(** the schema [schema { required int32 x; required int32 y }] with a row
    group that holds a chunk for [x] only *)
Definition footer_two_fields : list byte :=
  [x15; x02; x19; x3c; x48; x06; x73; x63; x68; x65; x6d; x61; x15; x04;
   x00; x15; x02; x25; x00; x18; x01; x78; x00; x15; x02; x25; x00; x18;
   x01; x79; x00; x16; x06; x19; x1c; x19; x1c; x26; x08; x1c; x15; x02;
   x19; x15; x00; x19; x18; x01; x78; x15; x00; x16; x06; x16; x3a; x16;
   x3a; x26; x08; x00; x00; x16; x3a; x16; x06; x00; x00].

Definition file_two_fields : list byte :=
  parquet_file (page_header_bytes x18 x18 x06 ++ values_1_2_3)
    footer_two_fields.

Definition values_1_2 : list byte := [x01; x00; x00; x00; x02; x00; x00; x00].
Definition values_3 : list byte := [x03; x00; x00; x00].

(** three values in two pages, and the same two pages the other way round *)
Definition file_two_pages : list byte :=
  parquet_file
    (page_header_bytes x10 x10 x04 ++ values_1_2
     ++ page_header_bytes x08 x08 x02 ++ values_3)
    (footer_bytes x00 x00 x06 x5c x5c).

Definition file_two_pages_swapped : list byte :=
  parquet_file
    (page_header_bytes x08 x08 x02 ++ values_3
     ++ page_header_bytes x10 x10 x04 ++ values_1_2)
    (footer_bytes x00 x00 x06 x5c x5c).

(** what the constructor makes of these files *)
Definition schema_root (num_children : Z) : SchemaElement.t :=
  SchemaElement.mk "schema" None (Some num_children) None None None None None.

Definition x_required : SchemaElement.t :=
  SchemaElement.mk "x" (Some REQUIRED) (Some 0) (Some []) (Some ["x"%string])
    (Some true) (Some 0) (Some 1).

Definition y_required : SchemaElement.t :=
  SchemaElement.mk "y" (Some REQUIRED) (Some 0) (Some []) (Some ["y"%string])
    (Some true) (Some 0) (Some 1).

Definition x_optional : SchemaElement.t :=
  SchemaElement.mk "x" (Some OPTIONAL) (Some 0) (Some []) (Some ["x"%string])
    (Some false) (Some 1) (Some 0).

Definition meta_x (codec : CompressionCodec) : ColumnMetaData.t :=
  ColumnMetaData.mk INT32 ["x"%string] codec 3.

Definition chunk_x (codec : CompressionCodec) : ColumnChunk.t :=
  ColumnChunk.mk 4 (Some (meta_x codec)).

Definition opened (file : list byte) (x : SchemaElement.t)
    (codec : CompressionCodec) : ParquetFile BytesIO.t :=
  mk_ParquetFile (Memmap file)
    (FileMetaData.mk [schema_root 1; x] [RowGroup.mk [chunk_x codec]])
    [1%nat].

Definition opened_two_fields : ParquetFile BytesIO.t :=
  mk_ParquetFile (Memmap file_two_fields)
    (FileMetaData.mk [schema_root 2; x_required; y_required]
       [RowGroup.mk [chunk_x UNCOMPRESSED]])
    [1%nat; 2%nat].

Definition data_page (size count : Z) (compressed : list byte) : page :=
  mk_page
    (PageHeader.mk (Some size) (Some size)
       (Some (DataPageHeader.mk count PLAIN)))
    compressed 0 count.

(** the pages of [file_two_pages] *)
Definition two_pages : list page :=
  [data_page 8 2 values_1_2;
   mk_page
     (PageHeader.mk (Some 4) (Some 4) (Some (DataPageHeader.mk 1 PLAIN)))
     values_3 2 3].

(** a nested schema, as parsed and as the walk leaves it:
    [schema { required group a { optional b; repeated c }; optional d }] *)
Definition parsed_element (name : string) (repetition : FieldRepetitionType)
    (num_children : option Z) : SchemaElement.t :=
  SchemaElement.mk name (Some repetition) num_children None None None None None.

Definition nested_schema : list SchemaElement.t :=
  [schema_root 2;
   parsed_element "a" REQUIRED (Some 2);
   parsed_element "b" OPTIONAL None;
   parsed_element "c" REPEATED None;
   parsed_element "d" OPTIONAL None].

Definition nested_walked : list SchemaElement.t :=
  [schema_root 2;
   SchemaElement.mk "a" (Some REQUIRED) (Some 2) (Some [2; 3]%nat)
     (Some ["a"%string]) (Some true) (Some 0) (Some 1);
   SchemaElement.mk "b" (Some OPTIONAL) (Some 0) (Some [])
     (Some ["a"; "b"]%string) (Some false) (Some 1) (Some 1);
   SchemaElement.mk "c" (Some REPEATED) (Some 0) (Some [])
     (Some ["a"; "c"]%string) (Some false) (Some 1) (Some 1);
   SchemaElement.mk "d" (Some OPTIONAL) (Some 0) (Some [])
     (Some ["d"%string]) (Some false) (Some 1) (Some 0)].

(** *** Further samples *)

(** a schema without groups *)
Definition flat_schema : list SchemaElement.t :=
  [schema_root 2;
   parsed_element "x" REQUIRED None;
   parsed_element "y" OPTIONAL (Some 0)].

(** the file of an OPTIONAL column whose chunk holds no value and no page *)
Definition file_empty_chunk : list byte :=
  parquet_file [] (footer_bytes x02 x00 x00 x00 x00).

Definition chunk_x_empty : ColumnChunk.t :=
  ColumnChunk.mk 4 (Some (ColumnMetaData.mk INT32 ["x"%string] UNCOMPRESSED 0)).

Definition opened_empty_chunk : ParquetFile BytesIO.t :=
  mk_ParquetFile (Memmap file_empty_chunk)
    (FileMetaData.mk [schema_root 1; x_optional] [RowGroup.mk [chunk_x_empty]])
    [1%nat].

(** [file_required] with the codec of the chunk set to SNAPPY *)
Definition file_snappy : list byte :=
  parquet_file (page_header_bytes x18 x18 x06 ++ values_1_2_3)
    (footer_bytes x00 x02 x06 x3a x3a).

(** the header of a data page whose values are dictionary indices *)
Definition page_header_dictionary : list byte :=
  [x15; x00; x15; x18; x15; x18; x2c; x15; x06; x15; x04; x15; x06; x15;
   x06; x00; x00].

Definition file_dictionary : list byte :=
  parquet_file (page_header_dictionary ++ values_1_2_3)
    (footer_bytes x00 x00 x06 x3a x3a).

Definition dictionary_page : page :=
  mk_page
    (PageHeader.mk (Some 12) (Some 12)
       (Some (DataPageHeader.mk 3 PLAIN_DICTIONARY)))
    values_1_2_3 0 3.

(** the schema [schema { required group a { required int32 b } }] with one
    chunk for [a.b] *)
Definition footer_nested : list byte :=
  [x15; x02; x19; x3c; x48; x06; x73; x63; x68; x65; x6d; x61; x15; x02;
   x00; x35; x00; x18; x01; x61; x15; x02; x00; x15; x02; x25; x00; x18;
   x01; x62; x00; x16; x06; x19; x1c; x19; x1c; x26; x08; x1c; x15; x02;
   x19; x15; x00; x19; x28; x01; x61; x01; x62; x15; x00; x16; x06; x16;
   x3a; x16; x3a; x26; x08; x00; x00; x16; x3a; x16; x06; x00; x00].

Definition file_nested : list byte :=
  parquet_file (page_header_bytes x18 x18 x06 ++ values_1_2_3) footer_nested.

Definition a_group : SchemaElement.t :=
  SchemaElement.mk "a" (Some REQUIRED) (Some 1) (Some [2%nat])
    (Some ["a"%string]) (Some true) (Some 0) (Some 1).

Definition b_nested : SchemaElement.t :=
  SchemaElement.mk "b" (Some REQUIRED) (Some 0) (Some [])
    (Some ["a"; "b"]%string) (Some true) (Some 0) (Some 2).

Definition chunk_a_b : ColumnChunk.t :=
  ColumnChunk.mk 4
    (Some (ColumnMetaData.mk INT32 ["a"; "b"]%string UNCOMPRESSED 3)).

Definition opened_nested : ParquetFile BytesIO.t :=
  mk_ParquetFile (Memmap file_nested)
    (FileMetaData.mk [schema_root 1; a_group; b_nested]
       [RowGroup.mk [chunk_a_b]])
    [1%nat].

(** a chunk for a column [y] *)
Definition chunk_y : ColumnChunk.t :=
  ColumnChunk.mk 37
    (Some (ColumnMetaData.mk INT32 ["y"%string] UNCOMPRESSED 3)).

(** a file whose only page holds no value and whose compressed size, -17,
    takes the reader back to the start of the page header *)
Definition file_zero_progress : list byte :=
  parquet_file (page_header_bytes x00 x21 x00)
    (footer_bytes x00 x00 x06 x22 x22).

(** the magic at both ends and a footer length of 100 in between *)
Definition file_footer_too_long : list byte :=
  PAR1 ++ le_bytes 4 100 ++ PAR1.

(** the header of a data page without the compressed size *)
Definition page_header_no_size : list byte :=
  [x15; x00; x15; x18; x3c; x15; x06; x15; x00; x15; x06; x15; x06; x00;
   x00].

Definition file_no_size : list byte :=
  parquet_file (page_header_no_size ++ values_1_2_3)
    (footer_bytes x00 x00 x06 x36 x36).

(** * Properties *)

(** ** Items and their bytes *)

Lemma byte_val_range b : 0 ≤ byte_val b < 256.
Proof.
  unfold byte_val. pose proof (Byte.to_N_bounded b). lia.
Qed.

Lemma byte_of_val b : byte_of (byte_val b) = b.
Proof.
  unfold byte_of. rewrite Z.mod_small by apply byte_val_range.
  unfold byte_val. rewrite N2Z.id, Byte.of_to_N. done.
Qed.

Lemma byte_of_add z k : byte_of (z + 256 * k) = byte_of z.
Proof.
  unfold byte_of. replace (z + 256 * k) with (z + k * 256) by lia.
  by rewrite Z.mod_add.
Qed.

Lemma le_bytes_unsigned bs : le_bytes (length bs) (le_unsigned bs) = bs.
Proof.
  induction bs as [|b bs IH]; simpl; [done|].
  pose proof (byte_val_range b).
  rewrite byte_of_add, byte_of_val. f_equal.
  replace (byte_val b + 256 * le_unsigned bs)
    with (le_unsigned bs * 256 + byte_val b) by lia.
  rewrite Z.div_add_l by lia. rewrite Z.div_small by lia.
  by rewrite Z.add_0_r.
Qed.

Lemma le_bytes_shift n z k :
  le_bytes n (z + k * 256 ^ Z.of_nat n) = le_bytes n z.
Proof.
  revert z k. induction n as [|n IH]; intros z k; [done|].
  cbn [le_bytes]. rewrite Nat2Z.inj_succ, Z.pow_succ_r by lia.
  replace (z + k * (256 * 256 ^ Z.of_nat n))
    with (z + 256 * (k * 256 ^ Z.of_nat n)) by lia.
  rewrite byte_of_add. f_equal.
  replace (z + 256 * (k * 256 ^ Z.of_nat n))
    with (z + (k * 256 ^ Z.of_nat n) * 256) by lia.
  rewrite Z.div_add by lia. apply IH.
Qed.

Lemma le_bytes_to_signed n u : le_bytes n (to_signed n u) = le_bytes n u.
Proof.
  unfold to_signed. case_match; [done|].
  replace (2 ^ (8 * Z.of_nat n)) with (256 ^ Z.of_nat n).
  - replace (u - 256 ^ Z.of_nat n) with (u + (-1) * 256 ^ Z.of_nat n) by lia.
    apply le_bytes_shift.
  - change 256 with (2 ^ 8). rewrite <- Z.pow_mul_r by lia. done.
Qed.

Lemma encode_decode_item d bs :
  length bs = itemsize d → encode_item d (decode_item d bs) = bs.
Proof.
  intros Hlen. unfold encode_item, decode_item.
  destruct d; rewrite ?le_bytes_to_signed, <- Hlen; apply le_bytes_unsigned.
Qed.

Lemma reshape_replicate_lengths {A} (w k : nat) (l : list A) :
  length l = (k * w)%nat →
  Forall (λ c, length c = w) (reshape (replicate k w) l).
Proof.
  revert l. induction k as [|k IH]; intros l Hl; simpl; [constructor|].
  constructor.
  - rewrite length_take. lia.
  - apply IH. rewrite length_drop. lia.
Qed.

Lemma tobytes_view d (data : list byte) (L : nat) :
  length data = (L * itemsize d)%nat →
  ∃ a, view d data = Ok a ∧ nd_dtype a = d ∧ length (nd_items a) = L
       ∧ tobytes a = data.
Proof.
  intros Hlen. unfold view.
  assert (Hw : (itemsize d ≠ 0)%nat) by (destruct d; simpl; lia).
  rewrite Hlen, Nat.Div0.mod_mul, Nat.div_mul by done. simpl.
  eexists; split; [done|]. split; [done|]. split.
  - simpl. by rewrite length_fmap, length_reshape, length_replicate.
  - unfold tobytes. simpl. rewrite <- list_fmap_compose.
    rewrite <- (join_reshape (replicate L (itemsize d)) data) at 2
      by (rewrite sum_list_replicate; lia).
    f_equal. pose proof (reshape_replicate_lengths (itemsize d) L data Hlen) as Hall.
    induction Hall as [|c cs Hc _ IH]; [done|].
    csimpl. by rewrite encode_decode_item, IH.
Qed.

(** C4.  For INT32, INT64, FLOAT and DOUBLE, of width 4, 8, 4 and 8, [_plain]
    turns a run of [L * width] bytes into an array of exactly [L] items whose
    little-endian bytes are the run itself.  (The items of the two floating
    types are IEEE-754 bit patterns.) *)
Theorem C4_plain_roundtrip (metadata : ColumnMetaData.t) (data : list byte)
    (L w : nat) (t : Type_) :
  (t, w) ∈ [(INT32, 4); (INT64, 8); (FLOAT, 4); (DOUBLE, 8)]%nat →
  ColumnMetaData.type metadata = t →
  length data = (L * w)%nat →
  ∃ a, _plain data metadata = Ok a
       ∧ length (nd_items a) = L
       ∧ itemsize (nd_dtype a) = w
       ∧ tobytes a = data.
Proof.
  intros Hin Ht Hlen. unfold _plain. rewrite Ht.
  repeat (apply elem_of_cons in Hin as [[= -> ->]|Hin]);
    [..|by apply elem_of_nil in Hin].
  - destruct (tobytes_view lt_i4 data L Hlen) as (a & -> & Hd & ? & ?).
    exists a. by rewrite Hd.
  - destruct (tobytes_view lt_i8 data L Hlen) as (a & -> & Hd & ? & ?).
    exists a. by rewrite Hd.
  - destruct (tobytes_view lt_f4 data L Hlen) as (a & -> & Hd & ? & ?).
    exists a. by rewrite Hd.
  - destruct (tobytes_view lt_f8 data L Hlen) as (a & -> & Hd & ? & ?).
    exists a. by rewrite Hd.
Qed.

Example plain_int32_negative :
  _plain [xff; xff; xff; xff; x00; x00; x00; x80] (meta_x UNCOMPRESSED)
  = Ok (mk_ndarray lt_i4 [-1; -2147483648]).
Proof. reflexivity. Qed.

Example plain_int32_ragged :
  _plain [x01; x00; x00] (meta_x UNCOMPRESSED) = Raise ValueError.
Proof. reflexivity. Qed.

(** ** The schema walk *)

Lemma same_parsed_refl s : same_parsed s s.
Proof. intros k e ?; eauto. Qed.

Lemma same_parsed_trans s1 s2 s3 :
  same_parsed s1 s2 → same_parsed s2 s3 → same_parsed s1 s3.
Proof.
  intros H12 H23 k e He.
  destruct (H12 k e He) as (e2 & He2 & ? & ?).
  destruct (H23 k e2 He2) as (e3 & He3 & ? & ?).
  exists e3. split_and!; [done|congruence..].
Qed.

Lemma same_parsed_alter_child s own c :
  same_parsed s (alter (add_child c) own s).
Proof.
  intros k e He. destruct (decide (own = k)) as [->|Hne].
  - rewrite list_lookup_alter_eq, He. by eexists.
  - rewrite list_lookup_alter_ne by done. eauto.
Qed.

Lemma same_parsed_insert_enrich s i e path d r :
  s !! i = Some e → same_parsed s (<[i := enrich e path d r]> s).
Proof.
  intros Hi k e' He'. destruct (decide (i = k)) as [->|Hne].
  - rewrite list_lookup_insert_eq by (by eapply lookup_lt_Some).
    eexists; split; [done|]. by simplify_eq.
  - rewrite list_lookup_insert_ne by done. eauto.
Qed.

Lemma node_ok_lookup s s' i path d r :
  s' !! i = s !! i → node_ok s i path d r → node_ok s' i path d r.
Proof. intros Heq (e & ? & ?). exists e. by rewrite Heq. Qed.

Lemma parent_ok_mono s hi hi' p :
  (hi ≤ hi')%nat → parent_ok s hi p → parent_ok s hi' p.
Proof.
  intros Hle (e & cs & pp & d & r & ? & ? & ? & ? & ? & Hcs).
  exists e, cs, pp, d, r. split_and!; try done.
  intros c Hc. destruct (Hcs c Hc). split; [lia|done].
Qed.

(** a parent and its children untouched: the parent stays fine *)
Lemma parent_ok_frame s s' hi p :
  (∀ k, (p ≤ k ≤ hi)%nat → s' !! k = s !! k) →
  (p ≤ hi)%nat →
  parent_ok s hi p → parent_ok s' hi p.
Proof.
  intros Hfr Hp (e & cs & pp & d & r & He & ? & ? & ? & ? & Hcs).
  exists e, cs, pp, d, r. split_and!; try done.
  - rewrite Hfr by lia. done.
  - intros c Hc. destruct (Hcs c Hc) as [? Hok]. split; [done|].
    eapply node_ok_lookup; [|done]. apply Hfr. lia.
Qed.

Lemma is_child_lookup s s' p k :
  s' !! p = s !! p → is_child s p k → is_child s' p k.
Proof. intros Heq (e & cs & ? & ? & ?). exists e, cs. by rewrite Heq. Qed.

Lemma children_loop_spec
    (rec : store → nat → option (result (store * nat)))
    (path : list string) (d r : Z) (path' : list string) (d' r' : Z)
    (s0 : store) (own : nat) :
  (∀ s i s' j, rec s i = Some (Ok (s', j)) → (i < length s)%nat →
               recurse_post s i path' d' r' s' j) →
  ∀ n s idx s' j,
    children_loop rec own n s idx = Some (Ok (s', j)) →
    loop_inv s0 own path d r path' d' r' s idx →
    loop_inv s0 own path d r path' d' r' s' j.
Proof.
  intros Hrec n. induction n as [|n IH]; intros s idx s' j Hrun Hinv.
  { simpl in Hrun. by simplify_eq. }
  simpl in Hrun.
  destruct (s !! S idx) as [child|] eqn:Hchild; [|done].
  destruct (rec (alter (add_child (S idx)) own s) (S idx))
    as [[[s2 j2]|]|] eqn:Hcall; [|done..].
  apply (IH _ _ _ _ Hrun). clear IH Hrun.
  destruct Hinv as [Hlen Hrng Hfr Hpar Hnode Hown Hparents Hcov].
  pose proof (lookup_lt_Some _ _ _ Hchild) as Hlt.
  set (s1 := alter (add_child (S idx)) own s) in *.
  assert (Hlen1 : length s1 = length s) by apply length_alter.
  apply Hrec in Hcall; [|lia].
  destruct Hcall as [Hlen2 Hrng2 Hfr2 Hpar2 Hnode2 Hparents2 Hcov2].
  assert (Hlow : ∀ k, (k ≤ idx)%nat → k ≠ own → s2 !! k = s !! k).
  { intros k Hk Hne. rewrite Hfr2 by lia. unfold s1.
    by rewrite list_lookup_alter_ne. }
  assert (Hs2own : s2 !! own = add_child (S idx) <$> s !! own).
  { rewrite Hfr2 by lia. unfold s1. by rewrite list_lookup_alter_eq. }
  split.
  - lia.
  - lia.
  - intros k Hk. rewrite Hfr2 by lia. unfold s1.
    rewrite list_lookup_alter_ne by lia. apply Hfr. lia.
  - eapply same_parsed_trans; [exact Hpar|].
    eapply same_parsed_trans; [apply same_parsed_alter_child|exact Hpar2].
  - destruct Hnode as (e & He & Hl0 & Hl1 & Hl2 & Hl3).
    exists (add_child (S idx) e). split; [by rewrite Hs2own, He|].
    done.
  - destruct Hown as (e & cs & He & Hcs & Hp & Hd & Hr & Hall).
    exists (add_child (S idx) e), (cs ++ [S idx]).
    split_and!; [by rewrite Hs2own, He|by simpl; rewrite Hcs|done|done|done|].
    intros c [Hc|Hc%list_elem_of_singleton]%elem_of_app.
    + destruct (Hall c Hc) as [? Hok]. split; [lia|].
      eapply node_ok_lookup; [|exact Hok]. apply Hlow; lia.
    + subst c. split; [lia|done].
  - intros p Hp. destruct (decide (p ≤ idx)%nat) as [Hle|Hgt].
    + eapply parent_ok_mono with (hi := idx); [lia|].
      eapply parent_ok_frame; [| |apply Hparents; lia]; [|lia].
      intros k Hk. apply Hlow; lia.
    + apply Hparents2. lia.
  - intros k Hk. destruct (decide (k ≤ idx)%nat) as [Hle|Hgt].
    + destruct (Hcov k ltac:(lia)) as (p & Hp & Hch). exists p. split; [done|].
      destruct (decide (p = own)) as [->|Hne].
      * destruct Hch as (e & cs & He & Hcs & Hin).
        exists (add_child (S idx) e), (cs ++ [S idx]).
        split_and!; [by rewrite Hs2own, He|by simpl; rewrite Hcs|].
        apply elem_of_app; by left.
      * eapply is_child_lookup; [|exact Hch]. apply Hlow; lia.
    + destruct (decide (k = S idx)) as [->|Hne].
      * exists own. split; [lia|].
        destruct Hown as (e & cs & He & Hcs & _).
        exists (add_child (S idx) e), (cs ++ [S idx]).
        split_and!; [by rewrite Hs2own, He|by simpl; rewrite Hcs|].
        apply elem_of_app; right. by apply list_elem_of_singleton.
      * destruct (Hcov2 k ltac:(lia)) as (p & Hp & Hch).
        exists p. split; [lia|done].
Qed.

Lemma recurse_spec fuel :
  ∀ s i path d r s' j,
    recurse fuel s i path d r = Some (Ok (s', j)) →
    recurse_post s i path d r s' j.
Proof.
  induction fuel as [|fuel IH]; intros s i path d r s' j Hrun; [done|].
  simpl in Hrun.
  destruct (s !! i) as [e|] eqn:He; [|done].
  pose proof (lookup_lt_Some _ _ _ He) as Hlt.
  set (s1 := <[i := enrich e path d r]> s) in *.
  assert (Hs1 : s1 !! i = Some (enrich e path d r))
    by (by apply list_lookup_insert_eq).
  eapply (children_loop_spec _ path d r (path ++ [SchemaElement.name e])
            (node_maxdef e d) (node_maxrep e r) s i) in Hrun.
  - destruct Hrun as [Hlen Hrng Hfr Hpar Hnode Hown Hparents Hcov].
    split; try done.
    intros p Hp. destruct (decide (p = i)) as [->|Hne].
    { destruct Hown as (e' & cs & ? & ? & ? & ? & ? & ?).
      by exists e', cs, (path ++ [SchemaElement.name e]),
                (node_maxdef e d), (node_maxrep e r). }
    apply Hparents. lia.
  - intros s2 i2 s3 j3 Hcall _. by eapply IH.
  - split.
    + apply length_insert.
    + lia.
    + intros k Hk. unfold s1. rewrite list_lookup_insert_ne by lia. done.
    + by apply same_parsed_insert_enrich.
    + exists (enrich e path d r). split; [done|]. by split_and!.
    + exists (enrich e path d r), []. split_and!; try done.
      intros c Hc. by apply elem_of_nil in Hc.
    + intros p Hp. lia.
    + intros k Hk. lia.
Qed.

Lemma fields_loop_spec s0 fuel :
  ∀ s index fields s' fields',
    fields_loop fuel s index fields = Some (Ok (s', fields')) →
    fields_inv s0 s index fields →
    ∃ index', fields_inv s0 s' index' fields'
              ∧ ¬ (index' + 1 < length s')%nat.
Proof.
  induction fuel as [|fuel IH]; intros s index fields s' fields' Hrun Hinv;
    [done|].
  simpl in Hrun. case_match eqn:Hguard.
  2:{ simplify_eq. exists index. split; [done|].
      apply Nat.ltb_ge in Hguard. lia. }
  destruct (s !! S index) as [e|] eqn:He; [|done].
  destruct (recurse (length s) s (S index) [] 0 0) as [[[s2 j2]|]|] eqn:Hcall;
    [|done..].
  apply (IH _ _ _ _ _ Hrun). clear IH Hrun.
  apply recurse_spec in Hcall.
  destruct Hcall as [Hlen2 Hrng2 Hfr2 Hpar2 Hnode2 Hparents2 Hcov2].
  destruct Hinv as [Hlen Hpar Hfields Hparents Hcov].
  assert (Hlow : ∀ k, (k ≤ index)%nat → s2 !! k = s !! k)
    by (intros k Hk; apply Hfr2; lia).
  split.
  - lia.
  - by eapply same_parsed_trans.
  - intros f [Hf|Hf%list_elem_of_singleton]%elem_of_app.
    + destruct (Hfields f Hf) as [? Hok]. split; [lia|].
      eapply node_ok_lookup; [|exact Hok]. apply Hlow; lia.
    + subst f. split; [lia|done].
  - intros p Hp. destruct (decide (p ≤ index)%nat) as [Hle|Hgt].
    + eapply parent_ok_mono with (hi := index); [lia|].
      eapply parent_ok_frame; [| |apply Hparents; lia]; [|lia].
      intros k Hk. apply Hlow; lia.
    + apply Hparents2. lia.
  - intros k Hk. destruct (decide (k ≤ index)%nat) as [Hle|Hgt].
    + destruct (Hcov k ltac:(lia)) as [Hin|(p & Hp & Hch)].
      * left. apply elem_of_app; by left.
      * right. exists p. split; [done|].
        eapply is_child_lookup; [|exact Hch]. apply Hlow; lia.
    + destruct (decide (k = S index)) as [->|Hne].
      * left. apply elem_of_app; right. by apply list_elem_of_singleton.
      * right. destruct (Hcov2 k ltac:(lia)) as (p & Hp & Hch).
        exists p. split; [lia|done].
Qed.

Lemma fields_inv_init s0 : fields_inv s0 s0 0 [].
Proof.
  split; [done|apply same_parsed_refl|..].
  - intros f Hf. by apply elem_of_nil in Hf.
  - intros p Hp. lia.
  - intros k Hk. lia.
Qed.

Lemma visited_sound s0 s index fields i path d r :
  fields_inv s0 s index fields →
  visited s fields i path d r →
  (1 ≤ i ≤ index)%nat ∧ node_ok s i path d r.
Proof.
  intros Hinv Hv.
  induction Hv as [f Hf|p pp dp rp e cs path d r c _ IH He Hcs Hpa Hd Hr Hc].
  - by apply (fi_fields _ _ _ _ Hinv).
  - destruct IH as [Hp _].
    destruct (fi_parents _ _ _ _ Hinv p Hp)
      as (e' & cs' & pp' & d' & r' & He' & Hcs' & Hpa' & Hd' & Hr' & Hall).
    simplify_eq. destruct (Hall c Hc). split; [lia|done].
Qed.

Lemma visited_complete s0 s index fields k :
  fields_inv s0 s index fields →
  (1 ≤ k ≤ index)%nat →
  ∃ path d r, visited s fields k path d r.
Proof.
  intros Hinv. induction (lt_wf k) as [k _ IH]. intros Hk.
  destruct (fi_covered _ _ _ _ Hinv k Hk) as [Hin|(p & Hp & Hch)].
  - exists [], 0, 0. by constructor.
  - destruct (IH p ltac:(lia) ltac:(lia)) as (pp & dp & rp & Hvp).
    destruct Hch as (e & cs & He & Hcs & Hin).
    destruct (fi_parents _ _ _ _ Hinv p ltac:(lia))
      as (e' & cs' & pp' & d' & r' & He' & Hcs' & Hpa' & Hd' & Hr' & _).
    simplify_eq. exists pp', d', r'. by eapply visited_child.
Qed.

(** *** The walk terminates *)

Lemma children_loop_total
    (rec : store → nat → option (result (store * nat))) (own L : nat) :
  (∀ s i, length s = L → (own < i < L)%nat → is_Some (rec s i)) →
  (∀ s i s' j, rec s i = Some (Ok (s', j)) →
               length s' = length s ∧ (i ≤ j)%nat) →
  ∀ n s idx, length s = L → (own ≤ idx)%nat →
             is_Some (children_loop rec own n s idx).
Proof.
  intros Htot Hpost n. induction n as [|n IH]; intros s idx Hlen Hidx; [by eexists|].
  simpl. destruct (s !! S idx) as [e|] eqn:He; [|by eexists].
  pose proof (lookup_lt_Some _ _ _ He) as Hlt.
  destruct (Htot (alter (add_child (S idx)) own s) (S idx)) as [[[s2 j2]|e2] Hcall];
    [by rewrite length_alter|lia|..]; rewrite Hcall; [|by eexists].
  apply Hpost in Hcall. destruct Hcall as [Hlen2 Hj2].
  rewrite length_alter in Hlen2. apply IH; lia.
Qed.

Lemma recurse_total fuel :
  ∀ s i path d r,
    (i < length s)%nat → (length s - i ≤ fuel)%nat →
    is_Some (recurse fuel s i path d r).
Proof.
  induction fuel as [|fuel IH]; intros s i path d r Hi Hfuel; [lia|].
  simpl. destruct (s !! i) as [e|] eqn:He; [|by eexists].
  apply children_loop_total with (L := length s).
  - intros s2 i2 Hlen2 Hi2. apply IH; lia.
  - intros s2 i2 s3 j3 Hcall. apply recurse_spec in Hcall.
    destruct Hcall as [? ? _ _ _ _ _]. split; [done|lia].
  - apply length_insert.
  - done.
Qed.

Lemma fields_loop_total fuel :
  ∀ s index fields,
    (length s - index < fuel)%nat →
    is_Some (fields_loop fuel s index fields).
Proof.
  induction fuel as [|fuel IH]; intros s index fields Hfuel; [lia|].
  simpl. case_match eqn:Hguard; [|by eexists].
  apply Nat.ltb_lt in Hguard.
  destruct (s !! S index) as [e|] eqn:He; [|by eexists].
  destruct (recurse_total (length s) s (S index) [] 0 0) as [[[s2 j2]|e2] Hcall];
    [lia|lia|..]; rewrite Hcall; [|by eexists].
  apply recurse_spec in Hcall. destruct Hcall as [? ? _ _ _ _ _].
  apply IH. lia.
Qed.

(** C2.  The walk over [footer.schema] visits every element but the root, and
    an element visited with the bounds [(maxdef_parent, maxrep_parent)] of
    its parent (a top-level field with [(0, 0)]) ends up with
    [required = (repetition_type == REQUIRED)],
    [maxdef = maxdef_parent + (0 if required else 1)] and
    [maxrep = maxrep_parent + (1 if required else 0)]: the repetition bound
    grows on REQUIRED elements, as the code has it. *)
Theorem C2_flatten_levels (fuel : nat) (sch0 s : store) (fields : list nat) :
  fields_loop fuel sch0 0 [] = Some (Ok (s, fields)) →
  (∀ i, (1 ≤ i < length sch0)%nat →
        ∃ path d r, visited s fields i path d r)
  ∧ ∀ i path maxdef_parent maxrep_parent,
      visited s fields i path maxdef_parent maxrep_parent →
      ∃ e0 e,
        sch0 !! i = Some e0 ∧ s !! i = Some e
        ∧ let required :=
            bool_decide (SchemaElement.repetition_type e0 = Some REQUIRED) in
          SchemaElement.required e = Some required
          ∧ SchemaElement.maxdef e
            = Some (maxdef_parent + (if required then 0 else 1))
          ∧ SchemaElement.maxrep e
            = Some (maxrep_parent + (if required then 1 else 0)).
Proof.
  intros Hwalk.
  eapply fields_loop_spec in Hwalk as (index & Hinv & Hexit);
    [|apply fields_inv_init].
  pose proof (fi_length _ _ _ _ Hinv) as Hlen.
  split.
  - intros i Hi. eapply visited_complete; [done|]. lia.
  - intros i path d r Hv.
    destruct (visited_sound _ _ _ _ _ _ _ _ Hinv Hv)
      as (Hi & e & He & _ & Hreq & Hd & Hr).
    pose proof (lookup_lt_Some _ _ _ He) as Hlt. rewrite Hlen in Hlt.
    destruct (lookup_lt_is_Some_2 sch0 i Hlt) as [e0 He0].
    destruct (fi_parsed _ _ _ _ Hinv i e0 He0) as (e' & He' & _ & Hrt).
    simplify_eq. exists e0, e. split; [done|]. split; [done|].
    cbv zeta. split_and!.
    + rewrite Hreq. unfold is_required. by rewrite Hrt.
    + rewrite Hd. unfold node_maxdef, is_required. by rewrite Hrt.
    + rewrite Hr. unfold node_maxrep, is_required. by rewrite Hrt.
Qed.

(** ** Pages *)

Lemma py_slice_from_0 {A} (l : list A) : py_slice_from l 0 = l.
Proof.
  unfold py_slice_from, py_slice, clip_index.
  destruct (Z.ltb_spec (Z.of_nat (length l)) 0); [lia|].
  change (0 <? 0) with false. cbv iota.
  rewrite Z.min_id, Z.min_l by lia.
  rewrite Z.sub_0_r, Nat2Z.id. simpl. apply firstn_all.
Qed.

Lemma total_values_app pages pages' :
  total_values (pages ++ pages') = total_values pages + total_values pages'.
Proof. induction pages as [|pg pages IH]; simpl; lia. Qed.

Section Column.

Context `{Env : Environment}.

Lemma pagereader_start_memmap m index r h :
  pagereader_start (Memmap m) index = (r, h) → r = Ok () ∧ h = Memmap m.
Proof. simpl. by intros [= <- <-]. Qed.

Lemma pagereader_step_memmap m index start r h :
  pagereader_step (Memmap m) index start = (r, h) → h = Memmap m.
Proof. simpl. by intros [= _ <-]. Qed.

Lemma pagereader_step_page h index start pg index' h' :
  pagereader_step h index start = (Ok (pg, index'), h') →
  pg_start pg = start ∧ pg_stop pg = start + page_num_values pg.
Proof.
  unfold pagereader_step, page_num_values. destruct h as [m|f].
  - intros [= Hr <-]. revert Hr.
    destruct (read_memmap PageHeader_read m index) as [[header i]|]; [|done].
    simpl. destruct (PageHeader.compressed_page_size header); [|done].
    destruct (PageHeader.data_page_header header) eqn:Hd; [|done].
    intros [= <- <-]. simpl. by rewrite Hd.
  - destruct (read_file PageHeader_read f) as [[header|] f1]; [|done].
    destruct (file_read f1 _) as [[compressed|] f2]; [|done].
    destruct (PageHeader.data_page_header header) eqn:Hd; [|done].
    intros [= <- <- <-]. simpl. by rewrite Hd.
Qed.

Lemma page_body_inv decompress schema meta deflevels replevels data pg segs
    segs' :
  page_body decompress schema meta deflevels replevels data pg segs
  = Ok segs' →
  SchemaElement.required schema = Some true
  ∧ (∃ path, SchemaElement.path schema = Some path ∧ (length path ≤ 1)%nat)
  ∧ ∃ a, page_values decompress meta pg = Ok a
         ∧ segs' = mk_segments (deflevelsegs segs) (replevelsegs segs)
                     (if data then datasegs segs ++ [a] else datasegs segs).
Proof.
  unfold page_body, page_values.
  destruct (decompress (pg_compressed pg)) as [u|]; [|done]. simpl.
  destruct (SchemaElement.required schema) as [[]|]; simpl; [| |done].
  2:{ destruct (SchemaElement.maxdef schema); done. }
  destruct (SchemaElement.path schema) as [path|]; simpl; [|done].
  destruct (Nat.ltb_spec 1 (length path)); simpl.
  { destruct (SchemaElement.maxrep schema); done. }
  destruct (PageHeader.data_page_header (pg_header pg)) as [dph|]; simpl; [|done].
  destruct (DataPageHeader.encoding dph); simpl; [|done..].
  destruct (_plain (py_slice_from u 0) meta) as [a|]; simpl; [|done].
  intros [= <-]. split; [done|]. split; [by eauto|].
  exists a. split; [done|].
  destruct deflevels, replevels, data; simpl; by rewrite ?app_nil_r.
Qed.

Lemma page_loop_spec decompress schema meta deflevels replevels data fuel :
  ∀ h index start pages segs pages' segs' h',
    page_loop fuel decompress schema meta deflevels replevels data
      h index start pages segs = Some (Ok (pages', segs'), h') →
    ∃ new arrays,
      pages' = pages ++ new
      ∧ ColumnMetaData.num_values meta ≤ start + total_values new
      ∧ (∀ k, (k < length new)%nat →
              start + total_values (take k new) < ColumnMetaData.num_values meta)
      ∧ Forall2 (λ pg a, page_values decompress meta pg = Ok a) new arrays
      ∧ deflevelsegs segs' = deflevelsegs segs
      ∧ replevelsegs segs' = replevelsegs segs
      ∧ datasegs segs' = datasegs segs ++ (if data then arrays else []).
Proof.
  induction fuel as [|fuel IH]; intros h index start pages segs pages' segs' h' Hrun;
    [done|].
  simpl in Hrun. destruct (Z.ltb_spec start (ColumnMetaData.num_values meta)).
  2:{ simplify_eq. exists [], []. simpl.
      split_and!; rewrite ?app_nil_r; try done; try lia.
      destruct data; by rewrite app_nil_r. }
  destruct (pagereader_step h index start) as [[[pg index1]|] h1] eqn:Hstep; [|done].
  destruct (page_body _ _ _ _ _ _ pg segs) as [segs1|] eqn:Hbody; [|done].
  apply pagereader_step_page in Hstep as [Hstart Hstop].
  apply page_body_inv in Hbody as (_ & _ & a & Ha & ->).
  apply IH in Hrun as (new & arrays & -> & Hsum & Hpre & Hall & Hd & Hr & Hdata).
  exists (pg :: new), (a :: arrays). simpl in *.
  split_and!.
  - by rewrite <- app_assoc.
  - lia.
  - intros [|k] Hk; simpl; [lia|]. specialize (Hpre k ltac:(lia)). lia.
  - by constructor.
  - done.
  - done.
  - rewrite Hdata. destruct data; simpl; by rewrite <- ?app_assoc.
Qed.

Lemma page_loop_fuel decompress schema meta deflevels replevels data fuel :
  ∀ h index start pages segs r fuel',
    page_loop fuel decompress schema meta deflevels replevels data
      h index start pages segs = Some r →
    (fuel ≤ fuel')%nat →
    page_loop fuel' decompress schema meta deflevels replevels data
      h index start pages segs = Some r.
Proof.
  induction fuel as [|fuel IH]; intros h index start pages segs r fuel' Hrun Hle;
    [done|].
  destruct fuel' as [|fuel']; [lia|]. simpl in *.
  case_match; [|done].
  destruct (pagereader_step h index start) as [[[pg index1]|] h1]; [|done].
  destruct (page_body _ _ _ _ _ _ pg segs) as [segs1|]; [|done].
  apply IH; [done|lia].
Qed.

Lemma page_loop_memmap decompress schema meta deflevels replevels data fuel m :
  ∀ index start pages segs r h',
    page_loop fuel decompress schema meta deflevels replevels data
      (Memmap m) index start pages segs = Some (r, h') →
    h' = Memmap m.
Proof.
  induction fuel as [|fuel IH]; intros index start pages segs r h' Hrun; [done|].
  cbn [page_loop] in Hrun. case_match; [|by simplify_eq].
  destruct (pagereader_step (Memmap m) index start) as [[[pg index1]|] h1] eqn:Hstep;
    apply pagereader_step_memmap in Hstep as ->; [|by simplify_eq].
  destruct (page_body _ _ _ _ _ _ pg segs) as [segs1|]; [|by simplify_eq].
  by eapply IH.
Qed.

(** *** What [__init__] establishes *)

Lemma init_inv file pf file' :
  __init__ file = Some (Ok pf, file') →
  handle pf = file'
  ∧ ∃ parsed,
      fields_loop (S (length (FileMetaData.schema parsed)))
        (FileMetaData.schema parsed) 0 []
      = Some (Ok (FileMetaData.schema (footer pf), fields pf))
      ∧ FileMetaData.row_groups (footer pf) = FileMetaData.row_groups parsed.
Proof.
  unfold __init__. destruct thriftpy_imported; cbn [negb]; [|done].
  destruct (match file with
            | Memmap memmap => (init_memmap memmap, file)
            | File f => let '(r, f') := init_file f in (r, File f')
            end) as [[parsed|] file1]; [|done].
  destruct (fields_loop (S _) _ 0%nat []) as [[[s fs]|]|] eqn:Hwalk; [|done..].
  intros [= <- <-]. simpl. split; [done|]. by exists parsed.
Qed.

Lemma init_terminates file : is_Some (__init__ file).
Proof.
  unfold __init__. destruct thriftpy_imported; cbn [negb]; [|by eexists].
  destruct (match file with
            | Memmap memmap => (init_memmap memmap, file)
            | File f => let '(r, f') := init_file f in (r, File f')
            end) as [[parsed|] file1]; [|by eexists].
  destruct (fields_loop_total (S (length (FileMetaData.schema parsed)))
              (FileMetaData.schema parsed) 0 []) as [[[s fs]|e] ->];
    [lia|by eexists..].
Qed.

(** a top-level field of a constructed file *)
Lemma init_field file pf file' i e :
  __init__ file = Some (Ok pf, file') →
  i ∈ fields pf →
  FileMetaData.schema (footer pf) !! i = Some e →
  levels_from e [] 0 0.
Proof.
  intros (_ & parsed & Hwalk & _)%init_inv Hi He.
  eapply fields_loop_spec in Hwalk as (index & Hinv & _);
    [|apply fields_inv_init].
  destruct (fi_fields _ _ _ _ Hinv i Hi) as (_ & e' & He' & Hlv).
  by simplify_eq.
Qed.

(** a file that is accepted carries the magic at both ends *)
Lemma init_memmap_magic memmap pf file' :
  __init__ (Memmap memmap) = Some (Ok pf, file') →
  py_slice memmap 0 4 = PAR1 ∧ py_slice_from memmap (-4) = PAR1.
Proof.
  unfold __init__. destruct thriftpy_imported; cbn [negb]; [|done].
  destruct (init_memmap memmap) as [parsed|] eqn:Hinit; [|done].
  intros _. revert Hinit. unfold init_memmap.
  destruct (view lt_i4 _) as [v|]; simpl; [|done].
  destruct (nd_items v) as [|x [|]]; simpl; [done| |done].
  repeat case_bool_decide; simpl; done.
Qed.

(** *** [column] *)

Lemma column_run_fuel fuel fuel' self rowgroupid schema deflevels replevels data
    parallel r :
  column_run fuel self rowgroupid schema deflevels replevels data parallel
  = Some r →
  (fuel ≤ fuel')%nat →
  column_run fuel' self rowgroupid schema deflevels replevels data parallel
  = Some r.
Proof.
  unfold column_run. intros Hrun Hle.
  destruct parallel; [done|].
  destruct (py_index _ _) as [rowgroup|]; [|done].
  destruct (find_column _ _) as [[chunk|]|]; [|done..].
  destruct (ColumnChunk.meta_data chunk) as [meta|]; [|done].
  destruct (select_decompress _) as [decompress|]; [|done].
  destruct (pagereader_start _ _) as [[|] h1]; [|done].
  destruct (page_loop fuel _ _ _ _ _ _ _ _ _ _ _) as [r1|] eqn:Hloop; [|done].
  by rewrite (page_loop_fuel _ _ _ _ _ _ _ _ _ _ _ _ _ _ Hloop Hle).
Qed.

Lemma column_fuel fuel fuel' self rowgroupid schema deflevels replevels data
    parallel r :
  column fuel self rowgroupid schema deflevels replevels data parallel
  = Some r →
  (fuel ≤ fuel')%nat →
  column fuel' self rowgroupid schema deflevels replevels data parallel
  = Some r.
Proof.
  unfold column. intros Hrun Hle.
  destruct (column_run fuel _ _ _ _ _ _ _) as [r1|] eqn:Hr; [|done].
  by rewrite (column_run_fuel _ _ _ _ _ _ _ _ _ _ Hr Hle).
Qed.

Lemma column_run_memmap fuel self m rowgroupid schema deflevels replevels data
    parallel r h' :
  handle self = Memmap m →
  column_run fuel self rowgroupid schema deflevels replevels data parallel
    = Some (r, h') →
  h' = Memmap m.
Proof.
  unfold column_run. intros ->.
  destruct parallel; [by intros [= _ <-]|].
  destruct (py_index _ _) as [rowgroup|]; [|by intros [= _ <-]].
  destruct (find_column _ _) as [[chunk|]|]; [|by intros [= _ <-]..].
  destruct (ColumnChunk.meta_data chunk) as [meta|]; [|by intros [= _ <-]].
  destruct (select_decompress _) as [decompress|]; [|by intros [= _ <-]].
  simpl.
  destruct (page_loop _ _ _ _ _ _ _ _ _ _ _ _) as [[[[pages segs]|] h1]|] eqn:Hloop;
    [| |done]; apply page_loop_memmap in Hloop as ->.
  - destruct (build_out _ _ _ _); by intros [= _ <-].
  - by intros [= _ <-].
Qed.

Lemma slot_joined arrays : slot arrays = Ok (joined arrays).
Proof. by destruct arrays. Qed.

Lemma build_out_levels_absent deflevels replevels data arrays :
  build_out deflevels replevels data (mk_segments [] [] arrays) =
  Ok ((if deflevels then [None] else []) ++ (if replevels then [None] else [])
      ++ (if data then [joined arrays] else [])).
Proof.
  unfold build_out. simpl. rewrite slot_joined.
  by destruct deflevels, replevels, data.
Qed.

Lemma column_run_inv fuel self rowgroupid schema deflevels replevels data parallel
    pages out h' :
  column_run fuel self rowgroupid schema deflevels replevels data parallel
    = Some (Ok (pages, out), h') →
  parallel = false
  ∧ ∃ rowgroup chunk meta decompress arrays,
      py_index (FileMetaData.row_groups (footer self)) rowgroupid = Ok rowgroup
      ∧ find_column (RowGroup.columns rowgroup) schema = Ok (Some chunk)
      ∧ ColumnChunk.meta_data chunk = Some meta
      ∧ select_decompress (ColumnMetaData.codec meta) = Ok decompress
      ∧ ColumnMetaData.num_values meta ≤ total_values pages
      ∧ (∀ k, (k < length pages)%nat →
              total_values (take k pages) < ColumnMetaData.num_values meta)
      ∧ Forall2 (λ pg a, page_values decompress meta pg = Ok a) pages arrays
      ∧ out = (if deflevels then [None] else [])
              ++ (if replevels then [None] else [])
              ++ (if data then [joined arrays] else []).
Proof.
  unfold column_run.
  destruct parallel; [done|].
  destruct (py_index _ _) as [rowgroup|] eqn:Hrg; [|done].
  destruct (find_column _ _) as [[chunk|]|] eqn:Hfind; [|done..].
  destruct (ColumnChunk.meta_data chunk) as [meta|] eqn:Hmeta; [|done].
  destruct (select_decompress _) as [decompress|] eqn:Hcodec; [|done].
  destruct (pagereader_start _ _) as [[|] h1]; [|done].
  destruct (page_loop _ _ _ _ _ _ _ _ _ _ _ _) as [[[[pages1 segs]|] h2]|] eqn:Hloop;
    [|done..].
  apply page_loop_spec in Hloop
    as (new & arrays & -> & Hsum & Hpre & Hall & Hd & Hr & Hdata).
  simpl in *. destruct segs as [ds rs vs]. simpl in *. subst ds rs vs.
  rewrite build_out_levels_absent. intros [= <- <- <-].
  split; [done|].
  exists rowgroup, chunk, meta, decompress, arrays.
  split_and!; try done. by destruct data.
Qed.

(** C6.  The codec dispatch of [column]: the identity for UNCOMPRESSED,
    NotImplementedError for each of LZO, BROTLI, LZ4 and ZSTD,
    AssertionError for every tag that is not recognised; the two failures
    are different exceptions. *)
Theorem C6_codec_dispatch :
  (∃ decompress, select_decompress UNCOMPRESSED = Ok decompress
                 ∧ ∀ compressed, decompress compressed = Ok compressed)
  ∧ Forall (λ codec, select_decompress codec = Raise NotImplementedError)
      [LZO; BROTLI; LZ4; ZSTD]
  ∧ (∀ tag, select_decompress (OtherCodec tag) = Raise AssertionError)
  ∧ NotImplementedError ≠ AssertionError.
Proof.
  split_and!; [by eexists|by repeat constructor|done|done].
Qed.

(** the failure of the dispatch is the failure of [column] *)
Lemma column_codec_failure fuel self rowgroupid schema deflevels replevels data
    rowgroup chunk meta e :
  py_index (FileMetaData.row_groups (footer self)) rowgroupid = Ok rowgroup →
  find_column (RowGroup.columns rowgroup) schema = Ok (Some chunk) →
  ColumnChunk.meta_data chunk = Some meta →
  select_decompress (ColumnMetaData.codec meta) = Raise e →
  column fuel self rowgroupid schema deflevels replevels data false
  = Some (Raise e, self).
Proof.
  intros Hrg Hfind Hmeta Hcodec. unfold column, column_run.
  rewrite Hrg, Hfind, Hmeta, Hcodec. by destruct self.
Qed.

Lemma gzip_decompress_NameError :
  ∃ decompress, select_decompress GZIP = Ok decompress
                ∧ ∀ compressed, decompress compressed = Raise NameError.
Proof. by eexists. Qed.

Lemma column_not_found_NameError fuel self rowgroupid schema deflevels replevels
    data rowgroup :
  py_index (FileMetaData.row_groups (footer self)) rowgroupid = Ok rowgroup →
  find_column (RowGroup.columns rowgroup) schema = Ok None →
  column fuel self rowgroupid schema deflevels replevels data false
  = Some (Raise NameError, self).
Proof.
  intros Hrg Hfind. unfold column, column_run.
  rewrite Hrg, Hfind. by destruct self.
Qed.

(** *** [column] on the objects *)

Implicit Types σ : list (object FileObject).

Lemma deref_Some σ l o : σ !! l = Some o → deref l σ = (Ok o, σ).
Proof. unfold deref. by intros ->. Qed.








Lemma read_method_spec σ f st size :
  σ !! f = Some (FileObj st) →
  read_method f size σ
  = ((file_read st size).1, <[f := FileObj (file_read st size).2]> σ).
Proof.
  intros Hf. unfold read_method, mbind, Py_bind, py_bind.
  rewrite (deref_Some _ _ _ Hf).
  by destruct (file_read st size) as [[out|e] st'].
Qed.

Lemma seek_method_spec σ f st offset w :
  σ !! f = Some (FileObj st) →
  seek_method f offset w σ
  = ((file_seek st offset w).1, <[f := FileObj (file_seek st offset w).2]> σ).
Proof.
  intros Hf. unfold seek_method, mbind, Py_bind, py_bind.
  rewrite (deref_Some _ _ _ Hf).
  by destruct (file_seek st offset w) as [[[]|e] st'].
Qed.

Lemma TFileTransport_read_file σ tin f st bytes :
  σ !! tin = Some (FileTransport f) →
  σ !! f = Some (FileObj st) →
  TFileTransport_read tin bytes σ
  = ((file_read st (Some bytes)).1,
     <[f := FileObj (file_read st (Some bytes)).2]> σ).
Proof.
  intros Htin Hf. unfold TFileTransport_read, mbind, Py_bind, py_bind.
  rewrite (deref_Some _ _ _ Htin), (deref_Some _ _ _ Hf).
  by destruct (file_read st (Some bytes)) as [[out|e] st'].
Qed.

(** a reader run over a transport of a file object reads what
    [read_file] reads, and moves the file object as [read_file] does *)
Lemma read_via_file {A} (d : Decoder A) :
  ∀ σ tin f st,
    σ !! tin = Some (FileTransport f) →
    σ !! f = Some (FileObj st) →
    read_via d tin σ
    = ((read_file d st).1, <[f := FileObj (read_file d st).2]> σ).
Proof.
  induction d as [a|e|bytes k IH]; intros σ tin f st Htin Hf.
  - simpl. by rewrite list_insert_id.
  - simpl. by rewrite list_insert_id.
  - pose proof (lookup_lt_Some _ _ _ Hf) as Hlt.
    assert (Hne : tin ≠ f) by (intros ->; by rewrite Hf in Htin).
    cbn [read_via read_file]. unfold mbind, Py_bind, py_bind.
    rewrite (TFileTransport_read_file _ _ _ _ _ Htin Hf).
    destruct (file_read st (Some bytes)) as [[out|e] st1]; simpl; [|done].
    rewrite (IH out _ tin f st1).
    + by rewrite list_insert_insert_eq.
    + by rewrite list_lookup_insert_ne.
    + by apply list_lookup_insert_eq.
Qed.

Lemma pagereader_step_file st index start :
  ∃ st', (pagereader_step (File st) index start).2 = File st'.
Proof.
  unfold pagereader_step.
  destruct (read_file PageHeader_read st) as [[header|e] st1]; [|by eexists].
  destruct (file_read st1 _) as [[compressed|e] st2]; [|by eexists].
  destruct (PageHeader.data_page_header header); by eexists.
Qed.

(** one turn of the generator over a file object: the page is the one
    [pagereader_step] gives, the file object has moved as there, and the
    store has gained one transport *)
Lemma pagereader_file_spec σ f st index start :
  σ !! f = Some (FileObj st) →
  ∃ st',
    (pagereader_step (File st) index start).2 = File st'
    ∧ pagereader_file f index start σ
      = ((pagereader_step (File st) index start).1,
         <[f := FileObj st']> σ ++ [FileTransport f]).
Proof.
  intros Hf. pose proof (lookup_lt_Some _ _ _ Hf) as Hlt.
  unfold pagereader_file, pagereader_step, new, mbind, Py_bind, py_bind.
  rewrite (read_via_file PageHeader_read _ (length σ) f st);
    [|by apply list_lookup_middle|by rewrite lookup_app_l].
  rewrite insert_app_l by done.
  destruct (read_file PageHeader_read st) as [[header|e] st1]; simpl;
    [|by eexists].
  rewrite (read_method_spec _ f st1)
    by (rewrite lookup_app_l by (by rewrite length_insert);
        by apply list_lookup_insert_eq).
  rewrite insert_app_l by (by rewrite length_insert).
  rewrite list_insert_insert_eq.
  destruct (file_read st1 _) as [[compressed|e] st2]; simpl; [|by eexists].
  destruct (PageHeader.data_page_header header); by eexists.
Qed.

Lemma page_loop_on_file f decompress schema meta deflevels replevels data
    fuel :
  ∀ σ st index start pages segs,
    σ !! f = Some (FileObj st) →
    match page_loop fuel decompress schema meta deflevels replevels data
            (File st) index start pages segs with
    | None =>
        page_loop_on fuel (pagereader_file f) decompress schema meta
          deflevels replevels data index start segs σ = None
    | Some (r, h') =>
        ∃ st' extra,
          h' = File st'
          ∧ page_loop_on fuel (pagereader_file f) decompress schema meta
              deflevels replevels data index start segs σ
            = Some (snd <$> r, <[f := FileObj st']> σ ++ extra)
    end.
Proof.
  induction fuel as [|fuel IH]; intros σ st index start pages segs Hf; [done|].
  pose proof (lookup_lt_Some _ _ _ Hf) as Hlt.
  cbn [page_loop page_loop_on].
  destruct (start <? ColumnMetaData.num_values meta).
  2:{ exists st, (@nil _). simpl. by rewrite app_nil_r, list_insert_id. }
  destruct (pagereader_file_spec σ f st index start Hf) as (st1 & Hh & ->).
  destruct (pagereader_step (File st) index start)
    as [[[pg index1]|e] h1]; simpl in Hh; subst h1; simpl;
    [|by exists st1, [FileTransport f]].
  destruct (page_body _ _ _ _ _ _ pg segs) as [segs1|e];
    [|by exists st1, [FileTransport f]].
  assert (Hf' : (<[f := FileObj st1]> σ ++ [FileTransport f]) !! f
                = Some (FileObj st1)).
  { rewrite lookup_app_l by (by rewrite length_insert).
    by apply list_lookup_insert_eq. }
  specialize (IH _ st1 index1 (pg_stop pg) (pages ++ [pg]) segs1 Hf').
  destruct (page_loop fuel _ _ _ _ _ _ _ _ _ _ _) as [[r h2]|]; [|done].
  destruct IH as (st' & extra & -> & ->).
  exists st', (FileTransport f :: extra). split; [done|].
  rewrite insert_app_l by (by rewrite length_insert).
  by rewrite list_insert_insert_eq, <- app_assoc.
Qed.

(** [column] on the objects of a file-backed file: the outcome is the one
    [column] computes, the file object has moved as there, and nothing
    else that was in the store has changed *)
Lemma column_on_file σ self f fl fields st footer fuel rowgroupid
    schema deflevels replevels data parallel :
  σ !! self = Some (ParquetFileObj None (Some f) fl fields) →
  σ !! f = Some (FileObj st) →
  σ !! fl = Some (FooterObj footer) →
  match column fuel (mk_ParquetFile (File st) footer fields)
          rowgroupid schema deflevels replevels data parallel with
  | None =>
      column_on fuel self rowgroupid schema deflevels replevels data parallel
        σ = None
  | Some (r, self') =>
      ∃ st' extra,
        handle self' = File st'
        ∧ column_on fuel self rowgroupid schema deflevels replevels data
            parallel σ
          = Some (r, <[f := FileObj st']> σ ++ extra)
  end.
Proof.
  intros Hself Hf Hfl. pose proof (lookup_lt_Some _ _ _ Hf) as Hlt.
  assert (Hnil : ∀ r : result (list (option ndarray)),
            ∃ st' extra,
              File st = File (F := FileObject) st'
              ∧ Some (r, σ) = Some (r, <[f := FileObj st']> σ ++ extra)).
  { intros r. exists st, []. by rewrite app_nil_r, list_insert_id. }
  unfold column, column_run, column_on. simpl.
  destruct parallel; [by apply Hnil|].
  rewrite Hself, Hfl.
  destruct (py_index _ _) as [rowgroup|]; [|by apply Hnil].
  destruct (find_column _ _) as [[chunk|]|]; [|by apply Hnil..].
  destruct (ColumnChunk.meta_data chunk) as [meta|]; [|by apply Hnil].
  destruct (select_decompress _) as [decompress|]; [|by apply Hnil].
  rewrite (seek_method_spec _ _ _ _ _ Hf).
  destruct (file_seek st _ SEEK_SET) as [[[]|e] st0]; simpl;
    [|by exists st0, []; rewrite app_nil_r].
  pose proof (page_loop_on_file f decompress schema meta deflevels
                replevels data fuel (<[f := FileObj st0]> σ) st0
                (ColumnChunk.file_offset chunk) 0 []
                (mk_segments [] [] [])) as Hloop.
  rewrite list_lookup_insert_eq in Hloop by done.
  specialize (Hloop eq_refl).
  destruct (page_loop fuel _ _ _ _ _ _ _ _ _ _ _) as [[r h2]|];
    [|by rewrite Hloop].
  destruct Hloop as (st' & extra & -> & ->).
  rewrite list_insert_insert_eq.
  destruct r as [[pages segs]|e]; simpl; [|by exists st', extra].
  destruct (build_out _ _ _ _); by exists st', extra.
Qed.

(** C9, as amended.  The tuple [column] returns has one slot for each
    switch that is on, in the order definition levels, repetition levels,
    values: a switch that is off drops its slot.  The two level slots hold
    [None]; the value slot holds [None] exactly when no page was read. *)
Theorem C9_result_slots fuel self rowgroupid schema deflevels replevels data
    parallel out self' :
  column fuel self rowgroupid schema deflevels replevels data parallel
    = Some (Ok out, self') →
  ∃ pages values,
    pages_read fuel self rowgroupid schema deflevels replevels data parallel
      = Some (Ok pages)
    ∧ out = (if deflevels then [None] else [])
            ++ (if replevels then [None] else [])
            ++ (if data then [values] else [])
    ∧ (values = None ↔ pages = []).
Proof.
  unfold column, pages_read.
  destruct (column_run _ _ _ _ _ _ _ _) as [[[[pages out1]|] h1]|] eqn:Hr; [|done..].
  intros [= <- <-].
  apply column_run_inv in Hr
    as (_ & rowgroup & chunk & meta & decompress & arrays
        & _ & _ & _ & _ & _ & _ & Hall & ->).
  exists pages, (joined arrays). split_and!; [done..|].
  destruct Hall; unfold joined; split; intros ?; by simplify_eq.
Qed.

(** C3, as amended.  When [column] returns for a chunk, the counts of the
    pages it read add up to at least the count of the chunk, and to less
    than it before the last page: the reader stops at the first page where
    the running count reaches the count of the chunk, and does not compare
    them.  The value slot is the concatenation of the arrays of the pages,
    in the order the pages were read. *)
Theorem C3_pages_reach_count_and_concatenate fuel self rowgroupid schema
    deflevels replevels pages out h' rowgroup chunk meta decompress :
  column_run fuel self rowgroupid schema deflevels replevels true false
    = Some (Ok (pages, out), h') →
  py_index (FileMetaData.row_groups (footer self)) rowgroupid = Ok rowgroup →
  find_column (RowGroup.columns rowgroup) schema = Ok (Some chunk) →
  ColumnChunk.meta_data chunk = Some meta →
  select_decompress (ColumnMetaData.codec meta) = Ok decompress →
  ColumnMetaData.num_values meta ≤ total_values pages
  ∧ (∀ k, (k < length pages)%nat →
          total_values (take k pages) < ColumnMetaData.num_values meta)
  ∧ ∃ arrays,
      Forall2 (λ pg a, page_values decompress meta pg = Ok a) pages arrays
      ∧ last out = Some (joined arrays)
      ∧ ∀ a, joined arrays = Some a →
             nd_items a = mjoin (nd_items <$> arrays).
Proof.
  intros Hrun Hrg Hfind Hmeta Hcodec.
  apply column_run_inv in Hrun
    as (_ & rowgroup' & chunk' & meta' & decompress' & arrays
        & Hrg' & Hfind' & Hmeta' & Hcodec' & Hsum & Hpre & Hall & ->).
  rewrite Hrg in Hrg'. injection Hrg' as <-.
  rewrite Hfind in Hfind'. injection Hfind' as <-.
  rewrite Hmeta in Hmeta'. injection Hmeta' as <-.
  rewrite Hcodec in Hcodec'. injection Hcodec' as <-.
  split; [lia|]. split; [done|].
  exists arrays. split; [done|]. split.
  - rewrite !app_assoc. apply last_snoc.
  - intros a. destruct arrays; [done|]. by intros [= <-].
Qed.

Lemma py_index_singleton {A} (x : A) : py_index [x] 0 = Ok x.
Proof. reflexivity. Qed.

(** the page loop when the first page already holds every value *)
Lemma page_loop_single_page fuel decompress schema meta deflevels replevels data
    h index pg index' h' segs segs' :
  0 < ColumnMetaData.num_values meta →
  pagereader_step h index 0 = (Ok (pg, index'), h') →
  ColumnMetaData.num_values meta ≤ page_num_values pg →
  page_body decompress schema meta deflevels replevels data pg segs = Ok segs' →
  page_loop (S (S fuel)) decompress schema meta deflevels replevels data
    h index 0 [] segs
  = Some (Ok ([pg], segs'), h').
Proof.
  intros Hpos Hstep Hall Hbody. cbn [page_loop].
  destruct (Z.ltb_spec 0 (ColumnMetaData.num_values meta)); [|lia].
  rewrite Hstep, Hbody.
  apply pagereader_step_page in Hstep as [_ ->].
  destruct (Z.ltb_spec (0 + page_num_values pg) (ColumnMetaData.num_values meta));
    [lia|done].
Qed.

(** the page loop when the body fails on the first page *)
Lemma page_loop_first_page_fails fuel decompress schema meta deflevels replevels
    data h index pg index' h' segs e :
  0 < ColumnMetaData.num_values meta →
  pagereader_step h index 0 = (Ok (pg, index'), h') →
  page_body decompress schema meta deflevels replevels data pg segs = Raise e →
  page_loop (S fuel) decompress schema meta deflevels replevels data
    h index 0 [] segs
  = Some (Raise e, h').
Proof.
  intros Hpos Hstep Hbody. cbn [page_loop].
  destruct (Z.ltb_spec 0 (ColumnMetaData.num_values meta)); [|lia].
  by rewrite Hstep, Hbody.
Qed.

(** C1.  A file that [ParquetFile] accepts (both magics are PAR1), with one
    row group of one chunk for a top-level REQUIRED INT32 field, three
    values, UNCOMPRESSED, whose first page has count three, encoding PLAIN
    and the bytes of 1, 2, 3: [column] with the three switches on returns
    [(None, None, [1, 2, 3])], on any fuel of two or more. *)
Theorem C1_required_int32_column file pf file' i schema chunk meta h1 pg
    index' h2 fuel :
  __init__ file = Some (Ok pf, file') →
  i ∈ fields pf →
  FileMetaData.schema (footer pf) !! i = Some schema →
  SchemaElement.repetition_type schema = Some REQUIRED →
  FileMetaData.row_groups (footer pf) = [RowGroup.mk [chunk]] →
  ColumnChunk.meta_data chunk = Some meta →
  ColumnMetaData.path_in_schema meta = [SchemaElement.name schema] →
  ColumnMetaData.type meta = INT32 →
  ColumnMetaData.codec meta = UNCOMPRESSED →
  ColumnMetaData.num_values meta = 3 →
  pagereader_start (handle pf) (ColumnChunk.file_offset chunk) = (Ok (), h1) →
  pagereader_step h1 (ColumnChunk.file_offset chunk) 0
  = (Ok (pg, index'), h2) →
  PageHeader.data_page_header (pg_header pg)
  = Some (DataPageHeader.mk 3 PLAIN) →
  pg_compressed pg
  = [x01; x00; x00; x00; x02; x00; x00; x00; x03; x00; x00; x00] →
  (2 ≤ fuel)%nat →
  column fuel pf 0 schema true true true false
  = Some (Ok [None; None; Some (mk_ndarray lt_i4 [1; 2; 3])],
          mk_ParquetFile h2 (footer pf) (fields pf)).
Proof.
  intros Hinit Hi Hschema Hrt Hrgs Hmeta Hpis Htype Hcodec Hnum Hstart Hstep
    Hdph Hbytes Hfuel.
  destruct (init_field _ _ _ _ _ Hinit Hi Hschema) as (Hpath & Hreq & _ & _).
  unfold is_required in Hreq. rewrite Hrt in Hreq. simpl in Hpath, Hreq.
  destruct fuel as [|[|fuel]]; [lia..|].
  assert (Hbody :
    page_body (λ compressed, Ok compressed) schema meta true true true pg
      (mk_segments [] [] [])
    = Ok (mk_segments [] [] [mk_ndarray lt_i4 [1; 2; 3]])).
  { unfold page_body. rewrite Hbytes, Hreq, Hpath, Hdph. simpl.
    unfold _plain. rewrite Htype. reflexivity. }
  unfold column, column_run.
  rewrite Hrgs, py_index_singleton. cbn [RowGroup.columns find_column].
  rewrite Hmeta, Hpath, Hpis, bool_decide_eq_true_2 by done.
  rewrite Hmeta, Hcodec. cbn [select_decompress]. rewrite Hstart.
  assert (Hpos : 0 < ColumnMetaData.num_values meta) by lia.
  assert (Hall : ColumnMetaData.num_values meta ≤ page_num_values pg)
    by (unfold page_num_values; rewrite Hdph; simpl; lia).
  by rewrite (page_loop_single_page _ _ _ _ _ _ _ _ _ _ _ _ _ _
                Hpos Hstep Hall Hbody).
Qed.

(** C5, as amended.  For a top-level OPTIONAL field, [maxdef] is 1, and
    [column] raises NotImplementedError at the first page whatever the
    switches: decoding definition levels is not implemented
    ([_bitwidth] only raises), so no level array and no values come back. *)
Theorem C5_optional_column_not_supported file pf file' i schema rowgroupid
    rowgroup chunk meta decompress h1 pg index' h2 uncompressed
    fuel deflevels replevels data :
  __init__ file = Some (Ok pf, file') →
  i ∈ fields pf →
  FileMetaData.schema (footer pf) !! i = Some schema →
  SchemaElement.repetition_type schema = Some OPTIONAL →
  py_index (FileMetaData.row_groups (footer pf)) rowgroupid = Ok rowgroup →
  find_column (RowGroup.columns rowgroup) schema = Ok (Some chunk) →
  ColumnChunk.meta_data chunk = Some meta →
  select_decompress (ColumnMetaData.codec meta) = Ok decompress →
  0 < ColumnMetaData.num_values meta →
  pagereader_start (handle pf) (ColumnChunk.file_offset chunk) = (Ok (), h1) →
  pagereader_step h1 (ColumnChunk.file_offset chunk) 0
  = (Ok (pg, index'), h2) →
  decompress (pg_compressed pg) = Ok uncompressed →
  (1 ≤ fuel)%nat →
  SchemaElement.maxdef schema = Some 1
  ∧ column fuel pf rowgroupid schema deflevels replevels data false
    = Some (Raise NotImplementedError,
            mk_ParquetFile h2 (footer pf) (fields pf)).
Proof.
  intros Hinit Hi Hschema Hrt Hrg Hfind Hmeta Hcodec Hnum Hstart Hstep Hdec Hfuel.
  destruct (init_field _ _ _ _ _ Hinit Hi Hschema) as (Hpath & Hreq & Hmaxdef & _).
  unfold node_maxdef, is_required in Hreq, Hmaxdef.
  rewrite Hrt in Hreq, Hmaxdef. simpl in Hreq, Hmaxdef.
  split; [done|].
  destruct fuel as [|fuel]; [lia|].
  assert (Hbody :
    page_body decompress schema meta deflevels replevels data pg
      (mk_segments [] [] [])
    = Raise NotImplementedError).
  { unfold page_body. rewrite Hdec, Hreq, Hmaxdef. reflexivity. }
  unfold column, column_run.
  rewrite Hrg, Hfind, Hmeta, Hcodec, Hstart.
  by rewrite (page_loop_first_page_fails _ _ _ _ _ _ _ _ _ _ _ _ _ _
                Hnum Hstep Hbody).
Qed.

End Column.

(** * Further properties *)

(** ** Slices and [_read] *)

Lemma py_slice_inside {A} (l : list A) (a b : Z) :
  0 ≤ a ≤ Z.of_nat (length l) → a ≤ b →
  py_slice l a b = take (Z.to_nat (b - a)) (drop (Z.to_nat a) l).
Proof.
  intros Ha Hb. unfold py_slice, clip_index.
  destruct (Z.ltb_spec a 0); [lia|]. destruct (Z.ltb_spec b 0); [lia|].
  rewrite (Z.min_l a) by lia.
  destruct (Z.le_ge_cases b (Z.of_nat (length l))) as [Hle|Hge].
  - by rewrite Z.min_l by lia.
  - rewrite Z.min_r by lia.
    rewrite !take_ge; [done|rewrite length_drop; lia..].
Qed.

Lemma py_slice_tail {A} (l : list A) (n : Z) :
  - Z.of_nat (length l) ≤ n < 0 →
  py_slice_from l n = drop (length l - Z.to_nat (- n)) l.
Proof.
  intros Hn. unfold py_slice_from, py_slice, clip_index.
  destruct (Z.ltb_spec n 0); [|lia].
  destruct (Z.ltb_spec (Z.of_nat (length l)) 0); [lia|].
  rewrite Z.max_l, Z.min_id by lia.
  replace (Z.to_nat (n + Z.of_nat (length l)))
    with (length l - Z.to_nat (- n))%nat by lia.
  apply take_ge. rewrite length_drop. lia.
Qed.

(** X3.  A successful [_read] of [bytes >= 0] started inside the array:
    it returns the bytes from [_index] on, at most [bytes] of them, and
    moves [_index] by [bytes], not by what it returned.  After a short read
    the index is beyond the array, so every later [_read] raises IOError. *)
Theorem X3_read_advances_by_request (memmap : list byte) (index bytes : Z)
    (out : list byte) (index' : Z) :
  0 ≤ bytes →
  _read memmap index bytes = Ok (out, index') →
  0 ≤ index < Z.of_nat (length memmap)
  ∧ index' = index + bytes
  ∧ out = take (Z.to_nat bytes) (drop (Z.to_nat index) memmap)
  ∧ ((length out < Z.to_nat bytes)%nat →
     ∀ n, _read memmap index' n = Raise IOError).
Proof.
  intros Hbytes. unfold _read.
  destruct (Z.leb_spec 0 index); simpl; [|done].
  destruct (Z.ltb_spec index (Z.of_nat (length memmap))); simpl; [|done].
  rewrite py_slice_inside by lia.
  replace (index + bytes - index) with bytes by lia.
  set (o := take _ _).
  assert (Hout : out = o → index' = index + bytes →
    0 ≤ index < Z.of_nat (length memmap) ∧ index' = index + bytes ∧ out = o
    ∧ ((length out < Z.to_nat bytes)%nat →
       ∀ n, (if negb ((0 <=? index') && (index' <? Z.of_nat (length memmap)))
             then Raise IOError
             else let out := py_slice memmap index' (index' + n) in
                  let index := index' + n in
                  if (length out =? 0)%nat then Ok ([], index)
                  else Ok (out, index)) = Raise IOError)).
  { intros -> ->. split_and!; try done; try lia.
    intros Hshort n. unfold o in Hshort.
    rewrite length_take, length_drop in Hshort.
    destruct (Z.ltb_spec (index + bytes) (Z.of_nat (length memmap))); [lia|].
    by rewrite andb_false_r. }
  destruct (Nat.eqb_spec (length o) 0) as [Hz|Hnz].
  - intros [= <- <-]. apply Hout; [|done].
    symmetry. by apply nil_length_inv.
  - intros [= <- <-]. by apply Hout.
Qed.

(** X4.  Two successful [_read]s in a row, of [a] and then [b] bytes,
    return between them what one [_read] of [a + b] bytes returns, and end
    at the same index. *)
Theorem X4_read_compose (memmap : list byte) (index a b : Z)
    (out1 out2 : list byte) (index1 index2 : Z) :
  0 ≤ a → 0 ≤ b →
  _read memmap index a = Ok (out1, index1) →
  _read memmap index1 b = Ok (out2, index2) →
  _read memmap index (a + b) = Ok (out1 ++ out2, index2).
Proof.
  intros Ha Hb. unfold _read.
  destruct (Z.leb_spec 0 index); simpl; [|done].
  destruct (Z.ltb_spec index (Z.of_nat (length memmap))); simpl; [|done].
  rewrite !(py_slice_inside memmap index) by lia.
  replace (index + a - index) with a by lia.
  replace (index + (a + b) - index) with (a + b) by lia.
  intros Hr1.
  assert (out1 = take (Z.to_nat a) (drop (Z.to_nat index) memmap)
          ∧ index1 = index + a) as [-> ->].
  { destruct (Nat.eqb_spec (length (take (Z.to_nat a)
                                      (drop (Z.to_nat index) memmap))) 0)
      as [Hz|Hnz]; injection Hr1 as <- <-; [|done].
    split; [|done]. symmetry. by apply nil_length_inv. }
  clear Hr1.
  destruct (Z.leb_spec 0 (index + a)); simpl; [|done].
  destruct (Z.ltb_spec (index + a) (Z.of_nat (length memmap))); simpl; [|done].
  rewrite py_slice_inside by lia.
  replace (index + a + b - (index + a)) with b by lia.
  intros Hr2.
  assert (out2 = take (Z.to_nat b) (drop (Z.to_nat (index + a)) memmap)
          ∧ index2 = index + a + b) as [-> ->].
  { destruct (Nat.eqb_spec (length (take (Z.to_nat b)
                              (drop (Z.to_nat (index + a)) memmap))) 0)
      as [Hz|Hnz]; injection Hr2 as <- <-; [|done].
    split; [|done]. symmetry. by apply nil_length_inv. }
  clear Hr2.
  assert (Hcat : take (Z.to_nat (a + b)) (drop (Z.to_nat index) memmap)
                 = take (Z.to_nat a) (drop (Z.to_nat index) memmap)
                   ++ take (Z.to_nat b) (drop (Z.to_nat (index + a)) memmap)).
  { replace (Z.to_nat (a + b)) with (Z.to_nat a + Z.to_nat b)%nat by lia.
    replace (Z.to_nat (index + a)) with (Z.to_nat index + Z.to_nat a)%nat
      by lia.
    rewrite <- drop_drop.
    assert (Hlen : (Z.to_nat a ≤ length (drop (Z.to_nat index) memmap))%nat)
      by (rewrite length_drop; lia).
    revert Hlen. generalize (drop (Z.to_nat index) memmap) as l.
    intros l Hlen. rewrite <- (take_drop (Z.to_nat a) l) at 1.
    rewrite take_app_add'; [done|]. rewrite length_take. lia. }
  rewrite Hcat, Z.add_assoc.
  match goal with
  | |- context [(length ?x =? 0)%nat] =>
      destruct (Nat.eqb_spec (length x) 0) as [Hz|_]; [|done];
      apply nil_length_inv in Hz; by rewrite Hz
  end.
Qed.

(** ** [_plain] *)

Lemma length_le_bytes n z : length (le_bytes n z) = n.
Proof. revert z. induction n as [|n IH]; intros z; simpl; [done|]. by rewrite IH. Qed.

Lemma byte_val_of z : byte_val (byte_of z) = z mod 256.
Proof.
  unfold byte_of, byte_val.
  pose proof (Z.mod_pos_bound z 256 ltac:(lia)) as Hb.
  destruct (Byte.of_N (Z.to_N (z mod 256))) as [b|] eqn:Hof.
  - apply Byte.to_of_N in Hof. rewrite Hof. lia.
  - apply Byte.of_N_None_iff in Hof. lia.
Qed.

Lemma le_unsigned_bytes n z :
  le_unsigned (le_bytes n z) = z mod 256 ^ Z.of_nat n.
Proof.
  revert z. induction n as [|n IH]; intros z.
  - simpl. by rewrite Z.mod_1_r.
  - cbn [le_bytes le_unsigned]. rewrite IH, byte_val_of.
    rewrite Nat2Z.inj_succ, Z.pow_succ_r by lia.
    rewrite Z.rem_mul_r by lia. done.
Qed.

Lemma decode_encode_item d z :
  item_in_range d z → decode_item d (encode_item d z) = z.
Proof.
  unfold item_in_range, decode_item, encode_item, to_signed.
  intros Hz. rewrite le_unsigned_bytes.
  destruct d; simpl itemsize in *;
    repeat match goal with
    | H : context [Z.of_nat ?n] |- _ =>
        let v := eval vm_compute in (Z.of_nat n) in
        change (Z.of_nat n) with v in H
    | |- context [Z.of_nat ?n] =>
        let v := eval vm_compute in (Z.of_nat n) in
        change (Z.of_nat n) with v
    end;
    repeat match goal with
    | |- context [8 * ?n - 1] =>
        let v := eval vm_compute in (8 * n - 1) in
        change (8 * n - 1) with v
    | |- context [8 * ?n] =>
        let v := eval vm_compute in (8 * n) in change (8 * n) with v
    end;
    repeat match goal with
    | H : context [?b ^ ?n] |- _ =>
        let v := eval vm_compute in (b ^ n) in change (b ^ n) with v in H
    | |- context [?b ^ ?n] =>
        let v := eval vm_compute in (b ^ n) in change (b ^ n) with v
    end.
  - destruct (Z.le_gt_cases 0 z).
    + rewrite Z.mod_small by lia. case_match eqn:Hlt; [done|]. apply Z.ltb_ge in Hlt. lia.
    + replace (z mod 4294967296) with (z + 4294967296).
      * case_match eqn:Hlt; [|lia]. apply Z.ltb_lt in Hlt. lia.
      * apply (Z.mod_unique _ _ (-1)); lia.
  - destruct (Z.le_gt_cases 0 z).
    + rewrite Z.mod_small by lia. case_match eqn:Hlt; [done|]. apply Z.ltb_ge in Hlt. lia.
    + replace (z mod 18446744073709551616) with (z + 18446744073709551616).
      * case_match eqn:Hlt; [|lia]. apply Z.ltb_lt in Hlt. lia.
      * apply (Z.mod_unique _ _ (-1)); lia.
  - by rewrite Z.mod_small.
  - by rewrite Z.mod_small.
  - by rewrite Z.mod_small.
Qed.

Lemma reshape_join {A} (w : nat) (chunks : list (list A)) :
  Forall (λ c, length c = w) chunks →
  reshape (replicate (length chunks) w) (mjoin chunks) = chunks.
Proof.
  induction 1 as [|c cs Hc _ IH]; [done|].
  simpl. rewrite take_app_length' by done. rewrite drop_app_length' by done.
  by rewrite IH.
Qed.

Lemma length_join_uniform {A} (w : nat) (chunks : list (list A)) :
  Forall (λ c, length c = w) chunks →
  length (mjoin chunks) = (length chunks * w)%nat.
Proof.
  induction 1 as [|c cs Hc _ IH]; [done|].
  simpl. rewrite length_app, IH, Hc. done.
Qed.

Lemma view_tobytes d items :
  Forall (item_in_range d) items →
  view d (tobytes (mk_ndarray d items)) = Ok (mk_ndarray d items).
Proof.
  intros Hall. unfold view, tobytes. simpl.
  assert (Hw : (itemsize d ≠ 0)%nat) by (destruct d; simpl; lia).
  assert (Hch : Forall (λ c, length c = itemsize d) (encode_item d <$> items)).
  { apply Forall_fmap, Forall_true. intros z. apply length_le_bytes. }
  rewrite (length_join_uniform _ _ Hch), length_fmap.
  rewrite Nat.Div0.mod_mul, Nat.div_mul by done. simpl. do 2 f_equal.
  replace (length items) with (length (encode_item d <$> items))
    by apply length_fmap.
  rewrite (reshape_join _ _ Hch), <- list_fmap_compose. clear Hch.
  induction Hall as [|z zs Hz _ IH]; [done|].
  csimpl. f_equal; [by apply decode_encode_item|done].
Qed.

Lemma plain_inv data meta a :
  _plain data meta = Ok a →
  (ColumnMetaData.type meta, nd_dtype a)
    ∈ [(INT32, lt_i4); (INT64, lt_i8); (INT96, S12); (FLOAT, lt_f4);
       (DOUBLE, lt_f8)]
  ∧ length data = (length (nd_items a) * itemsize (nd_dtype a))%nat
  ∧ tobytes a = data.
Proof.
  assert (Hview : ∀ d, view d data = Ok a →
    nd_dtype a = d
    ∧ length data = (length (nd_items a) * itemsize d)%nat
    ∧ tobytes a = data).
  { intros d Hv.
    assert (Hw : (itemsize d ≠ 0)%nat) by (destruct d; simpl; lia).
    assert (Hlen : length data = (length data / itemsize d * itemsize d)%nat).
    { unfold view in Hv. simpl in Hv.
      destruct (Nat.eqb_spec (length data mod itemsize d) 0) as [Hm|];
        [|done].
      pose proof (Nat.div_mod_eq (length data) (itemsize d)). lia. }
    destruct (tobytes_view d data _ Hlen) as (a' & Hv' & Hd & Hn & Hb).
    rewrite Hv in Hv'. injection Hv' as <-. by rewrite Hn, <- Hlen. }
  unfold _plain.
  destruct (ColumnMetaData.type meta); try done;
    intros (Hd & Hlen & Hb)%Hview; rewrite Hd;
    (split; [|by split]);
    repeat first [apply list_elem_of_here | apply list_elem_of_further].
Qed.

Lemma plain_dtype data1 data2 meta a1 a2 :
  _plain data1 meta = Ok a1 → _plain data2 meta = Ok a2 →
  nd_dtype a1 = nd_dtype a2.
Proof.
  intros (H1 & _)%plain_inv (H2 & _)%plain_inv.
  destruct (ColumnMetaData.type meta);
    repeat (apply elem_of_cons in H1 as [[= H1]|H1]; try done);
    try (by apply elem_of_nil in H1);
    repeat (apply elem_of_cons in H2 as [[= H2]|H2]; try done);
    try (by apply elem_of_nil in H2); congruence.
Qed.

(** X20.  Whenever [_plain] returns an array, the type of the column is
    INT32, INT64, INT96, FLOAT or DOUBLE and the array has the matching
    item type; the bytes given are as many as the items times the item
    size, and they are the memory of the array. *)
Theorem X20_plain_success (data : list byte) (metadata : ColumnMetaData.t)
    (a : ndarray) :
  _plain data metadata = Ok a →
  (ColumnMetaData.type metadata, nd_dtype a)
    ∈ [(INT32, lt_i4); (INT64, lt_i8); (INT96, S12); (FLOAT, lt_f4);
       (DOUBLE, lt_f8)]
  ∧ length data = (length (nd_items a) * itemsize (nd_dtype a))%nat
  ∧ tobytes a = data.
Proof. apply plain_inv. Qed.

(** X21.  Whenever [_plain] raises, it is NotImplementedError for
    BOOLEAN, BYTE_ARRAY and FIXED_LEN_BYTE_ARRAY, AssertionError for a type
    the code does not name, and otherwise ValueError, for a fixed-width
    type whose item size does not divide the number of bytes. *)
Theorem X21_plain_failure (data : list byte) (metadata : ColumnMetaData.t)
    (e : exn) :
  _plain data metadata = Raise e →
  (e = NotImplementedError
   ∧ ColumnMetaData.type metadata
       ∈ [BOOLEAN; BYTE_ARRAY; FIXED_LEN_BYTE_ARRAY])
  ∨ (e = AssertionError
     ∧ ∃ tag, ColumnMetaData.type metadata = OtherType tag)
  ∨ (e = ValueError
     ∧ ∃ w, (ColumnMetaData.type metadata, w)
              ∈ [(INT32, 4); (INT64, 8); (INT96, 12); (FLOAT, 4);
                 (DOUBLE, 8)]%nat
            ∧ (length data mod w ≠ 0)%nat).
Proof.
  assert (Hview : ∀ d, view d data = Raise e →
    e = ValueError ∧ (length data mod itemsize d ≠ 0)%nat).
  { intros d. unfold view. simpl.
    destruct (Nat.eqb_spec (length data mod itemsize d) 0); [done|].
    by intros [= <-]. }
  unfold _plain.
  destruct (ColumnMetaData.type metadata) eqn:Ht;
    try (intros [= <-]; left; split; [done|];
         repeat first [apply list_elem_of_here | apply list_elem_of_further]);
    try (intros [= <-]; right; left; split; [done|by eexists]);
    intros [-> Hm]%Hview; right; right; split; try done;
    eexists; (split; [|exact Hm]);
    repeat first [apply list_elem_of_here | apply list_elem_of_further].
Qed.

(** X22.  [_plain] decodes what was encoded: on the memory of an array of
    one of the five item types, whose items are in the range of the type,
    and with the matching column type, it returns that array. *)
Theorem X22_plain_encode_decode (metadata : ColumnMetaData.t) (d : dtype)
    (items : list Z) :
  (ColumnMetaData.type metadata, d)
    ∈ [(INT32, lt_i4); (INT64, lt_i8); (INT96, S12); (FLOAT, lt_f4);
       (DOUBLE, lt_f8)] →
  Forall (item_in_range d) items →
  _plain (tobytes (mk_ndarray d items)) metadata = Ok (mk_ndarray d items).
Proof.
  intros Hin Hall. unfold _plain.
  repeat (apply elem_of_cons in Hin as [[= -> ->]|Hin]);
    [..|by apply elem_of_nil in Hin]; by apply view_tobytes.
Qed.

(** ** The schema walk *)

(** the bounds handed down to a visited node are non-negative and add up to
    the length of the path handed down with them *)
Lemma visited_bounds s0 s index fields i path d r :
  fields_inv s0 s index fields →
  visited s fields i path d r →
  0 ≤ d ∧ 0 ≤ r ∧ d + r = Z.of_nat (length path).
Proof.
  intros Hinv Hv.
  induction Hv as [f Hf|p pp dp rp e cs path d r c Hvp IH He Hcs Hpa Hd Hr Hc].
  - done.
  - destruct IH as (Hdp & Hrp & Hsum).
    destruct (visited_sound _ _ _ _ _ _ _ _ Hinv Hvp)
      as (_ & e' & He' & Hpath & _ & Hmd & Hmr).
    simplify_eq. rewrite length_app. simpl.
    unfold node_maxdef, node_maxrep.
    match goal with |- context [is_required ?x] => destruct (is_required x) end;
      lia.
Qed.

(** X5.  The schema walk of [__init__] keeps the number of elements, and
    on every element it visits it keeps the name and the repetition type
    and sets [path] to the path handed down followed by the element's own
    name. *)
Theorem X5_walk_paths (fuel : nat) (sch0 s : store) (fields : list nat) :
  fields_loop fuel sch0 0 [] = Some (Ok (s, fields)) →
  length s = length sch0
  ∧ ∀ i path d r,
      visited s fields i path d r →
      ∃ e0 e,
        sch0 !! i = Some e0 ∧ s !! i = Some e
        ∧ SchemaElement.name e = SchemaElement.name e0
        ∧ SchemaElement.repetition_type e = SchemaElement.repetition_type e0
        ∧ SchemaElement.path e = Some (path ++ [SchemaElement.name e0]).
Proof.
  intros Hwalk.
  eapply fields_loop_spec in Hwalk as (index & Hinv & Hexit);
    [|apply fields_inv_init].
  pose proof (fi_length _ _ _ _ Hinv) as Hlen.
  split; [done|].
  intros i path d r Hv.
  destruct (visited_sound _ _ _ _ _ _ _ _ Hinv Hv)
    as (Hi & e & He & Hpath & _).
  pose proof (lookup_lt_Some _ _ _ He) as Hlt. rewrite Hlen in Hlt.
  destruct (lookup_lt_is_Some_2 sch0 i Hlt) as [e0 He0].
  destruct (fi_parsed _ _ _ _ Hinv i e0 He0) as (e' & He' & Hname & Hrt).
  simplify_eq. exists e0, e. split_and!; try done.
  by rewrite Hpath, Hname.
Qed.

(** X6.  On every element the walk visits, [maxdef] and [maxrep] are at
    least the (non-negative) bounds handed down, they add up to the length
    of the element's [path], and that path is one longer than the path
    handed down. *)
Theorem X6_walk_level_bounds (fuel : nat) (sch0 s : store) (fields : list nat) :
  fields_loop fuel sch0 0 [] = Some (Ok (s, fields)) →
  ∀ i path maxdef_parent maxrep_parent,
    visited s fields i path maxdef_parent maxrep_parent →
    ∃ e own_path maxdef maxrep,
      s !! i = Some e
      ∧ SchemaElement.path e = Some own_path
      ∧ SchemaElement.maxdef e = Some maxdef
      ∧ SchemaElement.maxrep e = Some maxrep
      ∧ 0 ≤ maxdef_parent ≤ maxdef
      ∧ 0 ≤ maxrep_parent ≤ maxrep
      ∧ maxdef + maxrep = Z.of_nat (length own_path)
      ∧ length own_path = S (length path).
Proof.
  intros Hwalk i path d r Hv.
  eapply fields_loop_spec in Hwalk as (index & Hinv & Hexit);
    [|apply fields_inv_init].
  destruct (visited_bounds _ _ _ _ _ _ _ _ Hinv Hv) as (Hd & Hr & Hsum).
  destruct (visited_sound _ _ _ _ _ _ _ _ Hinv Hv)
    as (_ & e & He & Hpath & _ & Hmd & Hmr).
  exists e, (path ++ [SchemaElement.name e]), (node_maxdef e d), (node_maxrep e r).
  split_and!; try done;
    rewrite ?length_app; simpl;
    unfold node_maxdef, node_maxrep; destruct (is_required e); lia.
Qed.

Lemma arity_ok_lookup s0 s0' s s' p :
  s0' !! p = s0 !! p → s' !! p = s !! p → arity_ok s0 s p → arity_ok s0' s' p.
Proof.
  intros H0 H1 (e0 & e & cs & ? & ? & ?). exists e0, e, cs.
  by rewrite H0, H1.
Qed.

Lemma children_loop_arity
    (rec : store → nat → option (result (store * nat)))
    (path' : list string) (d' r' : Z) (s_in : store) (own : nat) (N : Z) :
  (∀ s i s' j, rec s i = Some (Ok (s', j)) →
               recurse_post s i path' d' r' s' j
               ∧ ∀ p, (i ≤ p ≤ j)%nat → arity_ok s s' p) →
  ∀ n m s idx s' j,
    children_loop rec own n s idx = Some (Ok (s', j)) →
    arity_inv s_in own N m s idx →
    arity_inv s_in own N (m + n) s' j.
Proof.
  intros Hrec n. induction n as [|n IH]; intros m s idx s' j Hrun Hinv.
  { simpl in Hrun. simplify_eq. by rewrite Nat.add_0_r. }
  simpl in Hrun.
  destruct (s !! S idx) as [child|] eqn:Hchild; [|done].
  destruct (rec (alter (add_child (S idx)) own s) (S idx))
    as [[[s2 j2]|]|] eqn:Hcall; [|done..].
  replace (m + S n)%nat with (S m + n)%nat by lia.
  apply (IH _ _ _ _ _ Hrun). clear IH Hrun.
  destruct Hinv as [Hrng Hfr Hown Hbelow].
  set (s1 := alter (add_child (S idx)) own s) in *.
  apply Hrec in Hcall as [[Hlen2 Hrng2 Hfr2 _ _ _ _] Har2].
  assert (Hs1 : ∀ k, k ≠ own → s1 !! k = s !! k)
    by (intros k Hk; unfold s1; by rewrite list_lookup_alter_ne).
  assert (Hlow : ∀ k, (k ≤ idx)%nat → k ≠ own → s2 !! k = s !! k)
    by (intros k Hk Hne; rewrite Hfr2 by lia; by apply Hs1).
  assert (Hs2own : s2 !! own = add_child (S idx) <$> s !! own).
  { rewrite Hfr2 by lia. unfold s1. by rewrite list_lookup_alter_eq. }
  split.
  - lia.
  - intros k Hk. rewrite Hfr2 by lia. rewrite Hs1 by lia. apply Hfr. lia.
  - destruct Hown as (e & cs & He & Hn & Hcs & Hlen & Hhead).
    exists (add_child (S idx) e), (cs ++ [S idx]).
    split_and!; [by rewrite Hs2own, He|done|by simpl; rewrite Hcs|..].
    + rewrite length_app. simpl. lia.
    + right. destruct Hhead as [[-> ->]|Hhead]; [done|].
      destruct cs; [done|]. done.
  - intros p Hp. destruct (decide (p ≤ idx)%nat) as [Hle|Hgt].
    + eapply arity_ok_lookup; [done| |apply Hbelow; lia].
      apply Hlow; lia.
    + eapply arity_ok_lookup; [| |apply Har2; lia]; [|done].
      rewrite Hs1 by lia. symmetry. apply Hfr. lia.
Qed.

Lemma recurse_arity fuel :
  ∀ s i path d r s' j,
    recurse fuel s i path d r = Some (Ok (s', j)) →
    ∀ p, (i ≤ p ≤ j)%nat → arity_ok s s' p.
Proof.
  induction fuel as [|fuel IH]; intros s i path d r s' j Hrun; [done|].
  cbn [recurse] in Hrun.
  destruct (s !! i) as [e|] eqn:He; [|done].
  pose proof (lookup_lt_Some _ _ _ He) as Hlt.
  eapply (children_loop_arity _ (path ++ [SchemaElement.name e])
            (node_maxdef e d) (node_maxrep e r) s i
            (default 0 (SchemaElement.num_children e))) with (m := 0%nat)
    in Hrun.
  - destruct Hrun as [Hrng Hfr Hown Hbelow]. intros p Hp.
    destruct (decide (p = i)) as [->|Hne]; [|apply Hbelow; lia].
    destruct Hown as (e' & cs & He' & Hn & Hcs & Hlen & Hhead).
    exists e, e', cs. split_and!; try done.
    destruct Hhead as [[-> _]|Hhead]; [by left|by right].
  - intros s2 i2 s3 j3 Hcall. split.
    + by eapply recurse_spec.
    + by eapply IH.
  - split.
    + done.
    + intros k Hk. by rewrite list_lookup_insert_ne by lia.
    + exists (enrich e path d r), []. split_and!; try done.
      * by apply list_lookup_insert_eq.
      * by left.
    + intros p Hp. lia.
Qed.

Lemma fields_loop_arity s0 fuel :
  ∀ s index fields s' fields',
    fields_loop fuel s index fields = Some (Ok (s', fields')) →
    walk_inv s0 s index →
    ∃ index', walk_inv s0 s' index' ∧ ¬ (index' + 1 < length s')%nat.
Proof.
  induction fuel as [|fuel IH]; intros s index fields s' fields' Hrun Hinv;
    [done|].
  cbn [fields_loop] in Hrun. case_match eqn:Hguard.
  2:{ simplify_eq. exists index. split; [done|].
      apply Nat.ltb_ge in Hguard. lia. }
  destruct (s !! S index) as [e|] eqn:He; [|done].
  destruct (recurse (length s) s (S index) [] 0 0) as [[[s2 j2]|]|] eqn:Hcall;
    [|done..].
  apply (IH _ _ _ _ _ Hrun). clear IH Hrun.
  pose proof (recurse_arity _ _ _ _ _ _ _ _ Hcall) as Har2.
  apply recurse_spec in Hcall.
  destruct Hcall as [Hlen2 Hrng2 Hfr2 _ _ _ _].
  destruct Hinv as [Hlen Hrng Hroot Hfr Har].
  split.
  - lia.
  - lia.
  - rewrite Hfr2 by lia. done.
  - intros k Hk. rewrite Hfr2 by lia. apply Hfr. lia.
  - intros p Hp. destruct (decide (p ≤ index)%nat) as [Hle|Hgt].
    + eapply arity_ok_lookup; [done| |apply Har; lia]. apply Hfr2. lia.
    + eapply arity_ok_lookup; [| |apply Har2; lia]; [|done].
      symmetry. apply Hfr. lia.
Qed.

(** X7.  After the walk the root element is as parsed, and every other
    element has [num_children] set (0 where it was None) and a [children]
    list of exactly that many references (none where the count is
    negative), the first of them to the next element of the list. *)
Theorem X7_walk_arity (fuel : nat) (sch0 s : store) (fields : list nat) :
  fields_loop fuel sch0 0 [] = Some (Ok (s, fields)) →
  s !! 0%nat = sch0 !! 0%nat
  ∧ ∀ i, (1 ≤ i < length sch0)%nat →
      ∃ e0 e cs,
        sch0 !! i = Some e0 ∧ s !! i = Some e
        ∧ SchemaElement.num_children e
          = Some (default 0 (SchemaElement.num_children e0))
        ∧ SchemaElement.children e = Some cs
        ∧ length cs = Z.to_nat (default 0 (SchemaElement.num_children e0))
        ∧ (cs = [] ∨ head cs = Some (S i)).
Proof.
  intros Hwalk.
  eapply (fields_loop_arity sch0) in Hwalk as (index & Hinv & Hexit).
  - destruct Hinv as [Hlen Hrng Hroot Hfr Har]. split; [done|].
    intros i Hi. apply Har. lia.
  - split; try done; [lia|]. intros p Hp. lia.
Qed.

Lemma recurse_leaf fuel s i path d r e :
  s !! i = Some e → is_leaf e →
  recurse (S fuel) s i path d r
  = Some (Ok (<[i := enrich e path d r]> s, i)).
Proof.
  intros He Hleaf. cbn [recurse]. rewrite He.
  unfold is_leaf in Hleaf.
  generalize dependent (default 0 (SchemaElement.num_children e)).
  intros [|n|n] Hleaf; [done|lia|done].
Qed.

Lemma fields_loop_flat fuel :
  ∀ s index fields,
    (length s - index < fuel)%nat →
    (∀ k e, (index < k)%nat → s !! k = Some e → is_leaf e) →
    fields_loop fuel s index fields
    = Some (Ok (take (S index) s
                ++ ((λ e, enrich e [] 0 0) <$> drop (S index) s),
                fields ++ seq (S index) (length s - S index))).
Proof.
  induction fuel as [|fuel IH]; intros s index fields Hfuel Hflat; [lia|].
  cbn [fields_loop]. destruct (Nat.ltb_spec (index + 1) (length s)) as [Hlt|Hge].
  2:{ rewrite drop_ge, take_ge by lia.
      replace (length s - S index)%nat with 0%nat by lia.
      simpl. by rewrite !app_nil_r. }
  destruct (lookup_lt_is_Some_2 s (S index) ltac:(lia)) as [e He].
  rewrite He.
  assert (Hleaf : is_leaf e) by (eapply (Hflat (S index)); [lia|done]).
  destruct (length s) as [|n] eqn:Hlen; [lia|].
  rewrite (recurse_leaf n s (S index) [] 0 0 e He Hleaf).
  rewrite IH.
  - rewrite length_insert, Hlen. f_equal. f_equal. f_equal.
    + rewrite drop_insert_lt by lia.
      rewrite (take_S_r _ _ (enrich e [] 0 0))
        by (apply list_lookup_insert_eq; lia).
      rewrite take_insert_ge by lia.
      rewrite (drop_S s e (S index) He). rewrite fmap_cons.
      by rewrite <- app_assoc.
    + rewrite <- app_assoc. f_equal.
      replace (S n - S index)%nat with (S (S n - S (S index)))%nat by lia.
      done.
  - rewrite length_insert. lia.
  - intros k e' Hk He'. rewrite list_lookup_insert_ne in He' by lia.
    eapply Hflat; [|done]. lia.
Qed.

(** X9.  On a schema in which no element after the root has children,
    the walk returns: the root is untouched, every other element gets the
    attributes of a top-level field (handed-down path [[]], bounds 0 and 0,
    no children), and [fields] lists all of them in order. *)
Theorem X9_walk_flat_schema (fuel : nat) (sch : store) :
  Forall is_leaf (drop 1 sch) →
  (length sch < fuel)%nat →
  fields_loop fuel sch 0 []
  = Some (Ok (take 1 sch ++ ((λ e, enrich e [] 0 0) <$> drop 1 sch),
              seq 1 (length sch - 1))).
Proof.
  intros Hflat Hfuel. rewrite fields_loop_flat; [done|lia|].
  intros k e Hk He. rewrite Forall_lookup in Hflat.
  apply (Hflat (k - 1)%nat). rewrite lookup_drop.
  by replace (1 + (k - 1))%nat with k by lia.
Qed.

Lemma fields_loop_fuel fuel :
  ∀ s index fields r fuel',
    fields_loop fuel s index fields = Some r →
    (fuel ≤ fuel')%nat →
    fields_loop fuel' s index fields = Some r.
Proof.
  induction fuel as [|fuel IH]; intros s index fields r fuel' Hrun Hle; [done|].
  destruct fuel' as [|fuel']; [lia|]. cbn [fields_loop] in *.
  case_match; [|done].
  destruct (s !! S index); [|done].
  destruct (recurse _ _ _ _ _ _) as [[[s2 j2]|]|]; [|done..].
  apply IH; [done|lia].
Qed.

(** X10.  The walk ends on every schema list, by returning or by raising:
    any fuel above the number of elements gives an outcome, the one
    [__init__] uses. *)
Theorem X10_walk_terminates (sch : store) (fuel : nat) :
  (length sch < fuel)%nat →
  ∃ r, fields_loop fuel sch 0 [] = Some r
       ∧ fields_loop (S (length sch)) sch 0 [] = Some r.
Proof.
  intros Hfuel.
  destruct (fields_loop_total (S (length sch)) sch 0 []) as [r Hr]; [lia|].
  exists r. split; [|done]. eapply fields_loop_fuel; [done|lia].
Qed.

(** ** The search for the chunk *)

(** X11.  The search of [column] for the chunk (lines 153-157), when it
    raises nothing: the chunk found is the first one whose [path_in_schema]
    equals [schema.path], every chunk before it has metadata with another
    path; when none is found, every chunk was passed over that way. *)
Theorem X11_find_column_first_match (columns : list ColumnChunk.t)
    (schema : SchemaElement.t) (found : option ColumnChunk.t) :
  find_column columns schema = Ok found →
  ∃ before,
    Forall (passed_over schema) before
    ∧ match found with
      | Some chunk =>
          ∃ after meta,
            columns = before ++ chunk :: after
            ∧ ColumnChunk.meta_data chunk = Some meta
            ∧ SchemaElement.path schema
              = Some (ColumnMetaData.path_in_schema meta)
      | None => columns = before
      end.
Proof.
  induction columns as [|c cs IH]; simpl.
  { intros [= <-]. by exists []. }
  destruct (ColumnChunk.meta_data c) as [meta|] eqn:Hmeta; [|done].
  destruct (SchemaElement.path schema) as [path|] eqn:Hpath; [|done].
  case_bool_decide as Heq.
  - intros [= <-]. exists []. split; [done|]. exists cs, meta.
    by rewrite Heq.
  - intros (before & Hall & Hfound)%IH. exists (c :: before). split.
    + constructor; [|done]. by exists meta, path.
    + destruct found as [chunk|].
      * destruct Hfound as (after & meta' & -> & ? & ?). by exists after, meta'.
      * by rewrite Hfound.
Qed.

Lemma join_join_fmap {A B} (f : A → B) (ls : list (list A)) :
  f <$> mjoin ls = mjoin ((λ l, f <$> l) <$> ls).
Proof.
  induction ls as [|l ls IH]; [done|]. csimpl. by rewrite fmap_app, IH.
Qed.

Lemma join_join {A} (lss : list (list (list A))) :
  mjoin (mjoin lss) = mjoin (mjoin <$> lss).
Proof.
  induction lss as [|ls lss IH]; [done|]. csimpl. by rewrite join_app, IH.
Qed.

(** the memory of a concatenation is the memories put end to end, when
    the arrays are of one type *)
Lemma tobytes_joined (d : dtype) (arrays : list ndarray) :
  Forall (λ a, nd_dtype a = d) arrays →
  tobytes (mk_ndarray d (mjoin (nd_items <$> arrays)))
  = mjoin (tobytes <$> arrays).
Proof.
  intros Hall. unfold tobytes. simpl.
  rewrite join_join_fmap, join_join. f_equal.
  rewrite <- !list_fmap_compose.
  apply Forall_fmap_ext_1. eapply Forall_impl; [exact Hall|].
  intros a Hd. simpl. by rewrite Hd.
Qed.

Section Further.

Context `{Env : Environment}.

(** ** [__init__] on an array *)

(** the footer length of an array that holds at least the two trailers *)
Lemma footer_length_item (memmap : list byte) :
  (8 ≤ length memmap)%nat →
  view lt_i4 (py_slice memmap (-8) (-4))
  = Ok (mk_ndarray lt_i4
          [decode_item lt_i4 (take 4 (drop (length memmap - 8) memmap))]).
Proof.
  intros Hlen.
  assert (Hs : py_slice memmap (-8) (-4)
               = take 4 (drop (length memmap - 8) memmap)).
  { unfold py_slice, clip_index. simpl.
    rewrite !Z.max_l by lia.
    replace (Z.to_nat (-4 + Z.of_nat (length memmap)
                       - (-8 + Z.of_nat (length memmap)))) with 4%nat by lia.
    by replace (Z.to_nat (-8 + Z.of_nat (length memmap)))
      with (length memmap - 8)%nat by lia. }
  rewrite Hs. set (packed := take 4 _).
  assert (Hp : length packed = 4%nat)
    by (unfold packed; rewrite length_take, length_drop; lia).
  unfold view. rewrite Hp. simpl. by rewrite take_ge by lia.
Qed.

Lemma init_memmap_short (memmap : list byte) :
  (length memmap < 8)%nat → init_memmap memmap = Raise ValueError.
Proof.
  intros Hlen. unfold init_memmap.
  assert (Hs : (length (py_slice memmap (-8) (-4)) < 4)%nat).
  { unfold py_slice, clip_index. simpl. rewrite length_take. lia. }
  destruct (py_slice memmap (-8) (-4)) as [|? [|? [|? [|? ?]]]];
    simpl in Hs; try lia; done.
Qed.

Lemma init_memmap_unfold (memmap : list byte) :
  (8 ≤ length memmap)%nat →
  init_memmap memmap
  = if negb (bool_decide (take 4 memmap = PAR1)) then Raise ValueError
    else if negb (bool_decide (drop (length memmap - 4) memmap = PAR1))
    then Raise ValueError
    else '(footer, _) ←
           read_memmap FileMetaData_read memmap
             (Z.of_nat (length memmap)
              - (decode_item lt_i4
                   (take 4 (drop (length memmap - 8) memmap)) + 8));
         Ok footer.
Proof.
  intros Hlen. unfold init_memmap.
  rewrite footer_length_item by done.
  rewrite (py_slice_tail memmap (-4)) by lia.
  rewrite (py_slice_inside memmap 0 4) by lia.
  done.
Qed.

(** X1.  An array that [ParquetFile] accepts holds at least eight bytes,
    begins and ends with the four bytes PAR1, and is left as the handle of
    the object; the footer was read by the reader started at the length of
    the array minus the little-endian number in the four bytes before the
    closing magic, minus eight.  The walk keeps the row groups and the
    number of schema elements of what was read. *)
Theorem X1_init_memmap_framing (memmap : list byte)
    (pf : ParquetFile FileObject) (file' : Handle FileObject) :
  __init__ (Memmap memmap) = Some (Ok pf, file') →
  file' = Memmap memmap
  ∧ handle pf = Memmap memmap
  ∧ (8 ≤ length memmap)%nat
  ∧ take 4 memmap = PAR1
  ∧ drop (length memmap - 4) memmap = PAR1
  ∧ ∃ parsed stop,
      read_memmap FileMetaData_read memmap
        (Z.of_nat (length memmap)
         - (decode_item lt_i4 (take 4 (drop (length memmap - 8) memmap)) + 8))
      = Ok (parsed, stop)
      ∧ FileMetaData.row_groups (footer pf) = FileMetaData.row_groups parsed
      ∧ length (FileMetaData.schema (footer pf))
        = length (FileMetaData.schema parsed).
Proof.
  unfold __init__. destruct thriftpy_imported; cbn [negb]; [|done].
  destruct (init_memmap memmap) as [parsed|] eqn:Hinit; [|done].
  destruct (fields_loop (S _) _ 0%nat []) as [[[s fs]|]|] eqn:Hwalk; [|done..].
  intros [= <- <-]. simpl.
  destruct (decide (8 ≤ length memmap)%nat) as [Hlen|Hshort].
  2:{ rewrite init_memmap_short in Hinit by lia. done. }
  rewrite init_memmap_unfold in Hinit by done.
  case_bool_decide as Hhead; simpl in Hinit; [|done].
  case_bool_decide as Htail; simpl in Hinit; [|done].
  destruct (read_memmap _ _ _) as [[parsed' stop]|] eqn:Hread; [|done].
  simpl in Hinit. injection Hinit as ->.
  split_and!; try done. exists parsed, stop. split_and!; try done.
  eapply fields_loop_spec in Hwalk as (index & Hinv & _);
    [|apply fields_inv_init].
  apply (fi_length _ _ _ _ Hinv).
Qed.

(** X2.  With thriftpy imported, an array of fewer than eight bytes, or
    whose first four or last four bytes are not PAR1, is refused with
    ValueError, whatever else it holds. *)
Theorem X2_init_memmap_rejects (memmap : list byte) :
  thriftpy_imported = true →
  (length memmap < 8)%nat
  ∨ take 4 memmap ≠ PAR1
  ∨ drop (length memmap - 4) memmap ≠ PAR1 →
  __init__ (Memmap memmap) = Some (Raise ValueError, Memmap memmap).
Proof.
  intros Hthrift Hbad. unfold __init__. rewrite Hthrift. cbn [negb].
  assert (Hinit : init_memmap memmap = Raise ValueError); [|by rewrite Hinit].
  destruct (decide (8 ≤ length memmap)%nat) as [Hlen|Hshort].
  2:{ apply init_memmap_short. lia. }
  rewrite init_memmap_unfold by done.
  destruct Hbad as [Hshort|[Hhead|Htail]]; [lia|..].
  - by rewrite bool_decide_eq_false_2.
  - case_bool_decide; simpl; [|done]. by rewrite bool_decide_eq_false_2.
Qed.

(** X23.  With thriftpy imported and a footer reader that begins by
    reading, a flat array of item size 1 with the magic at both ends whose
    footer length puts the start of the footer outside the array (the
    length plus eight exceeds the array, or is zero or less) is refused:
    with IOError when the array is contiguous, since the transport never
    reads before the start or beyond the end, and with ValueError when it
    is not, since line 76 cannot view its bytes as a number. *)
Theorem X23_init_memmap_footer_out_of_bounds (memmap : list byte)
    (contiguous : bool) :
  thriftpy_imported = true →
  (8 ≤ length memmap)%nat →
  take 4 memmap = PAR1 →
  drop (length memmap - 4) memmap = PAR1 →
  starts_with_read FileMetaData_read →
  (let footerbytes :=
     decode_item lt_i4 (take 4 (drop (length memmap - 8) memmap)) in
   Z.of_nat (length memmap) < footerbytes + 8 ∨ footerbytes + 8 ≤ 0) →
  construct (Ndarray 1 1 contiguous memmap)
  = Some (Raise (if contiguous then IOError else ValueError),
          Ndarray 1 1 contiguous memmap).
Proof.
  intros Hthrift Hlen Hhead Htail Hreads Hout.
  unfold construct. rewrite Hthrift. cbn [negb Nat.eqb orb].
  destruct contiguous; cbn [negb]; [|done].
  unfold __init__. rewrite Hthrift. cbn [negb].
  assert (Hinit : init_memmap memmap = Raise IOError); [|by rewrite Hinit].
  rewrite init_memmap_unfold by done.
  rewrite !bool_decide_eq_true_2 by done. cbn [negb].
  destruct FileMetaData_read as [a|e|n k]; [done..|].
  cbn [read_memmap]. unfold _read.
  set (index := Z.of_nat (length memmap) - _) in *.
  assert (Hidx : (0 <=? index) && (index <? Z.of_nat (length memmap)) = false).
  { cbv zeta in Hout.
    destruct (Z.leb_spec 0 index); [|done].
    destruct (Z.ltb_spec index (Z.of_nat (length memmap))); [|done].
    unfold index in *. lia. }
  by rewrite Hidx.
Qed.

(** ** [column] *)

(** what a page must be like for the loop body to accept it *)
Lemma page_body_accepts decompress schema meta deflevels replevels data pg
    segs segs' :
  page_body decompress schema meta deflevels replevels data pg segs
  = Ok segs' →
  plain_page pg
  ∧ ∃ uncompressed a,
      decompress (pg_compressed pg) = Ok uncompressed
      ∧ _plain uncompressed meta = Ok a.
Proof.
  unfold page_body, plain_page.
  destruct (decompress (pg_compressed pg)) as [u|]; [|done]. simpl.
  destruct (SchemaElement.required schema) as [[]|]; simpl; [| |done].
  2:{ destruct (SchemaElement.maxdef schema); done. }
  destruct (SchemaElement.path schema) as [path|]; simpl; [|done].
  destruct (Nat.ltb_spec 1 (length path)); simpl.
  { destruct (SchemaElement.maxrep schema); done. }
  destruct (PageHeader.data_page_header (pg_header pg)) as [dph|]; simpl;
    [|done].
  destruct (DataPageHeader.encoding dph) eqn:Henc; simpl; [|done..].
  rewrite py_slice_from_0.
  destruct (_plain u meta) as [a|] eqn:Hplain; simpl; [|done].
  intros _. split; [by exists dph|]. by exists u, a.
Qed.

Lemma page_loop_accepts decompress schema meta deflevels replevels data fuel :
  ∀ h index start pages segs pages' segs' h',
    page_loop fuel decompress schema meta deflevels replevels data
      h index start pages segs = Some (Ok (pages', segs'), h') →
    ∃ new,
      pages' = pages ++ new
      ∧ Forall (λ pg, ∃ segs0 segs1,
                  page_body decompress schema meta deflevels replevels data
                    pg segs0 = Ok segs1) new.
Proof.
  induction fuel as [|fuel IH];
    intros h index start pages segs pages' segs' h' Hrun; [done|].
  cbn [page_loop] in Hrun. case_match.
  2:{ simplify_eq. exists []. by rewrite app_nil_r. }
  destruct (pagereader_step h index start) as [[[pg index1]|] h1]; [|done].
  destruct (page_body _ _ _ _ _ _ pg segs) as [segs1|] eqn:Hbody; [|done].
  apply IH in Hrun as (new & -> & Hall).
  exists (pg :: new). split; [by rewrite <- app_assoc|].
  constructor; [by exists segs, segs1|done].
Qed.

(** X15.  Whenever [column] returns after having read at least one page,
    the schema element is required and its path has at most one name, every
    page read is PLAIN, the codec of the chunk is UNCOMPRESSED or SNAPPY,
    and the type of the column is INT32, INT64, INT96, FLOAT or DOUBLE. *)
Theorem X15_column_reads_only_flat_required_plain (fuel : nat)
    (self : ParquetFile FileObject) (rowgroupid : Z)
    (schema : SchemaElement.t) (deflevels replevels data parallel : bool)
    (pages : list page) (out : list (option ndarray))
    (h' : Handle FileObject) :
  column_run fuel self rowgroupid schema deflevels replevels data parallel
  = Some (Ok (pages, out), h') →
  pages ≠ [] →
  parallel = false
  ∧ SchemaElement.required schema = Some true
  ∧ (∃ path, SchemaElement.path schema = Some path ∧ (length path ≤ 1)%nat)
  ∧ Forall plain_page pages
  ∧ ∃ rowgroup chunk meta,
      py_index (FileMetaData.row_groups (footer self)) rowgroupid
      = Ok rowgroup
      ∧ find_column (RowGroup.columns rowgroup) schema = Ok (Some chunk)
      ∧ ColumnChunk.meta_data chunk = Some meta
      ∧ ColumnMetaData.codec meta ∈ [UNCOMPRESSED; SNAPPY]
      ∧ ColumnMetaData.type meta ∈ [INT32; INT64; INT96; FLOAT; DOUBLE].
Proof.
  unfold column_run. intros Hrun Hpages.
  destruct parallel; [done|].
  destruct (py_index _ _) as [rowgroup|] eqn:Hrg; [|done].
  destruct (find_column _ _) as [[chunk|]|] eqn:Hfind; [|done..].
  destruct (ColumnChunk.meta_data chunk) as [meta|] eqn:Hmeta; [|done].
  destruct (select_decompress _) as [decompress|] eqn:Hcodec; [|done].
  destruct (pagereader_start _ _) as [[|] h1]; [|done].
  destruct (page_loop _ _ _ _ _ _ _ _ _ _ _ _)
    as [[[[pages1 segs]|] h2]|] eqn:Hloop; [|done..].
  destruct (build_out _ _ _ _) as [out1|]; [|done]. injection Hrun as -> _ _.
  apply page_loop_accepts in Hloop as (new & Hnew & Hall).
  simpl in Hnew. subst new.
  destruct pages as [|pg pages]; [done|].
  pose proof (Forall_inv Hall) as (segs0 & segs1 & Hfirst).
  pose proof (page_body_inv _ _ _ _ _ _ _ _ _ Hfirst) as (Hreq & Hpath & _).
  apply page_body_accepts in Hfirst as (_ & u & arr & Hdec & Hplain).
  split_and!; try done.
  - eapply Forall_impl; [exact Hall|]. intros pg' (s0 & s1 & Hb).
    by apply page_body_accepts in Hb as [? _].
  - exists rowgroup, chunk, meta. split_and!; try done.
    + unfold select_decompress in Hcodec.
      destruct (ColumnMetaData.codec meta); try done.
      * apply list_elem_of_here.
      * apply list_elem_of_further, list_elem_of_here.
      * injection Hcodec as <-. done.
    + apply plain_inv in Hplain as (Hty & _).
      destruct (ColumnMetaData.type meta);
        repeat (apply elem_of_cons in Hty as [[= Hty]|Hty]; try done);
        try (by apply elem_of_nil in Hty);
        repeat first [apply list_elem_of_here | apply list_elem_of_further].
Qed.

(** X14.  For a chunk whose [num_values] is zero or less, [column] reads
    no page and returns None in every slot that is switched on, whatever
    the schema element is (required or not, nested or not); a file object
    has only been moved to the offset of the chunk. *)
Theorem X14_column_empty_chunk (fuel : nat) (self : ParquetFile FileObject)
    (rowgroupid : Z) (schema : SchemaElement.t)
    (deflevels replevels data : bool)
    (rowgroup : RowGroup.t) (chunk : ColumnChunk.t)
    (meta : ColumnMetaData.t) (decompress : list byte → result (list byte))
    (h1 : Handle FileObject) :
  py_index (FileMetaData.row_groups (footer self)) rowgroupid = Ok rowgroup →
  find_column (RowGroup.columns rowgroup) schema = Ok (Some chunk) →
  ColumnChunk.meta_data chunk = Some meta →
  select_decompress (ColumnMetaData.codec meta) = Ok decompress →
  ColumnMetaData.num_values meta ≤ 0 →
  pagereader_start (handle self) (ColumnChunk.file_offset chunk)
  = (Ok (), h1) →
  (1 ≤ fuel)%nat →
  column_run fuel self rowgroupid schema deflevels replevels data false
  = Some (Ok ([], empty_out deflevels replevels data), h1).
Proof.
  intros Hrg Hfind Hmeta Hcodec Hnum Hstart Hfuel.
  destruct fuel as [|fuel]; [lia|].
  unfold column_run. rewrite Hrg, Hfind, Hmeta, Hcodec, Hstart.
  cbn [page_loop].
  destruct (Z.ltb_spec 0 (ColumnMetaData.num_values meta)); [lia|].
  by rewrite build_out_levels_absent.
Qed.

(** X12.  With [n] row groups, [column] on a row group id outside
    [-n, n) raises IndexError and leaves the object as it was; an id inside
    behaves as the id reduced modulo [n], so a negative id counts from the
    last row group. *)
Theorem X12_column_rowgroup_index (fuel : nat) (self : ParquetFile FileObject)
    (rowgroupid : Z) (schema : SchemaElement.t)
    (deflevels replevels data : bool) :
  let n := Z.of_nat (length (FileMetaData.row_groups (footer self))) in
  column fuel self rowgroupid schema deflevels replevels data false
  = if decide (- n ≤ rowgroupid < n)
    then column fuel self (rowgroupid mod n) schema deflevels replevels data
           false
    else Some (Raise IndexError, self).
Proof.
  intros n. destruct (decide (- n ≤ rowgroupid < n)) as [Hin|Hout].
  - assert (Hidx : py_index (FileMetaData.row_groups (footer self)) rowgroupid
                   = py_index (FileMetaData.row_groups (footer self))
                       (rowgroupid mod n)).
    { unfold py_index. fold n.
      pose proof (Z.mod_pos_bound rowgroupid n ltac:(lia)) as Hm.
      destruct (Z.ltb_spec (rowgroupid mod n) 0); [lia|].
      destruct (Z.ltb_spec rowgroupid 0).
      - replace (rowgroupid mod n) with (rowgroupid + n); [done|].
        apply (Z.mod_unique _ _ (-1)); lia.
      - by rewrite Z.mod_small by lia. }
    unfold column, column_run. by rewrite Hidx.
  - unfold column, column_run, py_index. fold n.
    assert (Hno : (let j := if rowgroupid <? 0 then rowgroupid + n
                            else rowgroupid in
                   (0 <=? j) && (j <? n)) = false).
    { simpl. destruct (Z.ltb_spec rowgroupid 0).
      - destruct (Z.leb_spec 0 (rowgroupid + n)); [|done].
        destruct (Z.ltb_spec (rowgroupid + n) n); [lia|done].
      - destruct (Z.ltb_spec rowgroupid n); [lia|]. by rewrite andb_false_r. }
    simpl in Hno. rewrite Hno. by destruct self.
Qed.

(** X13.  When the codec of the chunk is refused, [column] raises before
    it touches the handle (the object is unchanged, also for a file
    object).  The refusal is ImportError for SNAPPY without the snappy
    module, NotImplementedError for LZO, BROTLI, LZ4 and ZSTD, and
    AssertionError for a codec the code does not name. *)
Theorem X13_column_codec_refused_before_io (fuel : nat)
    (self : ParquetFile FileObject) (rowgroupid : Z)
    (schema : SchemaElement.t) (deflevels replevels data : bool)
    (rowgroup : RowGroup.t) (chunk : ColumnChunk.t)
    (meta : ColumnMetaData.t) (e : exn) :
  py_index (FileMetaData.row_groups (footer self)) rowgroupid = Ok rowgroup →
  find_column (RowGroup.columns rowgroup) schema = Ok (Some chunk) →
  ColumnChunk.meta_data chunk = Some meta →
  select_decompress (ColumnMetaData.codec meta) = Raise e →
  column fuel self rowgroupid schema deflevels replevels data false
  = Some (Raise e, self)
  ∧ ((e = ImportError ∧ ColumnMetaData.codec meta = SNAPPY ∧ snappy = None)
     ∨ (e = NotImplementedError
        ∧ ColumnMetaData.codec meta ∈ [LZO; BROTLI; LZ4; ZSTD])
     ∨ (e = AssertionError
        ∧ ∃ tag, ColumnMetaData.codec meta = OtherCodec tag)).
Proof.
  intros Hrg Hfind Hmeta Hcodec. split.
  { unfold column, column_run. rewrite Hrg, Hfind, Hmeta, Hcodec.
    by destruct self. }
  unfold select_decompress in Hcodec.
  destruct (ColumnMetaData.codec meta); try done.
  - destruct snappy eqn:Hsnappy; [done|]. injection Hcodec as <-. by left.
  - injection Hcodec as <-. right. left. split; [done|].
    apply list_elem_of_here.
  - injection Hcodec as <-. right. left. split; [done|].
    apply list_elem_of_further, list_elem_of_here.
  - injection Hcodec as <-. right. left. split; [done|].
    do 2 apply list_elem_of_further. apply list_elem_of_here.
  - injection Hcodec as <-. right. left. split; [done|].
    do 3 apply list_elem_of_further. apply list_elem_of_here.
  - injection Hcodec as <-. right. right. split; [done|]. by eexists.
Qed.

(** X18.  For an UNCOMPRESSED chunk, when [column] returns with [data]
    on after reading at least one page, the last slot is an array whose
    memory is the payloads of the pages read, in order, end to end, and
    whose item type is the one [_plain] gives the type of the column. *)
Theorem X18_column_uncompressed_bytes (fuel : nat)
    (self : ParquetFile FileObject) (rowgroupid : Z)
    (schema : SchemaElement.t) (deflevels replevels : bool)
    (pages : list page) (out : list (option ndarray))
    (h' : Handle FileObject) (rowgroup : RowGroup.t) (chunk : ColumnChunk.t)
    (meta : ColumnMetaData.t) :
  column_run fuel self rowgroupid schema deflevels replevels true false
  = Some (Ok (pages, out), h') →
  py_index (FileMetaData.row_groups (footer self)) rowgroupid = Ok rowgroup →
  find_column (RowGroup.columns rowgroup) schema = Ok (Some chunk) →
  ColumnChunk.meta_data chunk = Some meta →
  ColumnMetaData.codec meta = UNCOMPRESSED →
  pages ≠ [] →
  ∃ a, last out = Some (Some a)
       ∧ tobytes a = mjoin (pg_compressed <$> pages)
       ∧ (ColumnMetaData.type meta, nd_dtype a)
           ∈ [(INT32, lt_i4); (INT64, lt_i8); (INT96, S12); (FLOAT, lt_f4);
              (DOUBLE, lt_f8)].
Proof.
  intros Hrun Hrg Hfind Hmeta Hcodec Hpages.
  apply column_run_inv in Hrun
    as (_ & rowgroup' & chunk' & meta' & decompress & arrays & Hrg' & Hfind'
        & Hmeta' & Hdec & _ & _ & Hall & ->).
  rewrite Hrg in Hrg'. injection Hrg' as <-.
  rewrite Hfind in Hfind'. injection Hfind' as <-.
  rewrite Hmeta in Hmeta'. injection Hmeta' as <-.
  rewrite Hcodec in Hdec. injection Hdec as <-.
  assert (Hpage : Forall2 (λ pg a, _plain (pg_compressed pg) meta = Ok a)
                    pages arrays).
  { eapply Forall2_impl; [exact Hall|]. intros pg a.
    unfold page_values. simpl. by rewrite py_slice_from_0. }
  clear Hall.
  destruct Hpage as [|pg a0 pages arrays Hfirst Hrest]; [by destruct Hpages|].
  exists (mk_ndarray (nd_dtype a0) (mjoin (nd_items <$> a0 :: arrays))).
  split_and!.
  - by rewrite !last_app.
  - rewrite tobytes_joined.
    + csimpl. f_equal.
      * by apply plain_inv in Hfirst as (_ & _ & ?).
      * clear Hfirst Hpages. induction Hrest as [|pg' a' ps as' Hp _ IH]; [done|].
        csimpl. f_equal; [|done]. by apply plain_inv in Hp as (_ & _ & ?).
    + constructor; [done|].
      clear Hpages. induction Hrest as [|pg' a' ps as' Hp _ IH]; [done|].
      constructor; [|done]. symmetry. by eapply plain_dtype.
  - simpl. by apply plain_inv in Hfirst as (? & _).
Qed.

(** X17.  For a required element with a path of at most one name, a
    first page that is not PLAIN makes [column] raise: NotImplementedError
    for PLAIN_DICTIONARY, AssertionError for any other encoding. *)
Theorem X17_column_page_encoding (fuel : nat) (self : ParquetFile FileObject)
    (rowgroupid : Z) (schema : SchemaElement.t)
    (deflevels replevels data : bool)
    (rowgroup : RowGroup.t) (chunk : ColumnChunk.t)
    (meta : ColumnMetaData.t) (decompress : list byte → result (list byte))
    (h1 h2 : Handle FileObject) (pg : page) (index' : Z)
    (uncompressed : list byte) (path : list string)
    (dph : DataPageHeader.t) :
  py_index (FileMetaData.row_groups (footer self)) rowgroupid = Ok rowgroup →
  find_column (RowGroup.columns rowgroup) schema = Ok (Some chunk) →
  ColumnChunk.meta_data chunk = Some meta →
  select_decompress (ColumnMetaData.codec meta) = Ok decompress →
  0 < ColumnMetaData.num_values meta →
  pagereader_start (handle self) (ColumnChunk.file_offset chunk)
  = (Ok (), h1) →
  pagereader_step h1 (ColumnChunk.file_offset chunk) 0
  = (Ok (pg, index'), h2) →
  decompress (pg_compressed pg) = Ok uncompressed →
  SchemaElement.required schema = Some true →
  SchemaElement.path schema = Some path →
  (length path ≤ 1)%nat →
  PageHeader.data_page_header (pg_header pg) = Some dph →
  DataPageHeader.encoding dph ≠ PLAIN →
  (1 ≤ fuel)%nat →
  column fuel self rowgroupid schema deflevels replevels data false
  = Some (Raise (match DataPageHeader.encoding dph with
                 | PLAIN_DICTIONARY => NotImplementedError
                 | _ => AssertionError
                 end),
          mk_ParquetFile h2 (footer self) (fields self)).
Proof.
  intros Hrg Hfind Hmeta Hcodec Hnum Hstart Hstep Hdec Hreq Hpath Hlen Hdph
    Henc Hfuel.
  destruct fuel as [|fuel]; [lia|].
  assert (Hbody :
    page_body decompress schema meta deflevels replevels data pg
      (mk_segments [] [] [])
    = Raise (match DataPageHeader.encoding dph with
             | PLAIN_DICTIONARY => NotImplementedError
             | _ => AssertionError
             end)).
  { unfold page_body. rewrite Hdec, Hreq, Hpath, Hdph. simpl.
    destruct (Nat.ltb_spec 1 (length path)); [lia|]. simpl.
    by destruct (DataPageHeader.encoding dph). }
  unfold column, column_run.
  rewrite Hrg, Hfind, Hmeta, Hcodec, Hstart.
  by rewrite (page_loop_first_page_fails _ _ _ _ _ _ _ _ _ _ _ _ _ _
                Hnum Hstep Hbody).
Qed.

(** X16.  In a file that [__init__] accepted, a schema element that is
    not the root and not in [fields] has a path of two names or more, and
    [column] on it raises NotImplementedError at the first page it reads
    and decompresses. *)
Theorem X16_column_nested_refused (file : Handle FileObject)
    (pf : ParquetFile FileObject) (file' : Handle FileObject) (i : nat)
    (schema : SchemaElement.t) (rowgroupid : Z) (rowgroup : RowGroup.t)
    (chunk : ColumnChunk.t) (meta : ColumnMetaData.t)
    (decompress : list byte → result (list byte))
    (h1 h2 : Handle FileObject) (pg : page) (index' : Z)
    (uncompressed : list byte) (fuel : nat)
    (deflevels replevels data : bool) :
  __init__ file = Some (Ok pf, file') →
  (1 ≤ i)%nat →
  i ∉ fields pf →
  FileMetaData.schema (footer pf) !! i = Some schema →
  py_index (FileMetaData.row_groups (footer pf)) rowgroupid = Ok rowgroup →
  find_column (RowGroup.columns rowgroup) schema = Ok (Some chunk) →
  ColumnChunk.meta_data chunk = Some meta →
  select_decompress (ColumnMetaData.codec meta) = Ok decompress →
  0 < ColumnMetaData.num_values meta →
  pagereader_start (handle pf) (ColumnChunk.file_offset chunk) = (Ok (), h1) →
  pagereader_step h1 (ColumnChunk.file_offset chunk) 0
  = (Ok (pg, index'), h2) →
  decompress (pg_compressed pg) = Ok uncompressed →
  (1 ≤ fuel)%nat →
  (∃ path, SchemaElement.path schema = Some path ∧ (2 ≤ length path)%nat)
  ∧ column fuel pf rowgroupid schema deflevels replevels data false
    = Some (Raise NotImplementedError,
            mk_ParquetFile h2 (footer pf) (fields pf)).
Proof.
  intros Hinit Hi Hnot Hschema Hrg Hfind Hmeta Hcodec Hnum Hstart Hstep Hdec
    Hfuel.
  apply init_inv in Hinit as (_ & parsed & Hwalk & _).
  eapply fields_loop_spec in Hwalk as (index & Hinv & Hexit);
    [|apply fields_inv_init].
  pose proof (lookup_lt_Some _ _ _ Hschema) as Hlt.
  assert (Hrange : (1 ≤ i ≤ index)%nat) by lia.
  destruct (fi_covered _ _ _ _ Hinv i Hrange) as [Hin|(p & Hp & Hchild)];
    [done|].
  destruct Hchild as (ep & cs & Hep & Hcs & Hic).
  destruct (fi_parents _ _ _ _ Hinv p ltac:(lia))
    as (ep' & cs' & pp & d & r & Hep' & Hcs' & Hpp & Hd & Hr & Hkids).
  rewrite Hep in Hep'. injection Hep' as <-.
  rewrite Hcs in Hcs'. injection Hcs' as <-.
  destruct (Hkids i Hic) as (_ & e & He & Hpath & Hreq & Hmaxdef & Hmaxrep).
  rewrite Hschema in He. injection He as <-.
  destruct (visited_complete _ _ _ _ p Hinv ltac:(lia)) as (pp0 & d0 & r0 & Hv).
  destruct (visited_sound _ _ _ _ _ _ _ _ Hinv Hv)
    as (_ & ep' & Hep' & Hppath & _).
  rewrite Hep in Hep'. injection Hep' as <-.
  rewrite Hpp in Hppath. injection Hppath as ->.
  assert (Hlen : (2 ≤ length (pp0 ++ [SchemaElement.name ep]
                               ++ [SchemaElement.name schema]))%nat)
    by (rewrite !length_app; simpl; lia).
  rewrite <- app_assoc in Hpath.
  split; [by eexists|].
  destruct fuel as [|fuel]; [lia|].
  assert (Hbody :
    page_body decompress schema meta deflevels replevels data pg
      (mk_segments [] [] [])
    = Raise NotImplementedError).
  { unfold page_body. rewrite Hdec, Hreq. simpl.
    destruct (is_required schema); simpl.
    - rewrite Hpath. simpl.
      match goal with
      | |- context [(1 <? ?n)%nat] =>
          destruct (Nat.ltb_spec 1 n) as [_|Hbad]
      end.
      + by rewrite Hmaxrep.
      + rewrite length_app in Hbad. simpl in Hbad. lia.
    - by rewrite Hmaxdef. }
  unfold column, column_run.
  rewrite Hrg, Hfind, Hmeta, Hcodec, Hstart.
  by rewrite (page_loop_first_page_fails _ _ _ _ _ _ _ _ _ _ _ _ _ _
                Hnum Hstep Hbody).
Qed.

Lemma page_loop_spins decompress schema meta deflevels replevels data
    (memmap : list byte) (index : Z) :
  (∀ start, ∃ pg',
      pagereader_step (Memmap memmap) index start
      = (Ok (pg', index), Memmap memmap)
      ∧ pg_stop pg' ≤ start
      ∧ ∀ segs, ∃ segs',
          page_body decompress schema meta deflevels replevels data pg' segs
          = Ok segs') →
  ∀ fuel start pages segs,
    start < ColumnMetaData.num_values meta →
    page_loop fuel decompress schema meta deflevels replevels data
      (Memmap memmap) index start pages segs = None.
Proof.
  intros Hstep fuel. induction fuel as [|fuel IH];
    intros start pages segs Hstart; [done|].
  cbn [page_loop].
  destruct (Z.ltb_spec start (ColumnMetaData.num_values meta)); [|lia].
  destruct (Hstep start) as (pg' & -> & Hstop & Hbody).
  destruct (Hbody segs) as (segs' & ->).
  apply IH. lia.
Qed.

(** X19.  On an array, for an UNCOMPRESSED fixed-width required column
    with values to read: if the page header at the offset of the chunk is
    PLAIN, counts no value, and has a compressed size that is negative by
    the length of the header (or zero with a header of no length), the
    page reader comes back to the same offset with [start] no larger, and
    the loop of [column] never ends: the run is out of fuel on every
    fuel. *)
Theorem X19_column_memmap_zero_progress (self : ParquetFile FileObject)
    (memmap : list byte) (rowgroupid : Z) (schema : SchemaElement.t)
    (deflevels replevels data : bool) (rowgroup : RowGroup.t)
    (chunk : ColumnChunk.t) (meta : ColumnMetaData.t) (path : list string)
    (header : PageHeader.t) (stop size : Z) (dph : DataPageHeader.t) :
  handle self = Memmap memmap →
  py_index (FileMetaData.row_groups (footer self)) rowgroupid = Ok rowgroup →
  find_column (RowGroup.columns rowgroup) schema = Ok (Some chunk) →
  ColumnChunk.meta_data chunk = Some meta →
  ColumnMetaData.codec meta = UNCOMPRESSED →
  ColumnMetaData.type meta ∈ [INT32; INT64; INT96; FLOAT; DOUBLE] →
  0 < ColumnMetaData.num_values meta →
  SchemaElement.required schema = Some true →
  SchemaElement.path schema = Some path →
  (length path ≤ 1)%nat →
  read_memmap PageHeader_read memmap (ColumnChunk.file_offset chunk)
  = Ok (header, stop) →
  PageHeader.compressed_page_size header = Some size →
  stop + size = ColumnChunk.file_offset chunk →
  0 ≤ ColumnChunk.file_offset chunk ≤ stop →
  PageHeader.data_page_header header = Some dph →
  DataPageHeader.num_values dph ≤ 0 →
  DataPageHeader.encoding dph = PLAIN →
  ∀ fuel,
    column fuel self rowgroupid schema deflevels replevels data false = None.
Proof.
  intros Hh Hrg Hfind Hmeta Hcodec Htype Hnum Hreq Hpath Hlen Hread Hsize Hback
    Hoff Hdph Hcount Henc fuel.
  unfold column, column_run.
  rewrite Hrg, Hfind, Hmeta, Hcodec, Hh. cbn [select_decompress pagereader_start].
  rewrite page_loop_spins; [done| |done].
  intros start.
  exists (mk_page header
            (py_slice memmap stop (stop + size)) start
            (start + DataPageHeader.num_values dph)).
  split_and!.
  - unfold pagereader_step. rewrite Hread. simpl. rewrite Hsize, Hdph.
    by rewrite Hback.
  - simpl. lia.
  - intros segs. unfold page_body. simpl. rewrite Hreq, Hpath. simpl.
    destruct (Nat.ltb_spec 1 (length path)); [lia|]. simpl.
    rewrite Hdph. simpl. rewrite Henc.
    assert (Hempty : py_slice memmap stop (stop + size) = []).
    { unfold py_slice, clip_index. rewrite Hback.
      destruct (Z.ltb_spec (ColumnChunk.file_offset chunk) 0); [lia|].
      destruct (Z.ltb_spec stop 0); [lia|].
      match goal with
      | |- take ?n _ = _ => replace n with 0%nat by lia
      end.
      done. }
    rewrite Hempty.
    assert (Hplain : ∃ a, _plain (py_slice_from [] 0) meta = Ok a).
    { unfold _plain.
      repeat (apply elem_of_cons in Htype as [->|Htype]);
        [..|by apply elem_of_nil in Htype]; by eexists. }
    destruct Hplain as [a ->]. by eexists.
Qed.

(** X24.  On an array, a page header without [compressed_page_size]
    makes [column] raise TypeError at the slice of line 171 and leave the
    object as it was; the test for None in line 172 is never reached with
    None. *)
Theorem X24_column_memmap_page_size_missing (fuel : nat)
    (self : ParquetFile FileObject) (memmap : list byte) (rowgroupid : Z)
    (schema : SchemaElement.t) (deflevels replevels data : bool)
    (rowgroup : RowGroup.t) (chunk : ColumnChunk.t)
    (meta : ColumnMetaData.t) (decompress : list byte → result (list byte))
    (header : PageHeader.t) (stop : Z) :
  handle self = Memmap memmap →
  py_index (FileMetaData.row_groups (footer self)) rowgroupid = Ok rowgroup →
  find_column (RowGroup.columns rowgroup) schema = Ok (Some chunk) →
  ColumnChunk.meta_data chunk = Some meta →
  select_decompress (ColumnMetaData.codec meta) = Ok decompress →
  0 < ColumnMetaData.num_values meta →
  read_memmap PageHeader_read memmap (ColumnChunk.file_offset chunk)
  = Ok (header, stop) →
  PageHeader.compressed_page_size header = None →
  (1 ≤ fuel)%nat →
  column fuel self rowgroupid schema deflevels replevels data false
  = Some (Raise TypeError, self).
Proof.
  intros Hh Hrg Hfind Hmeta Hcodec Hnum Hread Hsize Hfuel.
  destruct fuel as [|fuel]; [lia|].
  unfold column, column_run.
  rewrite Hrg, Hfind, Hmeta, Hcodec, Hh. cbn [pagereader_start page_loop].
  destruct (Z.ltb_spec 0 (ColumnMetaData.num_values meta)); [|lia].
  unfold pagereader_step. rewrite Hread. simpl. rewrite Hsize.
  rewrite <- Hh. by destruct self.
Qed.

End Further.

(** ** The sample files *)

#[local] Existing Instance sample_env.

Example init_file_required :
  __init__ (Memmap file_required)
  = Some (Ok (opened file_required x_required UNCOMPRESSED),
          Memmap file_required).
Proof. vm_compute. reflexivity. Qed.

Example init_file_optional :
  __init__ (Memmap file_optional)
  = Some (Ok (opened file_optional x_optional UNCOMPRESSED),
          Memmap file_optional).
Proof. vm_compute. reflexivity. Qed.

Example init_file_count_3 :
  __init__ (Memmap file_count_3)
  = Some (Ok (opened file_count_3 x_required UNCOMPRESSED),
          Memmap file_count_3).
Proof. vm_compute. reflexivity. Qed.

Example init_file_gzip :
  __init__ (Memmap file_gzip)
  = Some (Ok (opened file_gzip x_required GZIP), Memmap file_gzip).
Proof. vm_compute. reflexivity. Qed.

Example init_file_lzo :
  __init__ (Memmap file_lzo)
  = Some (Ok (opened file_lzo x_required LZO), Memmap file_lzo).
Proof. vm_compute. reflexivity. Qed.

Example init_file_two_fields :
  __init__ (Memmap file_two_fields)
  = Some (Ok opened_two_fields, Memmap file_two_fields).
Proof. vm_compute. reflexivity. Qed.

Example init_file_two_pages :
  __init__ (Memmap file_two_pages)
  = Some (Ok (opened file_two_pages x_required UNCOMPRESSED),
          Memmap file_two_pages).
Proof. vm_compute. reflexivity. Qed.

Example walk_nested_schema :
  fields_loop 6 nested_schema 0 [] = Some (Ok (nested_walked, [1; 4]%nat)).
Proof. vm_compute. reflexivity. Qed.

Example column_two_pages :
  column 3 (opened file_two_pages x_required UNCOMPRESSED) 0 x_required
    true true true false
  = Some (Ok [None; None; Some (mk_ndarray lt_i4 [1; 2; 3])],
          opened file_two_pages x_required UNCOMPRESSED).
Proof. vm_compute. reflexivity. Qed.

Example column_two_pages_swapped :
  column 3 (opened file_two_pages_swapped x_required UNCOMPRESSED) 0 x_required
    true true true false
  = Some (Ok [None; None; Some (mk_ndarray lt_i4 [3; 1; 2])],
          opened file_two_pages_swapped x_required UNCOMPRESSED).
Proof. vm_compute. reflexivity. Qed.

Example column_lzo :
  column 3 (opened file_lzo x_required LZO) 0 x_required true true true false
  = Some (Raise NotImplementedError, opened file_lzo x_required LZO).
Proof. vm_compute. reflexivity. Qed.

Example file_object_required :
  ∃ pf f, __init__ (File (BytesIO.mk file_required 0)) = Some (Ok pf, File f)
    ∧ BytesIO.pos f = 92
    ∧ ∃ f', column 2 pf 0 x_required true true true false
            = Some (Ok [None; None; Some (mk_ndarray lt_i4 [1; 2; 3])],
                    mk_ParquetFile (File f') (footer pf) (fields pf))
          ∧ BytesIO.pos f' = 33.
Proof.
  eexists _, _. split; [vm_compute; reflexivity|]. split; [reflexivity|].
  eexists. split; [vm_compute; reflexivity|reflexivity].
Qed.

Ltac evaluate :=
  first [ by repeat constructor
        | vm_compute; reflexivity
        | lia ].

(** C1 on [file_required]. *)
Lemma C1_witness :
  column 2 (opened file_required x_required UNCOMPRESSED) 0 x_required
    true true true false
  = Some (Ok [None; None; Some (mk_ndarray lt_i4 [1; 2; 3])],
          opened file_required x_required UNCOMPRESSED).
Proof.
  apply (C1_required_int32_column (Env := sample_env)
           (Memmap file_required) (opened file_required x_required UNCOMPRESSED)
           (Memmap file_required) 1%nat x_required
           (chunk_x UNCOMPRESSED) (meta_x UNCOMPRESSED)
           (Memmap file_required) (data_page 12 3 values_1_2_3) 33
           (Memmap file_required) 2); evaluate.
Defined.

(** C2 on [nested_schema]. *)
Lemma C2_witness :
  (∀ i, (1 ≤ i < length nested_schema)%nat →
        ∃ path d r, visited nested_walked [1; 4]%nat i path d r)
  ∧ ∀ i path maxdef_parent maxrep_parent,
      visited nested_walked [1; 4]%nat i path maxdef_parent maxrep_parent →
      ∃ e0 e,
        nested_schema !! i = Some e0 ∧ nested_walked !! i = Some e
        ∧ let required :=
            bool_decide (SchemaElement.repetition_type e0 = Some REQUIRED) in
          SchemaElement.required e = Some required
          ∧ SchemaElement.maxdef e
            = Some (maxdef_parent + (if required then 0 else 1))
          ∧ SchemaElement.maxrep e
            = Some (maxrep_parent + (if required then 1 else 0)).
Proof.
  apply (C2_flatten_levels 6 nested_schema nested_walked [1; 4]%nat).
  vm_compute. reflexivity.
Defined.

(** Against C3 as stated: [column] returns for [file_count_3], whose chunk
    announces three values, after one page of five. *)
Lemma C3_counterexample :
  ∃ pages out h,
    column_run 2 (opened file_count_3 x_required UNCOMPRESSED) 0 x_required
      true true true false
    = Some (Ok (pages, out), h)
    ∧ out = [None; None; Some (mk_ndarray lt_i4 [1; 2; 3; 4; 5])]
    ∧ total_values pages = 5
    ∧ total_values pages ≠ ColumnMetaData.num_values (meta_x UNCOMPRESSED).
Proof.
  exists [data_page 20 5 values_1_to_5],
    [None; None; Some (mk_ndarray lt_i4 [1; 2; 3; 4; 5])],
    (Memmap file_count_3).
  split; [vm_compute; reflexivity|]. by split_and!.
Qed.

(** C3, as amended, on [file_two_pages]. *)
Lemma C3_witness :
  ColumnMetaData.num_values (meta_x UNCOMPRESSED) ≤ total_values two_pages
  ∧ (∀ k, (k < length two_pages)%nat →
          total_values (take k two_pages)
          < ColumnMetaData.num_values (meta_x UNCOMPRESSED))
  ∧ ∃ arrays,
      Forall2
        (λ pg a, page_values (λ c, Ok c) (meta_x UNCOMPRESSED) pg = Ok a)
        two_pages arrays
      ∧ last [None; None; Some (mk_ndarray lt_i4 [1; 2; 3])]
        = Some (joined arrays)
      ∧ ∀ a, joined arrays = Some a →
             nd_items a = mjoin (nd_items <$> arrays).
Proof.
  apply (C3_pages_reach_count_and_concatenate (Env := sample_env)
           3 (opened file_two_pages x_required UNCOMPRESSED) 0 x_required
           true true two_pages
           [None; None; Some (mk_ndarray lt_i4 [1; 2; 3])]
           (Memmap file_two_pages)
           (RowGroup.mk [chunk_x UNCOMPRESSED]) (chunk_x UNCOMPRESSED)
           (meta_x UNCOMPRESSED) (λ c, Ok c)); evaluate.
Defined.

(** C4 on the twelve bytes of 1, 2, 3. *)
Lemma C4_witness :
  ∃ a, _plain values_1_2_3 (meta_x UNCOMPRESSED) = Ok a
       ∧ length (nd_items a) = 3%nat
       ∧ itemsize (nd_dtype a) = 4%nat
       ∧ tobytes a = values_1_2_3.
Proof.
  apply (C4_plain_roundtrip (meta_x UNCOMPRESSED) values_1_2_3 3 4 INT32);
    evaluate.
Defined.

(** Against C5 as stated: on [file_optional] the call raises, on any fuel. *)
Lemma C5_counterexample :
  column 2 (opened file_optional x_optional UNCOMPRESSED) 0 x_optional
    true true true false
  = Some (Raise NotImplementedError,
          opened file_optional x_optional UNCOMPRESSED)
  ∧ SchemaElement.maxdef x_optional = Some 1
  ∧ ∀ fuel out self',
      column fuel (opened file_optional x_optional UNCOMPRESSED) 0 x_optional
        true true true false
      ≠ Some (Ok out, self').
Proof.
  split; [vm_compute; reflexivity|]. split; [done|].
  intros fuel out self' Hrun.
  assert (Hbase :
    column 1 (opened file_optional x_optional UNCOMPRESSED) 0 x_optional
      true true true false
    = Some (Raise NotImplementedError,
            opened file_optional x_optional UNCOMPRESSED))
    by (vm_compute; reflexivity).
  destruct fuel as [|fuel]; [discriminate Hrun|].
  pose proof (column_fuel (Env := sample_env) 1 (S fuel) _ _ _ _ _ _ _ _
                Hbase ltac:(lia)) as Hmore.
  rewrite Hmore in Hrun. discriminate Hrun.
Qed.

(** C5, as amended, on [file_optional]. *)
Lemma C5_witness :
  SchemaElement.maxdef x_optional = Some 1
  ∧ column 1 (opened file_optional x_optional UNCOMPRESSED) 0 x_optional
      true true true false
    = Some (Raise NotImplementedError,
            opened file_optional x_optional UNCOMPRESSED).
Proof.
  apply (C5_optional_column_not_supported (Env := sample_env)
           (Memmap file_optional) (opened file_optional x_optional UNCOMPRESSED)
           (Memmap file_optional) 1%nat x_optional 0
           (RowGroup.mk [chunk_x UNCOMPRESSED]) (chunk_x UNCOMPRESSED)
           (meta_x UNCOMPRESSED) (λ c, Ok c)
           (Memmap file_optional)
           (data_page 18 3 (levels_all_defined ++ values_1_2_3)) 39
           (Memmap file_optional) (levels_all_defined ++ values_1_2_3)
           1 true true true); evaluate.
Defined.

(** C7, at a failing input.  On a file whose chunk is GZIP, with a page that
    is a valid gzip member of the bytes of 1, 2, 3, [column] raises NameError
    instead of returning the values. *)
Theorem C7_gzip_column_raises_NameError :
  column 2 (opened file_gzip x_required GZIP) 0 x_required true true true false
  = Some (Raise NameError, opened file_gzip x_required GZIP).
Proof. vm_compute. reflexivity. Qed.

(** C8, at a failing input.  The row group holds a chunk for [x] only;
    asking for the field [y] raises NameError, not AssertionError. *)
Theorem C8_missing_column_raises_NameError :
  column 2 opened_two_fields 0 y_required true true true false
  = Some (Raise NameError, opened_two_fields).
Proof. vm_compute. reflexivity. Qed.

(** Against C9 as stated: with [deflevels] off the tuple has two slots. *)
Lemma C9_counterexample :
  ∃ out,
    column 2 (opened file_required x_required UNCOMPRESSED) 0 x_required
      false true true false
    = Some (Ok out, opened file_required x_required UNCOMPRESSED)
    ∧ out = [None; Some (mk_ndarray lt_i4 [1; 2; 3])]
    ∧ length out ≠ 3%nat.
Proof. eexists. split; [vm_compute; reflexivity|]. by split. Qed.

(** C9, as amended, on [file_required]. *)
Lemma C9_witness :
  ∃ pages values,
    pages_read 2 (opened file_required x_required UNCOMPRESSED) 0 x_required
      false true true false
    = Some (Ok pages)
    ∧ [None; Some (mk_ndarray lt_i4 [1; 2; 3])]
      = [] ++ [None] ++ [values]
    ∧ (values = None ↔ pages = []).
Proof.
  apply (C9_result_slots (Env := sample_env) 2
           (opened file_required x_required UNCOMPRESSED) 0
           x_required false true true false
           [None; Some (mk_ndarray lt_i4 [1; 2; 3])]
           (opened file_required x_required UNCOMPRESSED)); evaluate.
Defined.

(** [column] on the objects of [file_required], as an array and as a
    file object *)
Example column_on_file_required :
  column_on 2 2 0 x_required true true true false
    (objects_of (opened file_required x_required UNCOMPRESSED))
  = Some (Ok [None; None; Some (mk_ndarray lt_i4 [1; 2; 3])],
          objects_of (opened file_required x_required UNCOMPRESSED)
          ++ [ArrayTransport 0 21]).
Proof. vm_compute. reflexivity. Qed.

Example column_on_moves_file_object :
  ∃ r σ',
    column_on 2 2 0 x_required true true true false
      (objects_of
         (mk_ParquetFile (File (BytesIO.mk file_required 92))
            (footer (opened file_required x_required UNCOMPRESSED)) [1%nat]))
    = Some (r, σ')
    ∧ r = Ok [None; None; Some (mk_ndarray lt_i4 [1; 2; 3])]
    ∧ σ' !! 0%nat = Some (FileObj (BytesIO.mk file_required 33)).
Proof.
  eexists _, _. split; [vm_compute; reflexivity|]. by split.
Qed.


(** with a file object the same call moves the position of the handle *)
Example column_moves_file_position :
  ∃ pf f r pf',
    __init__ (File (BytesIO.mk file_required 0)) = Some (Ok pf, File f)
    ∧ column 2 pf 0 x_required true true true false = Some (r, pf')
    ∧ pf' ≠ pf.
Proof.
  eexists _, _, _, _. split; [vm_compute; reflexivity|].
  split; [vm_compute; reflexivity|]. intros [=].
Qed.

(** ** The further samples *)

Example init_file_empty_chunk :
  __init__ (Memmap file_empty_chunk)
  = Some (Ok opened_empty_chunk, Memmap file_empty_chunk).
Proof. vm_compute. reflexivity. Qed.

Example init_file_snappy :
  __init__ (Memmap file_snappy)
  = Some (Ok (opened file_snappy x_required SNAPPY), Memmap file_snappy).
Proof. vm_compute. reflexivity. Qed.

Example init_file_dictionary :
  __init__ (Memmap file_dictionary)
  = Some (Ok (opened file_dictionary x_required UNCOMPRESSED),
          Memmap file_dictionary).
Proof. vm_compute. reflexivity. Qed.

Example init_file_nested :
  __init__ (Memmap file_nested) = Some (Ok opened_nested, Memmap file_nested).
Proof. vm_compute. reflexivity. Qed.

Example init_file_zero_progress :
  __init__ (Memmap file_zero_progress)
  = Some (Ok (opened file_zero_progress x_required UNCOMPRESSED),
          Memmap file_zero_progress).
Proof. vm_compute. reflexivity. Qed.

Example init_file_no_size :
  __init__ (Memmap file_no_size)
  = Some (Ok (opened file_no_size x_required UNCOMPRESSED),
          Memmap file_no_size).
Proof. vm_compute. reflexivity. Qed.

Example walk_flat_schema :
  fields_loop 4 flat_schema 0 []
  = Some (Ok ([schema_root 2;
               SchemaElement.mk "x" (Some REQUIRED) (Some 0) (Some [])
                 (Some ["x"%string]) (Some true) (Some 0) (Some 1);
               SchemaElement.mk "y" (Some OPTIONAL) (Some 0) (Some [])
                 (Some ["y"%string]) (Some false) (Some 1) (Some 0)],
              [1; 2]%nat)).
Proof. vm_compute. reflexivity. Qed.

(** X1 on [file_required]. *)
Lemma X1_init_memmap_framing_witness :
  (8 ≤ length file_required)%nat
  ∧ take 4 file_required = PAR1
  ∧ drop (length file_required - 4) file_required = PAR1.
Proof.
  destruct (X1_init_memmap_framing (Env := sample_env) file_required
              (opened file_required x_required UNCOMPRESSED)
              (Memmap file_required) ltac:(evaluate))
    as (_ & _ & Hlen & Hhead & Htail & _).
  by split_and!.
Defined.

(** X2 on the four bytes PAR1 alone. *)
Lemma X2_init_memmap_rejects_witness :
  __init__ (Memmap PAR1) = Some (Raise ValueError, Memmap PAR1).
Proof.
  apply (X2_init_memmap_rejects (Env := sample_env) PAR1); [evaluate|].
  left. simpl. lia.
Defined.

(** X3 on a read of five bytes at index 1 of a three-byte array. *)
Lemma X3_read_advances_by_request_witness :
  0 ≤ 1 < Z.of_nat (length [x01; x02; x03])
  ∧ 6 = 1 + 5
  ∧ [x02; x03] = take (Z.to_nat 5) (drop (Z.to_nat 1) [x01; x02; x03])
  ∧ ((length [x02; x03] < Z.to_nat 5)%nat →
     ∀ n, _read [x01; x02; x03] 6 n = Raise IOError).
Proof.
  apply (X3_read_advances_by_request [x01; x02; x03] 1 5 [x02; x03] 6);
    evaluate.
Defined.

(** X4 on reads of one and two bytes. *)
Lemma X4_read_compose_witness :
  _read [x01; x02; x03; x04] 0 (1 + 2) = Ok ([x01] ++ [x02; x03], 3).
Proof.
  apply (X4_read_compose [x01; x02; x03; x04] 0 1 2 [x01] [x02; x03] 1 3);
    evaluate.
Defined.

(** X5 on the nested schema. *)
Lemma X5_walk_paths_witness :
  length nested_walked = length nested_schema
  ∧ ∀ i path d r,
      visited nested_walked [1; 4]%nat i path d r →
      ∃ e0 e,
        nested_schema !! i = Some e0 ∧ nested_walked !! i = Some e
        ∧ SchemaElement.name e = SchemaElement.name e0
        ∧ SchemaElement.repetition_type e = SchemaElement.repetition_type e0
        ∧ SchemaElement.path e = Some (path ++ [SchemaElement.name e0]).
Proof.
  apply (X5_walk_paths 6 nested_schema nested_walked [1; 4]%nat); evaluate.
Defined.

(** X6 on the nested schema. *)
Lemma X6_walk_level_bounds_witness :
  ∃ e own_path maxdef maxrep,
    nested_walked !! 2%nat = Some e
    ∧ SchemaElement.path e = Some own_path
    ∧ SchemaElement.maxdef e = Some maxdef
    ∧ SchemaElement.maxrep e = Some maxrep
    ∧ 0 ≤ 0 ≤ maxdef
    ∧ 0 ≤ 1 ≤ maxrep
    ∧ maxdef + maxrep = Z.of_nat (length own_path)
    ∧ length own_path = S (length ["a"%string]).
Proof.
  apply (X6_walk_level_bounds 6 nested_schema nested_walked [1; 4]%nat);
    [evaluate|].
  apply (visited_child _ _ 1%nat [] 0 0
           (SchemaElement.mk "a" (Some REQUIRED) (Some 2) (Some [2; 3]%nat)
              (Some ["a"%string]) (Some true) (Some 0) (Some 1))
           [2; 3]%nat ["a"%string] 0 1 2%nat); evaluate.
Defined.

(** X7 on the nested schema. *)
Lemma X7_walk_arity_witness :
  nested_walked !! 0%nat = nested_schema !! 0%nat
  ∧ ∀ i, (1 ≤ i < length nested_schema)%nat →
      ∃ e0 e cs,
        nested_schema !! i = Some e0 ∧ nested_walked !! i = Some e
        ∧ SchemaElement.num_children e
          = Some (default 0 (SchemaElement.num_children e0))
        ∧ SchemaElement.children e = Some cs
        ∧ length cs = Z.to_nat (default 0 (SchemaElement.num_children e0))
        ∧ (cs = [] ∨ head cs = Some (S i)).
Proof.
  apply (X7_walk_arity 6 nested_schema nested_walked [1; 4]%nat); evaluate.
Defined.

(** X9 on [flat_schema]. *)
Lemma X9_walk_flat_schema_witness :
  fields_loop 4 flat_schema 0 []
  = Some (Ok (take 1 flat_schema
              ++ ((λ e, enrich e [] 0 0) <$> drop 1 flat_schema),
              seq 1 (length flat_schema - 1))).
Proof.
  apply (X9_walk_flat_schema 4 flat_schema).
  - repeat constructor; unfold is_leaf; simpl; lia.
  - simpl. lia.
Defined.

(** X10 on the nested schema. *)
Lemma X10_walk_terminates_witness :
  ∃ r, fields_loop 9 nested_schema 0 [] = Some r
       ∧ fields_loop (S (length nested_schema)) nested_schema 0 [] = Some r.
Proof. apply (X10_walk_terminates nested_schema 9). simpl. lia. Defined.

(** X11 on three chunks, the second and third for [x]. *)
Lemma X11_find_column_first_match_witness :
  ∃ before,
    Forall (passed_over x_required) before
    ∧ ∃ after meta,
        [chunk_y; chunk_x UNCOMPRESSED; chunk_x GZIP]
        = before ++ chunk_x UNCOMPRESSED :: after
        ∧ ColumnChunk.meta_data (chunk_x UNCOMPRESSED) = Some meta
        ∧ SchemaElement.path x_required
          = Some (ColumnMetaData.path_in_schema meta).
Proof.
  apply (X11_find_column_first_match
           [chunk_y; chunk_x UNCOMPRESSED; chunk_x GZIP] x_required
           (Some (chunk_x UNCOMPRESSED))); evaluate.
Defined.

(** X13 on [file_snappy], the snappy module being absent. *)
Lemma X13_column_codec_refused_before_io_witness :
  column 2 (opened file_snappy x_required SNAPPY) 0 x_required
    true true true false
  = Some (Raise ImportError, opened file_snappy x_required SNAPPY)
  ∧ ((ImportError = ImportError
      ∧ ColumnMetaData.codec (meta_x SNAPPY) = SNAPPY
      ∧ snappy = None)
     ∨ (ImportError = NotImplementedError
        ∧ ColumnMetaData.codec (meta_x SNAPPY) ∈ [LZO; BROTLI; LZ4; ZSTD])
     ∨ (ImportError = AssertionError
        ∧ ∃ tag, ColumnMetaData.codec (meta_x SNAPPY) = OtherCodec tag)).
Proof.
  apply (X13_column_codec_refused_before_io (Env := sample_env) 2
           (opened file_snappy x_required SNAPPY) 0 x_required true true true
           (RowGroup.mk [chunk_x SNAPPY]) (chunk_x SNAPPY) (meta_x SNAPPY)
           ImportError); evaluate.
Defined.

(** X14 on [file_empty_chunk], whose column is OPTIONAL. *)
Lemma X14_column_empty_chunk_witness :
  column_run 1 opened_empty_chunk 0 x_optional true true true false
  = Some (Ok ([], empty_out true true true), Memmap file_empty_chunk).
Proof.
  apply (X14_column_empty_chunk (Env := sample_env) 1 opened_empty_chunk 0
           x_optional true true true (RowGroup.mk [chunk_x_empty])
           chunk_x_empty
           (ColumnMetaData.mk INT32 ["x"%string] UNCOMPRESSED 0)
           (λ compressed, Ok compressed) (Memmap file_empty_chunk));
    evaluate.
Defined.

(** X15 on [file_two_pages]. *)
Lemma X15_column_reads_only_flat_required_plain_witness :
  false = false
  ∧ SchemaElement.required x_required = Some true
  ∧ (∃ path, SchemaElement.path x_required = Some path
             ∧ (length path ≤ 1)%nat)
  ∧ Forall plain_page two_pages
  ∧ ∃ rowgroup chunk meta,
      py_index
        (FileMetaData.row_groups
           (footer (opened file_two_pages x_required UNCOMPRESSED))) 0
      = Ok rowgroup
      ∧ find_column (RowGroup.columns rowgroup) x_required = Ok (Some chunk)
      ∧ ColumnChunk.meta_data chunk = Some meta
      ∧ ColumnMetaData.codec meta ∈ [UNCOMPRESSED; SNAPPY]
      ∧ ColumnMetaData.type meta ∈ [INT32; INT64; INT96; FLOAT; DOUBLE].
Proof.
  apply (X15_column_reads_only_flat_required_plain (Env := sample_env) 3
           (opened file_two_pages x_required UNCOMPRESSED) 0 x_required
           true true true false two_pages
           [None; None; Some (mk_ndarray lt_i4 [1; 2; 3])]
           (Memmap file_two_pages)); [evaluate|done].
Defined.

(** X16 on [file_nested]. *)
Lemma X16_column_nested_refused_witness :
  (∃ path, SchemaElement.path b_nested = Some path ∧ (2 ≤ length path)%nat)
  ∧ column 1 opened_nested 0 b_nested true true true false
    = Some (Raise NotImplementedError, opened_nested).
Proof.
  apply (X16_column_nested_refused (Env := sample_env)
           (Memmap file_nested) opened_nested (Memmap file_nested) 2%nat
           b_nested 0 (RowGroup.mk [chunk_a_b]) chunk_a_b
           (ColumnMetaData.mk INT32 ["a"; "b"]%string UNCOMPRESSED 3)
           (λ compressed, Ok compressed)
           (Memmap file_nested) (Memmap file_nested)
           (data_page 12 3 values_1_2_3) 33 values_1_2_3 1); try evaluate.
  intros Hin. simpl in Hin. apply list_elem_of_singleton in Hin. done.
Defined.

(** X17 on [file_dictionary]. *)
Lemma X17_column_page_encoding_witness :
  column 1 (opened file_dictionary x_required UNCOMPRESSED) 0 x_required
    true true true false
  = Some (Raise NotImplementedError,
          opened file_dictionary x_required UNCOMPRESSED).
Proof.
  apply (X17_column_page_encoding (Env := sample_env) 1
           (opened file_dictionary x_required UNCOMPRESSED) 0 x_required
           true true true
           (RowGroup.mk [chunk_x UNCOMPRESSED]) (chunk_x UNCOMPRESSED)
           (meta_x UNCOMPRESSED) (λ compressed, Ok compressed)
           (Memmap file_dictionary) (Memmap file_dictionary)
           dictionary_page 33 values_1_2_3 ["x"%string]
           (DataPageHeader.mk 3 PLAIN_DICTIONARY)); evaluate.
Defined.

(** X18 on [file_two_pages]. *)
Lemma X18_column_uncompressed_bytes_witness :
  ∃ a, last [None; None; Some (mk_ndarray lt_i4 [1; 2; 3])] = Some (Some a)
       ∧ tobytes a = mjoin (pg_compressed <$> two_pages)
       ∧ (ColumnMetaData.type (meta_x UNCOMPRESSED), nd_dtype a)
           ∈ [(INT32, lt_i4); (INT64, lt_i8); (INT96, S12); (FLOAT, lt_f4);
              (DOUBLE, lt_f8)].
Proof.
  apply (X18_column_uncompressed_bytes (Env := sample_env) 3
           (opened file_two_pages x_required UNCOMPRESSED) 0 x_required
           true true two_pages
           [None; None; Some (mk_ndarray lt_i4 [1; 2; 3])]
           (Memmap file_two_pages)
           (RowGroup.mk [chunk_x UNCOMPRESSED]) (chunk_x UNCOMPRESSED)
           (meta_x UNCOMPRESSED)); [evaluate..|done].
Defined.

(** X19 on [file_zero_progress]. *)
Lemma X19_column_memmap_zero_progress_witness :
  column 1000 (opened file_zero_progress x_required UNCOMPRESSED) 0
    x_required true true true false = None.
Proof.
  apply (X19_column_memmap_zero_progress (Env := sample_env)
           (opened file_zero_progress x_required UNCOMPRESSED)
           file_zero_progress 0 x_required true true true
           (RowGroup.mk [chunk_x UNCOMPRESSED]) (chunk_x UNCOMPRESSED)
           (meta_x UNCOMPRESSED) ["x"%string]
           (PageHeader.mk (Some 0) (Some (-17))
              (Some (DataPageHeader.mk 0 PLAIN)))
           21 (-17) (DataPageHeader.mk 0 PLAIN)); evaluate.
Defined.

(** X23 on twelve contiguous bytes that announce a footer of 100 bytes. *)
Lemma X23_init_memmap_footer_out_of_bounds_witness :
  construct (Ndarray 1 1 true file_footer_too_long)
  = Some (Raise IOError, Ndarray 1 1 true file_footer_too_long).
Proof.
  apply (X23_init_memmap_footer_out_of_bounds (Env := sample_env)
           file_footer_too_long true); evaluate.
Defined.

(** X24 on [file_no_size]. *)
Lemma X24_column_memmap_page_size_missing_witness :
  column 1 (opened file_no_size x_required UNCOMPRESSED) 0 x_required
    true true true false
  = Some (Raise TypeError, opened file_no_size x_required UNCOMPRESSED).
Proof.
  apply (X24_column_memmap_page_size_missing (Env := sample_env) 1
           (opened file_no_size x_required UNCOMPRESSED) file_no_size 0
           x_required true true true
           (RowGroup.mk [chunk_x UNCOMPRESSED]) (chunk_x UNCOMPRESSED)
           (meta_x UNCOMPRESSED) (λ compressed, Ok compressed)
           (PageHeader.mk (Some 12) None (Some (DataPageHeader.mk 3 PLAIN)))
           19); evaluate.
Defined.

(** X20 on the twelve bytes of 1, 2, 3. *)
Lemma X20_plain_success_witness :
  _plain values_1_2_3 (meta_x UNCOMPRESSED) = Ok (mk_ndarray lt_i4 [1; 2; 3])
  ∧ tobytes (mk_ndarray lt_i4 [1; 2; 3]) = values_1_2_3.
Proof.
  split; [evaluate|].
  apply (X20_plain_success values_1_2_3 (meta_x UNCOMPRESSED)
           (mk_ndarray lt_i4 [1; 2; 3])); evaluate.
Defined.

(** X21 on three bytes for an INT32 column. *)
Lemma X21_plain_failure_witness :
  _plain [x01; x00; x00] (meta_x UNCOMPRESSED) = Raise ValueError
  ∧ ∃ w, (ColumnMetaData.type (meta_x UNCOMPRESSED), w)
           ∈ [(INT32, 4); (INT64, 8); (INT96, 12); (FLOAT, 4);
              (DOUBLE, 8)]%nat
         ∧ (length [x01; x00; x00] mod w ≠ 0)%nat.
Proof.
  split; [evaluate|].
  destruct (X21_plain_failure [x01; x00; x00] (meta_x UNCOMPRESSED) ValueError
              ltac:(evaluate)) as [[[=] _]|[[[=] _]|[_ Hw]]].
  exact Hw.
Defined.

(** X22 on the INT64 array 1, -2, 3. *)
Lemma X22_plain_encode_decode_witness :
  _plain (tobytes (mk_ndarray lt_i8 [1; -2; 3]))
    (ColumnMetaData.mk INT64 ["t"%string] UNCOMPRESSED 3)
  = Ok (mk_ndarray lt_i8 [1; -2; 3]).
Proof.
  apply (X22_plain_encode_decode
           (ColumnMetaData.mk INT64 ["t"%string] UNCOMPRESSED 3) lt_i8
           [1; -2; 3]).
  - apply list_elem_of_further, list_elem_of_here.
  - repeat constructor; simpl; lia.
Defined.
